(** * Job application tracker: status history, field mapping and routing

    A shallow embedding of the application routes of the backend
    (src/backend/src/routes/applications.ts), of the relational schema they
    run against (src/backend/prisma/migrations/.../migration.sql) and of the
    reverse field mappers of the edit form
    (src/frontend/src/pages/applications/EditApplicationPage.tsx); then of
    the company deletion (src/backend/src/routes/companies.ts) and of what
    the pages of src/frontend/src/pages/applications send to these routes. *)

From Stdlib Require Import ZArith List String Ascii Bool Lia.
From Stdlib Require Import Sorted Permutation.
From Stdlib Require DecimalString DecimalPos.
Import ListNotations.

Set Warnings "-register-all".

Open Scope string_scope.
Open Scope Z_scope.
Open Scope list_scope.

(** ** JavaScript values and the built-ins the routes rely on *)

Module JS.

(** The values that flow through the request bodies and the mappers.
    [Frac] is a finite number that is not an integer, [Date None] is an
    Invalid Date, [Obj] is any other object or function, named by a tag. *)
Inductive value : Type :=
| Undefined
| Null
| Bool (b : bool)
| Int (n : Z)
| Frac
| Str (s : string)
| Date (t : option Z)
| Arr (items : list value)
| Obj (tag : string).

(** ToBoolean. *)
Definition truthy (v : value) : bool :=
  match v with
  | Undefined | Null => false
  | Bool b => b
  | Int n => negb (n =? 0)
  | Frac => true
  | Str s => negb (String.eqb s "")
  | Date _ | Arr _ | Obj _ => true
  end.

(** [a || b]. *)
Definition or (a b : value) : value := if truthy a then a else b.

(** The property names every object literal inherits from
    [Object.prototype]. *)
Definition Object_prototype : list string :=
  [ "constructor"; "__defineGetter__"; "__defineSetter__"; "hasOwnProperty";
    "__lookupGetter__"; "__lookupSetter__"; "isPrototypeOf";
    "propertyIsEnumerable"; "toString"; "valueOf"; "__proto__";
    "toLocaleString" ].

Definition inherited (k : string) : bool :=
  existsb (String.eqb k) Object_prototype.

(** An object literal whose own properties are all strings: the mapping
    tables. *)
Definition literal : Type := list (string * string).

Fixpoint own (o : literal) (k : string) : option string :=
  match o with
  | [] => None
  | (k', v) :: rest => if String.eqb k k' then Some v else own rest k
  end.

(** [o[k]]: own properties first, then the prototype chain. *)
Definition get (o : literal) (k : string) : value :=
  match own o k with
  | Some v => Str v
  | None => if inherited k then Obj k else Undefined
  end.

(** A plain object with arbitrary members: a request body, the [data]
    argument of a Prisma call. Absent members read as [undefined]. *)
Definition object : Type := list (string * value).

Fixpoint prop (o : object) (k : string) : value :=
  match o with
  | [] => Undefined
  | (k', v) :: rest => if String.eqb k k' then v else prop rest k
  end.

Definition defined (v : value) : bool :=
  match v with Undefined => false | _ => true end.

(** [if (c) o.k = v], as a piece of the object under construction. *)
Definition when (c : bool) (k : string) (v : value) : object :=
  if c then [(k, v)] else [].

(** *** parseInt, with no radix argument. [None] is NaN. *)

Definition is_ws (c : ascii) : bool :=
  let n := nat_of_ascii c in
  orb (Nat.eqb n 32) (andb (Nat.leb 9 n) (Nat.leb n 13)).

Fixpoint skip_ws (s : string) : string :=
  match s with
  | String c r => if is_ws c then skip_ws r else s
  | EmptyString => s
  end.

Definition digit_of (c : ascii) : option Z :=
  let n := Z.of_nat (nat_of_ascii c) in
  if andb (48 <=? n) (n <=? 57) then Some (n - 48)
  else if andb (97 <=? n) (n <=? 122) then Some (n - 87)
  else if andb (65 <=? n) (n <=? 90) then Some (n - 55)
  else None.

Fixpoint digits (radix : Z) (s : string) (acc : option Z) : option Z :=
  match s with
  | EmptyString => acc
  | String c r =>
      match digit_of c with
      | Some d =>
          if d <? radix
          then digits radix r
                 (Some (match acc with Some a => a * radix + d | None => d end))
          else acc
      | None => acc
      end
  end.

Definition parseInt (s : string) : option Z :=
  let s := skip_ws s in
  let '(sign, s) :=
    match s with
    | String "-" r => (-1, r)
    | String "+" r => (1, r)
    | _ => (1, s)
    end in
  let '(radix, s) :=
    match s with
    | String "0" (String "x" r) => (16, r)
    | String "0" (String "X" r) => (16, r)
    | _ => (10, s)
    end in
  option_map (Z.mul sign) (digits radix s None).

(** ASCII lower-casing, for case-insensitive route matching. *)
Definition lower (c : ascii) : ascii :=
  let n := nat_of_ascii c in
  if andb (Nat.leb 65 n) (Nat.leb n 90) then ascii_of_nat (n + 32) else c.

Fixpoint toLowerCase (s : string) : string :=
  match s with
  | EmptyString => EmptyString
  | String c r => String (lower c) (toLowerCase r)
  end.

End JS.

(** ** Field mappers of the backend (applications.ts, lines 14-54) *)

Module FieldMapper.

Definition employmentType_mapping : JS.literal :=
  [ ("full-time", "full_time"); ("part-time", "part_time");
    ("contract", "contract"); ("internship", "internship") ].

Definition mapEmploymentType (frontendValue : string) : JS.value :=
  JS.or (JS.get employmentType_mapping frontendValue) (JS.Str "full_time").

Definition workType_mapping : JS.literal :=
  [ ("remote", "remote"); ("hybrid", "hybrid"); ("on-site", "on_site") ].

Definition mapWorkType (frontendValue : string) : JS.value :=
  JS.or (JS.get workType_mapping frontendValue) (JS.Str "remote").

Definition priority_mapping : JS.literal :=
  [ ("low", "low"); ("medium", "medium"); ("high", "high") ].

Definition mapPriority (frontendValue : string) : JS.value :=
  JS.or (JS.get priority_mapping frontendValue) (JS.Str "medium").

Definition status_mapping : JS.literal :=
  [ ("applied", "applied"); ("reviewing", "reviewing");
    ("interview_scheduled", "interview_scheduled");
    ("interviewed", "interviewed"); ("offer", "offer");
    ("rejected", "rejected"); ("withdrawn", "withdrawn") ].

Definition mapStatus (frontendValue : string) : JS.value :=
  JS.or (JS.get status_mapping frontendValue) (JS.Str "applied").

End FieldMapper.

(** ** Reverse mappers of the edit form (EditApplicationPage.tsx, 47-87) *)

Module EditPage.

Definition employmentType_mapping : JS.literal :=
  [ ("full_time", "full-time"); ("part_time", "part-time");
    ("contract", "contract"); ("internship", "internship") ].

Definition reverseMapEmploymentType (dbValue : string) : JS.value :=
  JS.or (JS.get employmentType_mapping dbValue) (JS.Str "full-time").

Definition workType_mapping : JS.literal :=
  [ ("remote", "remote"); ("hybrid", "hybrid"); ("on_site", "on-site") ].

Definition reverseMapWorkType (dbValue : string) : JS.value :=
  JS.or (JS.get workType_mapping dbValue) (JS.Str "remote").

Definition priority_mapping : JS.literal :=
  [ ("low", "low"); ("medium", "medium"); ("high", "high") ].

Definition reverseMapPriority (dbValue : string) : JS.value :=
  JS.or (JS.get priority_mapping dbValue) (JS.Str "medium").

Definition status_mapping : JS.literal :=
  [ ("applied", "applied"); ("reviewing", "reviewing");
    ("interview_scheduled", "interview_scheduled");
    ("interviewed", "interviewed"); ("offer", "offer");
    ("rejected", "rejected"); ("withdrawn", "withdrawn") ].

Definition reverseMapStatus (dbValue : string) : JS.value :=
  JS.or (JS.get status_mapping dbValue) (JS.Str "applied").

End EditPage.

(** The four mapped fields, and the two directions of the mapping as the
    specification names them. *)
Inductive Field : Type :=
  FEmploymentType | FWorkType | FPriority | FStatus.

Definition toStorage (f : Field) : string -> JS.value :=
  match f with
  | FEmploymentType => FieldMapper.mapEmploymentType
  | FWorkType => FieldMapper.mapWorkType
  | FPriority => FieldMapper.mapPriority
  | FStatus => FieldMapper.mapStatus
  end.

Definition toPresentation (f : Field) : string -> JS.value :=
  match f with
  | FEmploymentType => EditPage.reverseMapEmploymentType
  | FWorkType => EditPage.reverseMapWorkType
  | FPriority => EditPage.reverseMapPriority
  | FStatus => EditPage.reverseMapStatus
  end.

Definition forward_table (f : Field) : JS.literal :=
  match f with
  | FEmploymentType => FieldMapper.employmentType_mapping
  | FWorkType => FieldMapper.workType_mapping
  | FPriority => FieldMapper.priority_mapping
  | FStatus => FieldMapper.status_mapping
  end.

Definition reverse_table (f : Field) : JS.literal :=
  match f with
  | FEmploymentType => EditPage.employmentType_mapping
  | FWorkType => EditPage.workType_mapping
  | FPriority => EditPage.priority_mapping
  | FStatus => EditPage.status_mapping
  end.

(** The default each forward mapper falls back to. *)
Definition storage_default (f : Field) : string :=
  match f with
  | FEmploymentType => "full_time"
  | FWorkType => "remote"
  | FPriority => "medium"
  | FStatus => "applied"
  end.

(** The storage-vocabulary values of a field's mapping table. *)
Definition storage_values (f : Field) : list string :=
  map fst (reverse_table f).

(** ** The relational schema (migration.sql) *)

Module Schema.

Inductive EmploymentType : Type := full_time | part_time | contract | internship.
Inductive WorkType : Type := remote | hybrid | on_site.
Inductive ApplicationStatus : Type :=
  applied | reviewing | interview_scheduled | interviewed | offer | rejected
| withdrawn.
Inductive Priority : Type := low | medium | high | urgent.

Definition EmploymentType_label (e : EmploymentType) : string :=
  match e with
  | full_time => "full_time" | part_time => "part_time"
  | contract => "contract" | internship => "internship"
  end.

Definition WorkType_label (w : WorkType) : string :=
  match w with remote => "remote" | hybrid => "hybrid" | on_site => "on_site" end.

Definition ApplicationStatus_label (s : ApplicationStatus) : string :=
  match s with
  | applied => "applied" | reviewing => "reviewing"
  | interview_scheduled => "interview_scheduled"
  | interviewed => "interviewed" | offer => "offer"
  | rejected => "rejected" | withdrawn => "withdrawn"
  end.

Definition Priority_label (p : Priority) : string :=
  match p with
  | low => "low" | medium => "medium" | high => "high" | urgent => "urgent"
  end.

(** Reading a label back: the first enum member carrying it. *)
Definition of_label {E : Type} (members : list E) (label : E -> string)
    (s : string) : option E :=
  find (fun e => String.eqb (label e) s) members.

Definition EmploymentType_of_label : string -> option EmploymentType :=
  of_label [full_time; part_time; contract; internship] EmploymentType_label.
Definition WorkType_of_label : string -> option WorkType :=
  of_label [remote; hybrid; on_site] WorkType_label.
Definition ApplicationStatus_of_label : string -> option ApplicationStatus :=
  of_label [applied; reviewing; interview_scheduled; interviewed; offer;
            rejected; withdrawn] ApplicationStatus_label.
Definition Priority_of_label : string -> option Priority :=
  of_label [low; medium; high; urgent] Priority_label.

(** The rows. [Company], [Interview], [Task] and [Document] keep the columns
    the application routes read (keys, owners and the ordering columns). *)
Record Company : Type := {
  co_id : Z;
  co_name : string;
  co_website : option string;
  co_industry : option string;
  co_location : option string;
  co_userId : Z
}.

Record Application : Type := {
  app_id : Z;
  app_positionTitle : string;
  app_applicationDate : Z;
  app_status : ApplicationStatus;
  app_jobDescription : option string;
  app_requirements : option string;
  app_location : option string;
  app_salaryRange : option string;
  app_applicationUrl : option string;
  app_referralSource : option string;
  app_priority : Priority;
  app_notes : option string;
  app_employmentType : option EmploymentType;
  app_workType : option WorkType;
  app_salaryMin : option Z;
  app_salaryMax : option Z;
  app_source : option string;
  app_createdAt : Z;
  app_updatedAt : Z;
  app_userId : Z;
  app_companyId : Z
}.

Record StatusHistory : Type := {
  sh_id : Z;
  sh_status : ApplicationStatus;
  sh_notes : option string;
  sh_createdAt : Z;
  sh_applicationId : Z
}.

Record Interview : Type := {
  iv_id : Z;
  iv_scheduledDate : option Z;
  iv_applicationId : Z
}.

Record Task : Type := {
  task_id : Z;
  task_createdAt : Z;
  task_applicationId : option Z;
  task_userId : Z
}.

Record Document : Type := {
  doc_id : Z;
  doc_uploadedAt : Z;
  doc_applicationId : option Z;
  doc_userId : Z
}.

(** The store: one list of rows per table, and the two SERIAL sequences the
    application routes draw from. *)
Record DB : Type := {
  companies : list Company;
  applications : list Application;
  statusHistory : list StatusHistory;
  interviews : list Interview;
  tasks : list Task;
  documents : list Document;
  application_seq : Z;
  statusHistory_seq : Z
}.

Definition refers (fk : option Z) (id : Z) : bool :=
  match fk with Some k => k =? id | None => false end.

(** DELETE FROM "Application" WHERE id = ..., with the four foreign keys
    declared ON DELETE CASCADE (migration.sql, lines 176-188). *)
Definition delete_application (id : Z) (d : DB) : DB :=
  {| companies := companies d;
     applications := filter (fun a => negb (app_id a =? id)) (applications d);
     statusHistory :=
       filter (fun h => negb (sh_applicationId h =? id)) (statusHistory d);
     interviews :=
       filter (fun i => negb (iv_applicationId i =? id)) (interviews d);
     tasks := filter (fun t => negb (refers (task_applicationId t) id)) (tasks d);
     documents :=
       filter (fun x => negb (refers (doc_applicationId x) id)) (documents d);
     application_seq := application_seq d;
     statusHistory_seq := statusHistory_seq d |}.

(** DELETE FROM "Company" WHERE id = ...: Application.companyId cascades
    (line 173), and every Application removed cascades in turn. *)
Definition delete_company (id : Z) (d : DB) : DB :=
  let d' :=
    fold_right delete_application d
      (map app_id (filter (fun a => app_companyId a =? id) (applications d))) in
  {| companies := filter (fun c => negb (co_id c =? id)) (companies d');
     applications := applications d';
     statusHistory := statusHistory d';
     interviews := interviews d';
     tasks := tasks d';
     documents := documents d';
     application_seq := application_seq d';
     statusHistory_seq := statusHistory_seq d' |}.

(** ORDER BY: insertion into a list kept ordered by [leb]. *)
Fixpoint insert_by {A : Type} (leb : A -> A -> bool) (x : A) (l : list A)
  : list A :=
  match l with
  | [] => [x]
  | y :: r => if leb x y then x :: l else y :: insert_by leb x r
  end.

Definition order_by {A : Type} (leb : A -> A -> bool) (l : list A) : list A :=
  fold_right (insert_by leb) [] l.

Definition desc {A : Type} (key : A -> Z) (x y : A) : bool := key y <=? key x.

(** Ascending on a nullable column: NULLs sort last. *)
Definition asc_nulls_last {A : Type} (key : A -> option Z) (x y : A) : bool :=
  match key x, key y with
  | Some a, Some b => a <=? b
  | Some _, None => true
  | None, Some _ => false
  | None, None => true
  end.

End Schema.

(** ** The Prisma client: awaited calls against the store *)

Module Prisma.
Import Schema.

(** What a route handler can find in its [catch]. *)
Inductive Exn : Type :=
| ZodError (issues : list string)
| ClientError.

(** The world a request runs in: the store, and for each awaited Prisma call
    still to come whether it rejects ([true]) for a reason outside the store
    (a lost connection, a statement timeout). No entry means no such fault. *)
Record World : Type := { db : DB; faults : list bool }.

Definition Op (A : Type) : Type := World -> (A + Exn) * World.

Definition ret {A : Type} (a : A) : Op A := fun w => (inl a, w).

Definition throw {A : Type} (e : Exn) : Op A := fun w => (inr e, w).

Definition bind {A B : Type} (m : Op A) (k : A -> Op B) : Op B :=
  fun w =>
    match m w with
    | (inl a, w') => k a w'
    | (inr e, w') => (inr e, w')
    end.

Definition try_catch {A : Type} (m : Op A) (handler : Exn -> Op A) : Op A :=
  fun w =>
    match m w with
    | (inl a, w') => (inl a, w')
    | (inr e, w') => handler e w'
    end.

(** [await prisma.model.action(...)]: one statement, applied whole or not at
    all. [q] answers [None] when Prisma or the database rejects it. *)
Definition call {A : Type} (q : DB -> option (A * DB)) : Op A :=
  fun w =>
    match faults w with
    | true :: rest => (inr ClientError, {| db := db w; faults := rest |})
    | _ =>
        match q (db w) with
        | Some (a, d) => (inl a, {| db := d; faults := tl (faults w) |})
        | None => (inr ClientError, {| db := db w; faults := tl (faults w) |})
        end
    end.

(** *** Column values out of a [data] object. [None] is a rejected value.
    INTEGER columns are unbounded here. *)

Definition text (v : JS.value) : option string :=
  match v with JS.Str s => Some s | _ => None end.

Definition int (v : JS.value) : option Z :=
  match v with JS.Int n => Some n | _ => None end.

Definition datetime (v : JS.value) : option Z :=
  match v with JS.Date t => t | _ => None end.

Definition enum {E : Type} (of_label : string -> option E) (v : JS.value)
  : option E :=
  match v with JS.Str s => of_label s | _ => None end.

(** A NOT NULL column: an absent member keeps [dflt] (the column default on
    create, the stored value on update, nothing when there is neither). *)
Definition required {A : Type} (conv : JS.value -> option A) (dflt : option A)
    (v : JS.value) : option A :=
  match v with JS.Undefined => dflt | _ => conv v end.

(** A nullable column. *)
Definition nullable {A : Type} (conv : JS.value -> option A) (dflt : option A)
    (v : JS.value) : option (option A) :=
  match v with
  | JS.Undefined => Some dflt
  | JS.Null => Some None
  | _ => option_map Some (conv v)
  end.

Notation "'let?' x ':=' e 'in' k" :=
  (match e with Some x => k | None => None end)
  (at level 10, x pattern, e at level 100, k at level 200).

Notation "x <- m ;; k" := (bind m (fun x => k))
  (at level 61, m at next level, right associativity).

Definition has_company (d : DB) (id : Z) : bool :=
  existsb (fun c => co_id c =? id) (companies d).

Definition has_application (d : DB) (id : Z) : bool :=
  existsb (fun a => app_id a =? id) (applications d).

(** The row an application [data] object describes, over the defaults
    [old]. *)
Definition application_row (now : Z) (old : Application) (data : JS.object)
  : option Application :=
  let? positionTitle :=
    required text (Some (app_positionTitle old)) (JS.prop data "positionTitle") in
  let? applicationDate :=
    required datetime (Some (app_applicationDate old))
      (JS.prop data "applicationDate") in
  let? status :=
    required (enum ApplicationStatus_of_label) (Some (app_status old))
      (JS.prop data "status") in
  let? jobDescription :=
    nullable text (app_jobDescription old) (JS.prop data "jobDescription") in
  let? requirements :=
    nullable text (app_requirements old) (JS.prop data "requirements") in
  let? location := nullable text (app_location old) (JS.prop data "location") in
  let? salaryRange :=
    nullable text (app_salaryRange old) (JS.prop data "salaryRange") in
  let? applicationUrl :=
    nullable text (app_applicationUrl old) (JS.prop data "applicationUrl") in
  let? referralSource :=
    nullable text (app_referralSource old) (JS.prop data "referralSource") in
  let? priority :=
    required (enum Priority_of_label) (Some (app_priority old))
      (JS.prop data "priority") in
  let? notes := nullable text (app_notes old) (JS.prop data "notes") in
  let? employmentType :=
    nullable (enum EmploymentType_of_label) (app_employmentType old)
      (JS.prop data "employmentType") in
  let? workType :=
    nullable (enum WorkType_of_label) (app_workType old)
      (JS.prop data "workType") in
  let? salaryMin := nullable int (app_salaryMin old) (JS.prop data "salaryMin") in
  let? salaryMax := nullable int (app_salaryMax old) (JS.prop data "salaryMax") in
  let? source := nullable text (app_source old) (JS.prop data "source") in
  let? userId := required int (Some (app_userId old)) (JS.prop data "userId") in
  let? companyId :=
    required int (Some (app_companyId old)) (JS.prop data "companyId") in
  Some {| app_id := app_id old;
          app_positionTitle := positionTitle;
          app_applicationDate := applicationDate;
          app_status := status;
          app_jobDescription := jobDescription;
          app_requirements := requirements;
          app_location := location;
          app_salaryRange := salaryRange;
          app_applicationUrl := applicationUrl;
          app_referralSource := referralSource;
          app_priority := priority;
          app_notes := notes;
          app_employmentType := employmentType;
          app_workType := workType;
          app_salaryMin := salaryMin;
          app_salaryMax := salaryMax;
          app_source := source;
          app_createdAt := app_createdAt old;
          app_updatedAt := now;
          app_userId := userId;
          app_companyId := companyId |}.

(** The column defaults of CREATE TABLE "Application", for the row with
    key [id] inserted at [now]. The three columns without a default
    (positionTitle, userId, companyId) must come from [data]. *)
Definition application_defaults (id now : Z) : Application :=
  {| app_id := id;
     app_positionTitle := "";
     app_applicationDate := now;
     app_status := applied;
     app_jobDescription := None;
     app_requirements := None;
     app_location := None;
     app_salaryRange := None;
     app_applicationUrl := None;
     app_referralSource := None;
     app_priority := medium;
     app_notes := None;
     app_employmentType := Some full_time;
     app_workType := Some remote;
     app_salaryMin := None;
     app_salaryMax := None;
     app_source := None;
     app_createdAt := now;
     app_updatedAt := now;
     app_userId := 0;
     app_companyId := 0 |}.

(** What a call returns for an Application: the row, and the relations its
    [include] asks for ([None] when a relation is not included). *)
Record Included : Type := {
  the_application : Application;
  with_company : option Company;
  with_statusHistory : option (list StatusHistory);
  with_interviews : option (list Interview);
  with_tasks : option (list Task);
  with_documents : option (list Document)
}.

Definition company_of (d : DB) (a : Application) : option Company :=
  find (fun c => co_id c =? app_companyId a) (companies d).

(** [statusHistory: { orderBy: { createdAt: 'desc' } }] *)
Definition statusHistory_of (d : DB) (id : Z) : list StatusHistory :=
  order_by (desc sh_createdAt)
    (filter (fun h => sh_applicationId h =? id) (statusHistory d)).

(** [interviews: { orderBy: { scheduledDate: 'asc' } }] *)
Definition interviews_of (d : DB) (id : Z) : list Interview :=
  order_by (asc_nulls_last iv_scheduledDate)
    (filter (fun i => iv_applicationId i =? id) (interviews d)).

Definition tasks_of (d : DB) (id : Z) : list Task :=
  order_by (desc task_createdAt)
    (filter (fun t => refers (task_applicationId t) id) (tasks d)).

Definition documents_of (d : DB) (id : Z) : list Document :=
  order_by (desc doc_uploadedAt)
    (filter (fun x => refers (doc_applicationId x) id) (documents d)).

Definition owned_by (id userId : Z) (a : Application) : bool :=
  (app_id a =? id) && (app_userId a =? userId).

(** prisma.company.findFirst({ where: { id, userId } }) *)
Definition company_findFirst (id : JS.value) (userId : Z) (d : DB)
  : option (option Company * DB) :=
  let? id := int id in
  Some (find (fun c => (co_id c =? id) && (co_userId c =? userId))
          (companies d), d).

(** prisma.application.findFirst({ where: { id, userId } }) *)
Definition application_findFirst (id userId : Z) (d : DB)
  : option (option Application * DB) :=
  Some (find (owned_by id userId) (applications d), d).

(** The same with the [include] of GET /:id. *)
Definition application_findFirst_included (id userId : Z) (d : DB)
  : option (option Included * DB) :=
  Some (option_map
          (fun a => {| the_application := a;
                       with_company := company_of d a;
                       with_statusHistory := Some (statusHistory_of d (app_id a));
                       with_interviews := Some (interviews_of d (app_id a));
                       with_tasks := Some (tasks_of d (app_id a));
                       with_documents := Some (documents_of d (app_id a)) |})
          (find (owned_by id userId) (applications d)), d).

Definition set_applications (d : DB) (rows : list Application) (seq : Z) : DB :=
  {| companies := companies d;
     applications := rows;
     statusHistory := statusHistory d;
     interviews := interviews d;
     tasks := tasks d;
     documents := documents d;
     application_seq := seq;
     statusHistory_seq := statusHistory_seq d |}.

Definition set_statusHistory (d : DB) (rows : list StatusHistory) (seq : Z)
  : DB :=
  {| companies := companies d;
     applications := applications d;
     statusHistory := rows;
     interviews := interviews d;
     tasks := tasks d;
     documents := documents d;
     application_seq := application_seq d;
     statusHistory_seq := seq |}.

(** prisma.application.create({ data, include: { company } }) *)
Definition application_create (now : Z) (data : JS.object) (d : DB)
  : option (Included * DB) :=
  if JS.defined (JS.prop data "positionTitle")
     && JS.defined (JS.prop data "userId")
     && JS.defined (JS.prop data "companyId")
  then
    let? row :=
      application_row now (application_defaults (application_seq d) now) data in
    if has_company d (app_companyId row)
    then
      let d' :=
        set_applications d (applications d ++ [row]) (application_seq d + 1) in
      Some ({| the_application := row;
               with_company := company_of d' row;
               with_statusHistory := None;
               with_interviews := None;
               with_tasks := None;
               with_documents := None |}, d')
    else None
  else None.

(** prisma.application.update({ where: { id }, data,
      include: { company, statusHistory } }) *)
Definition application_update (now id : Z) (data : JS.object) (d : DB)
  : option (Included * DB) :=
  let? old := find (fun a => app_id a =? id) (applications d) in
  let? row := application_row now old data in
  if (app_companyId row =? app_companyId old) || has_company d (app_companyId row)
  then
    let d' :=
      set_applications d
        (map (fun a => if app_id a =? id then row else a) (applications d))
        (application_seq d) in
    Some ({| the_application := row;
             with_company := company_of d' row;
             with_statusHistory := Some (statusHistory_of d' id);
             with_interviews := None;
             with_tasks := None;
             with_documents := None |}, d')
  else None.

(** prisma.statusHistory.create({ data }) *)
Definition statusHistory_create (now : Z) (data : JS.object) (d : DB)
  : option (StatusHistory * DB) :=
  let? applicationId := required int None (JS.prop data "applicationId") in
  let? status :=
    required (enum ApplicationStatus_of_label) None (JS.prop data "status") in
  let? notes := nullable text None (JS.prop data "notes") in
  if has_application d applicationId
  then
    let row := {| sh_id := statusHistory_seq d;
                  sh_status := status;
                  sh_notes := notes;
                  sh_createdAt := now;
                  sh_applicationId := applicationId |} in
    Some (row, set_statusHistory d (statusHistory d ++ [row])
                 (statusHistory_seq d + 1))
  else None.

(** prisma.application.delete({ where: { id } }) *)
Definition application_delete (id : Z) (d : DB) : option (unit * DB) :=
  if has_application d id then Some (tt, delete_application id d) else None.

Fixpoint ints (l : list JS.value) : option (list Z) :=
  match l with
  | [] => Some []
  | v :: r => let? n := int v in let? ns := ints r in Some (n :: ns)
  end.

Definition among (ids : list Z) (userId : Z) (a : Application) : bool :=
  existsb (Z.eqb (app_id a)) ids && (app_userId a =? userId).

(** prisma.application.findMany({ where: { id: { in: ids }, userId } }) *)
Definition application_findMany_in (ids : list JS.value) (userId : Z) (d : DB)
  : option (list Application * DB) :=
  let? ids := ints ids in
  Some (filter (among ids userId) (applications d), d).

(** prisma.application.deleteMany({ where: { id: { in: ids }, userId } }) *)
Definition application_deleteMany_in (ids : list JS.value) (userId : Z)
    (d : DB) : option (Z * DB) :=
  let? ids := ints ids in
  let rows := filter (among ids userId) (applications d) in
  Some (Z.of_nat (List.length rows),
        fold_right delete_application d (map app_id rows)).

(** prisma.company.findFirst({ where: { id, userId },
      include: { _count: { select: { applications: true } } } }) *)
Definition company_findFirst_count (id userId : Z) (d : DB)
  : option (option (Company * Z) * DB) :=
  Some (option_map
          (fun c =>
             (c, Z.of_nat (List.length (filter (fun a => app_companyId a =? co_id c)
                                     (applications d)))))
          (find (fun c => (co_id c =? id) && (co_userId c =? userId))
             (companies d)), d).

(** prisma.company.delete({ where: { id } }) *)
Definition company_delete (id : Z) (d : DB) : option (unit * DB) :=
  if has_company d id then Some (tt, delete_company id d) else None.

End Prisma.

(** ** Zod schemas: a check per member of the body *)

Module Zod.

Definition check : Type := JS.value -> bool.
Definition schema : Type := list (string * check).

Definition optional (p : check) : check :=
  fun v => match v with JS.Undefined => true | _ => p v end.

Definition nullable (p : check) : check :=
  fun v => match v with JS.Null => true | _ => p v end.

Definition or (p q : check) : check := fun v => p v || q v.

(** z.string().min(lo).max(hi); lengths are counted in characters. *)
Definition string_within (lo hi : Z) : check :=
  fun v =>
    match v with
    | JS.Str s =>
        let n := Z.of_nat (String.length s) in (lo <=? n) && (n <=? hi)
    | _ => false
    end.

Definition string_any : check :=
  fun v => match v with JS.Str _ => true | _ => false end.

(** z.number().int().positive() *)
Definition int_positive : check :=
  fun v => match v with JS.Int n => 0 <? n | _ => false end.

Definition enum (members : list string) : check :=
  fun v =>
    match v with
    | JS.Str s => existsb (String.eqb s) members
    | _ => false
    end.

Definition literal (l : string) : check :=
  fun v => match v with JS.Str s => String.eqb s l | _ => false end.

Definition url (is_url : string -> bool) : check :=
  fun v => match v with JS.Str s => is_url s | _ => false end.

(** schema.partial() *)
Definition partial (sch : schema) : schema :=
  map (fun kp => (fst kp, optional (snd kp))) sch.

(** The members of the body that fail their check. *)
Definition issues (sch : schema) (body : JS.object) : list string :=
  map fst (filter (fun kp => negb (snd kp (JS.prop body (fst kp)))) sch).

(** schema.parse(body): the members the schema knows, or a ZodError. *)
Definition parse (sch : schema) (body : JS.object) : Prisma.Op JS.object :=
  match issues sch body with
  | [] => Prisma.ret (map (fun kp => (fst kp, JS.prop body (fst kp))) sch)
  | errors => Prisma.throw (Prisma.ZodError errors)
  end.

End Zod.

(** ** Requests, responses and Express route matching *)

Module Http.

Inductive Method : Type := GET | POST | PUT | DELETE.

Definition Method_eqb (a b : Method) : bool :=
  match a, b with
  | GET, GET | POST, POST | PUT, PUT | DELETE, DELETE => true
  | _, _ => false
  end.

(** The arguments GET / hands to findMany. [None] in [skip] and [take] is
    NaN. *)
Record FindManyArgs : Type := {
  where_userId : Z;
  where_status : option string;
  where_priority : option string;
  where_companyId : option (option Z);
  where_search : option string;
  orderBy : string * string;
  skip : option Z;
  take : option Z
}.

(** The JSON a handler answers with. The [error] member of the 500 answers
    is left out: it is undefined outside development. *)
Inductive Payload : Type :=
| Message (message : string)
| ValidationFailed (errors : list string)
| ApplicationFound (application : Prisma.Included)
| ApplicationSaved (message : string) (application : Prisma.Included)
| Listing (args : FindManyArgs) (page limit : option Z)
| BulkDeleted (deletedCount : Z)
| CompanyHasApplications (count : Z).

Record Response : Type := { status : Z; payload : Payload }.

(** The three shapes of path the routers register. *)
Inductive Pattern : Type :=
| Root
| Param
| Literal (segment : string).

Fixpoint has_slash (s : string) : bool :=
  match s with
  | EmptyString => false
  | String c r => Ascii.eqb c "/" || has_slash r
  end.

(** Drops one trailing slash (routing is not strict). *)
Fixpoint strip_slash (s : string) : string :=
  match s with
  | EmptyString => EmptyString
  | String c r =>
      if Ascii.eqb c "/" && String.eqb r "" then EmptyString
      else String c (strip_slash r)
  end.

(** The single segment of a path "/segment" or "/segment/". *)
Definition segment (path : string) : option string :=
  match path with
  | String c r =>
      if Ascii.eqb c "/"
      then
        let seg := strip_slash r in
        if String.eqb seg "" || has_slash seg then None else Some seg
      else None
  | EmptyString => None
  end.

(** Whether [path] (below the mount point) matches a pattern, and the value
    of its parameter, if it has one (taken as written, without percent
    decoding). Literal segments match without regard to case. *)
Definition matches (p : Pattern) (path : string) : option string :=
  match p with
  | Root => if String.eqb path "" || String.eqb path "/" then Some "" else None
  | Param => segment path
  | Literal l =>
      match segment path with
      | Some seg =>
          if String.eqb (JS.toLowerCase seg) (JS.toLowerCase l)
          then Some "" else None
      | None => None
      end
  end.

(** The first route, in registration order, whose method and pattern match:
    its handler answers and no later route runs. *)
Fixpoint first_match {H : Type} (routes : list (Method * Pattern * H))
    (m : Method) (path : string) : option (H * string) :=
  match routes with
  | [] => None
  | (m', p, h) :: rest =>
      if Method_eqb m m'
      then match matches p path with
           | Some param => Some (h, param)
           | None => first_match rest m path
           end
      else first_match rest m path
  end.

(** A request as a handler sees it: [user] is [req.user.id], set by the
    authentication middleware, and [time] is the clock reading its rows are
    stamped with. *)
Record Request : Type := {
  method : Method;
  path : string;
  query : JS.literal;
  body : JS.object;
  user : Z;
  time : Z
}.

End Http.

(** ** The routes *)

Section Router.
Import Schema Prisma Http.

(** [new Date(s)] as milliseconds since the epoch, [None] for an Invalid
    Date; and the test behind zod's [url()]. *)
Variable Date_parse : string -> option Z.
Variable is_url : string -> bool.

Definition new_Date (v : JS.value) : JS.value :=
  match v with
  | JS.Str s => JS.Date (Date_parse s)
  | _ => JS.Date None
  end.

(** A mapper applied to a validated member. The mappers are typed on
    strings, and the schemas let nothing else reach them. *)
Definition mapped (mapper : string -> JS.value) (v : JS.value) : JS.value :=
  match v with JS.Str s => mapper s | _ => JS.Undefined end.

(** [v !== s] for a string [s]. *)
Definition differs (v : JS.value) (s : string) : bool :=
  match v with JS.Str s' => negb (String.eqb s' s) | _ => true end.

(** [`Status updated to ${v}`] for a string [v]. *)
Definition status_note (v : JS.value) : string :=
  match v with
  | JS.Str s => String.append "Status updated to " s
  | _ => "Status updated to "
  end.

Definition send (code : Z) (p : Payload) : Op Response :=
  ret {| status := code; payload := p |}.

(** applications.ts, lines 57-81. *)
Definition createApplicationSchema : Zod.schema :=
  [ ("companyId", Zod.int_positive);
    ("positionTitle", Zod.string_within 1 200);
    ("applicationDate", Zod.nullable (Zod.optional Zod.string_any));
    ("status",
     Zod.optional
       (Zod.enum [ "applied"; "reviewing"; "interview_scheduled";
                   "interviewed"; "offer"; "rejected"; "withdrawn" ]));
    ("employmentType",
     Zod.optional
       (Zod.enum [ "full-time"; "part-time"; "contract"; "internship" ]));
    ("workType", Zod.optional (Zod.enum [ "remote"; "hybrid"; "on-site" ]));
    ("location", Zod.nullable (Zod.optional (Zod.string_within 0 200)));
    ("salaryMin", Zod.nullable (Zod.optional Zod.int_positive));
    ("salaryMax", Zod.nullable (Zod.optional Zod.int_positive));
    ("source", Zod.nullable (Zod.optional (Zod.string_within 0 200)));
    ("priority", Zod.optional (Zod.enum [ "low"; "medium"; "high" ]));
    ("notes", Zod.nullable (Zod.optional (Zod.string_within 0 2000)));
    ("jobDescription", Zod.nullable (Zod.optional (Zod.string_within 0 5000)));
    ("requirements", Zod.nullable (Zod.optional (Zod.string_within 0 3000)));
    ("salaryRange", Zod.nullable (Zod.optional (Zod.string_within 0 100)));
    ("applicationUrl",
     Zod.nullable (Zod.or (Zod.optional (Zod.url is_url)) (Zod.literal "")));
    ("referralSource", Zod.nullable (Zod.optional (Zod.string_within 0 200))) ].

Definition updateApplicationSchema : Zod.schema :=
  Zod.partial createApplicationSchema.

(** GET /api/applications (lines 84-179). The two awaited queries, findMany
    and count, only read the store. The page and the total are Prisma's
    answer to [args] and stay symbolic; a query Prisma rejects is one of the
    faulting calls. *)
Definition route_get_all (userId : Z) (query : JS.literal) : Op Response :=
  try_catch
    (let page := match JS.own query "page" with Some s => s | None => "1" end in
     let limit := match JS.own query "limit" with Some s => s | None => "10" end in
     let sortBy :=
       match JS.own query "sortBy" with Some s => s | None => "createdAt" end in
     let sortOrder :=
       match JS.own query "sortOrder" with Some s => s | None => "desc" end in
     let pageNum := JS.parseInt page in
     let limitNum := JS.parseInt limit in
     let offset :=
       match pageNum, limitNum with
       | Some p, Some l => Some ((p - 1) * l)
       | _, _ => None
       end in
     let filter_on (k : string) :=
       match JS.own query k with
       | Some s =>
           if negb (String.eqb s "") && negb (String.eqb s "all")
           then Some s else None
       | None => None
       end in
     let args :=
       {| where_userId := userId;
          where_status := filter_on "status";
          where_priority := filter_on "priority";
          where_companyId :=
            match JS.own query "companyId" with
            | Some s => if String.eqb s "" then None else Some (JS.parseInt s)
            | None => None
            end;
          where_search :=
            match JS.own query "search" with
            | Some s => if String.eqb s "" then None else Some s
            | None => None
            end;
          orderBy :=
            if String.eqb sortBy "company" then ("company.name", sortOrder)
            else (sortBy, sortOrder);
          skip := offset;
          take := limitNum |} in
     _ <- call (fun d => Some (tt, d)) ;;
     _ <- call (fun d => Some (tt, d)) ;;
     send 200 (Listing args pageNum limitNum))
    (fun _ => send 500 (Message "Failed to fetch applications")).

(** GET /api/applications/:id (lines 182-225). *)
Definition route_get_one (userId : Z) (id : string) : Op Response :=
  try_catch
    (match JS.parseInt id with
     | None => send 400 (Message "Invalid application ID")
     | Some applicationId =>
         application <-
           call (application_findFirst_included applicationId userId) ;;
         match application with
         | None => send 404 (Message "Application not found")
         | Some found => send 200 (ApplicationFound found)
         end
     end)
    (fun _ => send 500 (Message "Failed to fetch application")).

(** The [data] object POST builds (lines 247-272). *)
Definition applicationData (userId : Z) (validatedData : JS.object)
  : JS.object :=
  let v := JS.prop validatedData in
  [ ("userId", JS.Int userId);
    ("companyId", v "companyId");
    ("positionTitle", v "positionTitle");
    ("status",
     if JS.truthy (v "status")
     then mapped FieldMapper.mapStatus (v "status")
     else JS.Str "applied");
    ("priority",
     if JS.truthy (v "priority")
     then mapped FieldMapper.mapPriority (v "priority")
     else JS.Str "medium");
    ("employmentType",
     if JS.truthy (v "employmentType")
     then mapped FieldMapper.mapEmploymentType (v "employmentType")
     else JS.Str "full_time");
    ("workType",
     if JS.truthy (v "workType")
     then mapped FieldMapper.mapWorkType (v "workType")
     else JS.Str "remote");
    ("location", JS.or (v "location") JS.Null);
    ("salaryMin", JS.or (v "salaryMin") JS.Null);
    ("salaryMax", JS.or (v "salaryMax") JS.Null);
    ("source", JS.or (v "source") JS.Null);
    ("notes", JS.or (v "notes") JS.Null) ]
  ++ JS.when (JS.truthy (v "applicationDate")) "applicationDate"
       (new_Date (v "applicationDate"))
  ++ JS.when (JS.truthy (v "jobDescription")) "jobDescription"
       (v "jobDescription")
  ++ JS.when (JS.truthy (v "requirements")) "requirements" (v "requirements")
  ++ JS.when (JS.truthy (v "salaryRange")) "salaryRange" (v "salaryRange")
  ++ JS.when (JS.truthy (v "applicationUrl")) "applicationUrl"
       (v "applicationUrl")
  ++ JS.when (JS.truthy (v "referralSource")) "referralSource"
       (v "referralSource").

(** POST /api/applications (lines 228-318). *)
Definition route_post (now userId : Z) (body : JS.object) : Op Response :=
  try_catch
    (validatedData <- Zod.parse createApplicationSchema body ;;
     company <-
       call (company_findFirst (JS.prop validatedData "companyId") userId) ;;
     match company with
     | None =>
         send 400 (Message "Company not found or does not belong to user")
     | Some _ =>
         application <-
           call (application_create now (applicationData userId validatedData)) ;;
         _ <- call (statusHistory_create now
                      [ ("applicationId",
                         JS.Int (app_id (the_application application)));
                        ("status",
                         JS.Str (ApplicationStatus_label
                                   (app_status (the_application application))));
                        ("notes", JS.Str "Application created") ]) ;;
         send 201 (ApplicationSaved "Application created successfully"
                     application)
     end)
    (fun error =>
       match error with
       | ZodError errors => send 400 (ValidationFailed errors)
       | _ => send 500 (Message "Failed to create application")
       end).

(** The [data] object PUT builds (lines 360-383). *)
Definition updateData (validatedData : JS.object) : JS.object :=
  let v := JS.prop validatedData in
  JS.when (JS.truthy (v "positionTitle")) "positionTitle" (v "positionTitle")
  ++ JS.when (JS.truthy (v "companyId")) "companyId" (v "companyId")
  ++ JS.when (JS.truthy (v "status")) "status"
       (mapped FieldMapper.mapStatus (v "status"))
  ++ JS.when (JS.truthy (v "priority")) "priority"
       (mapped FieldMapper.mapPriority (v "priority"))
  ++ JS.when (JS.truthy (v "applicationDate")) "applicationDate"
       (new_Date (v "applicationDate"))
  ++ JS.when (JS.defined (v "employmentType")) "employmentType"
       (mapped FieldMapper.mapEmploymentType (v "employmentType"))
  ++ JS.when (JS.defined (v "workType")) "workType"
       (mapped FieldMapper.mapWorkType (v "workType"))
  ++ JS.when (JS.defined (v "location")) "location" (v "location")
  ++ JS.when (JS.defined (v "salaryMin")) "salaryMin" (v "salaryMin")
  ++ JS.when (JS.defined (v "salaryMax")) "salaryMax" (v "salaryMax")
  ++ JS.when (JS.defined (v "source")) "source" (v "source")
  ++ JS.when (JS.defined (v "notes")) "notes" (v "notes")
  ++ JS.when (JS.defined (v "jobDescription")) "jobDescription"
       (v "jobDescription")
  ++ JS.when (JS.defined (v "requirements")) "requirements" (v "requirements")
  ++ JS.when (JS.defined (v "salaryRange")) "salaryRange" (v "salaryRange")
  ++ JS.when (JS.defined (v "applicationUrl")) "applicationUrl"
       (v "applicationUrl")
  ++ JS.when (JS.defined (v "referralSource")) "referralSource"
       (v "referralSource").

(** PUT /api/applications/:id (lines 321-435). *)
Definition route_put_one (now userId : Z) (id : string) (body : JS.object)
  : Op Response :=
  try_catch
    (match JS.parseInt id with
     | None => send 400 (Message "Invalid application ID")
     | Some applicationId =>
         validatedData <- Zod.parse updateApplicationSchema body ;;
         existingApplication <-
           call (application_findFirst applicationId userId) ;;
         match existingApplication with
         | None => send 404 (Message "Application not found")
         | Some existing =>
             company_ok <-
               (if JS.truthy (JS.prop validatedData "companyId")
                then
                  company <-
                    call (company_findFirst
                            (JS.prop validatedData "companyId") userId) ;;
                  ret (match company with Some _ => true | None => false end)
                else ret true) ;;
             if negb company_ok
             then
               send 400
                 (Message "Company not found or does not belong to user")
             else
               application <-
                 call (application_update now applicationId
                         (updateData validatedData)) ;;
               _ <-
                 (if JS.truthy (JS.prop validatedData "status")
                     && differs (JS.prop validatedData "status")
                          (ApplicationStatus_label (app_status existing))
                  then
                    _ <- call (statusHistory_create now
                                 [ ("applicationId",
                                    JS.Int (app_id (the_application application)));
                                   ("status",
                                    JS.Str (ApplicationStatus_label
                                              (app_status
                                                 (the_application application))));
                                   ("notes",
                                    JS.Str (status_note
                                              (JS.prop validatedData "status"))) ]) ;;
                    ret tt
                  else ret tt) ;;
               send 200 (ApplicationSaved "Application updated successfully"
                           application)
         end
     end)
    (fun error =>
       match error with
       | ZodError errors => send 400 (ValidationFailed errors)
       | _ => send 500 (Message "Failed to update application")
       end).

(** DELETE /api/applications/:id (lines 438-474). *)
Definition route_delete_one (userId : Z) (id : string) : Op Response :=
  try_catch
    (match JS.parseInt id with
     | None => send 400 (Message "Invalid application ID")
     | Some applicationId =>
         application <- call (application_findFirst applicationId userId) ;;
         match application with
         | None => send 404 (Message "Application not found")
         | Some _ =>
             _ <- call (application_delete applicationId) ;;
             send 200 (Message "Application deleted successfully")
         end
     end)
    (fun _ => send 500 (Message "Failed to delete application")).

(** DELETE /api/applications/bulk (lines 477-519). *)
Definition route_delete_bulk (userId : Z) (body : JS.object) : Op Response :=
  try_catch
    (match JS.prop body "ids" with
     | JS.Arr (first :: more) =>
         let ids := first :: more in
         applications <- call (application_findMany_in ids userId) ;;
         if negb (Nat.eqb (List.length applications) (List.length ids))
         then
           send 400
             (Message "Some applications not found or do not belong to user")
         else
           count <- call (application_deleteMany_in ids userId) ;;
           send 200 (BulkDeleted count)
     | _ => send 400 (Message "Invalid or empty IDs array")
     end)
    (fun _ => send 500 (Message "Failed to delete applications")).

(** The router of applications.ts, in registration order. The router is
    mounted behind [authenticateToken]: a request reaches it with
    [req.user] set. *)
Inductive Handler : Type :=
  get_all | get_one | post | put_one | delete_one | delete_bulk.

Definition routes : list (Method * Pattern * Handler) :=
  [ (GET, Root, get_all);
    (GET, Param, get_one);
    (POST, Root, post);
    (PUT, Param, put_one);
    (DELETE, Param, delete_one);
    (DELETE, Literal "bulk", delete_bulk) ].

Definition run (h : Handler) (param : string) (r : Request) : Op Response :=
  match h with
  | get_all => route_get_all (user r) (query r)
  | get_one => route_get_one (user r) param
  | post => route_post (time r) (user r) (body r)
  | put_one => route_put_one (time r) (user r) param (body r)
  | delete_one => route_delete_one (user r) param
  | delete_bulk => route_delete_bulk (user r) (body r)
  end.

(** A request under /api/applications; what no route takes falls through to
    the 404 handler of the server. *)
Definition router (r : Request) : Op Response :=
  match first_match routes (method r) (path r) with
  | Some (h, param) => run h param r
  | None => send 404 (Message "Route not found")
  end.

(** DELETE /api/companies/:id (companies.ts, lines 264-312). *)
Definition company_route_delete (userId : Z) (id : string) : Op Response :=
  try_catch
    (match JS.parseInt id with
     | None => send 400 (Message "Invalid company ID")
     | Some companyId =>
         company <- call (company_findFirst_count companyId userId) ;;
         match company with
         | None => send 404 (Message "Company not found")
         | Some (_, count) =>
             if 0 <? count
             then send 400 (CompanyHasApplications count)
             else
               _ <- call (company_delete companyId) ;;
               send 200 (Message "Company deleted successfully")
         end
     end)
    (fun _ => send 500 (Message "Failed to delete company")).

(** One operation of the system on the store. The remaining routers
    (interviews, documents, auth, dashboard, and the company routes other
    than the delete) issue no statement on the Application and
    StatusHistory tables. *)
Inductive step : World -> World -> Prop :=
| step_applications (r : Request) (w : World) :
    step w (snd (router r w))
| step_company_delete (userId : Z) (id : string) (w : World) :
    step w (snd (company_route_delete userId id w))
| step_elsewhere (w w' : World) :
    applications (db w') = applications (db w) ->
    statusHistory (db w') = statusHistory (db w) ->
    application_seq (db w') = application_seq (db w) ->
    step w w'.

End Router.

(** ** Vocabulary of the statements below *)

Section Vocabulary.
Import Schema Prisma Http.

(** The [data] both routes hand to prisma.statusHistory.create for the
    application a call returned: its key, its stored status, and a note. *)
Definition history_data (application : Included) (note : string) : JS.object :=
  [ ("applicationId", JS.Int (app_id (the_application application)));
    ("status",
     JS.Str (ApplicationStatus_label (app_status (the_application application))));
    ("notes", JS.Str note) ].

(** What schema.parse answers for a body without issues. *)
Definition validated (sch : Zod.schema) (body : JS.object) : JS.object :=
  map (fun kp => (fst kp, JS.prop body (fst kp))) sch.

(** The test PUT makes before it appends a history entry (line 406). *)
Definition status_changed (validatedData : JS.object) (existing : Application)
  : bool :=
  JS.truthy (JS.prop validatedData "status")
  && differs (JS.prop validatedData "status")
       (ApplicationStatus_label (app_status existing)).

(** The company a body names, if it names one, is found for the user. *)
Definition company_known (validatedData : JS.object) (userId : Z) (d : DB)
  : Prop :=
  JS.truthy (JS.prop validatedData "companyId") = true ->
  exists c,
    company_findFirst (JS.prop validatedData "companyId") userId d
    = Some (Some c, d).

(** The number of awaited calls PUT makes before the history append. *)
Definition calls_before_append (validatedData : JS.object) : nat :=
  if JS.truthy (JS.prop validatedData "companyId") then 3%nat else 2%nat.

(** Keys are drawn from the sequence, and every history row refers to an
    application (the foreign key of StatusHistory). *)
Definition well_formed (d : DB) : Prop :=
  (forall a, In a (applications d) -> app_id a < application_seq d) /\
  (forall h, In h (statusHistory d) ->
             has_application d (sh_applicationId h) = true).



(** From [d] to [d'] the history table keeps its rows, as they are and in
    their order, but for rows whose application is gone from [d']; other
    rows may follow them. *)
Definition history_kept (d d' : DB) : Prop :=
  exists keep new,
    statusHistory d' = filter keep (statusHistory d) ++ new /\
    forall h, In h (statusHistory d) -> keep h = false ->
              has_application d' (sh_applicationId h) = false.

(** Newest first. *)
Definition newer_first (a b : StatusHistory) : Prop :=
  sh_createdAt b <= sh_createdAt a.

(** The answer of the three routes when the lookup finds nothing. *)
Definition not_found : Response :=
  {| status := 404; payload := Message "Application not found" |}.

End Vocabulary.

(** ** A small store to run the routes on *)

Module Sample.
Import Schema Prisma Http.

(** No date string parses, and every string passes for a URL. *)
Definition no_date (s : string) : option Z := None.
Definition any_url (s : string) : bool := true.

(** User 7 owns the company Acme and one application to it; user 8 owns
    nothing. *)
Definition acme : Company :=
  {| co_id := 1; co_name := "Acme"; co_website := None; co_industry := None;
     co_location := None; co_userId := 7 |}.

Definition engineer (s : ApplicationStatus) : Application :=
  {| app_id := 1;
     app_positionTitle := "Engineer";
     app_applicationDate := 100;
     app_status := s;
     app_jobDescription := None;
     app_requirements := None;
     app_location := None;
     app_salaryRange := None;
     app_applicationUrl := None;
     app_referralSource := None;
     app_priority := medium;
     app_notes := None;
     app_employmentType := Some full_time;
     app_workType := Some remote;
     app_salaryMin := None;
     app_salaryMax := None;
     app_source := None;
     app_createdAt := 100;
     app_updatedAt := 100;
     app_userId := 7;
     app_companyId := 1 |}.

Definition created (s : ApplicationStatus) : StatusHistory :=
  {| sh_id := 1; sh_status := s; sh_notes := Some "Application created";
     sh_createdAt := 100; sh_applicationId := 1 |}.

(** Before anything is created. *)
Definition fresh : DB :=
  {| companies := [acme]; applications := []; statusHistory := [];
     interviews := []; tasks := []; documents := [];
     application_seq := 1; statusHistory_seq := 1 |}.

(** With the application, created in status [s], and one row in each of
    the dependent tables. *)
Definition tracked (s : ApplicationStatus) : DB :=
  {| companies := [acme];
     applications := [engineer s];
     statusHistory := [created s];
     interviews :=
       [ {| iv_id := 1; iv_scheduledDate := Some 150; iv_applicationId := 1 |} ];
     tasks :=
       [ {| task_id := 1; task_createdAt := 120; task_applicationId := Some 1;
            task_userId := 7 |} ];
     documents :=
       [ {| doc_id := 1; doc_uploadedAt := 130; doc_applicationId := Some 1;
            doc_userId := 7 |} ];
     application_seq := 2;
     statusHistory_seq := 2 |}.

Definition world (d : DB) : World := {| db := d; faults := [] |}.


Definition request (m : Method) (p : string) (b : JS.object) (u t : Z)
  : Request :=
  {| method := m; path := p; query := []; body := b; user := u; time := t |}.

(** Three bodies: a minimal creation, a status change, a change of title. *)
Definition new_application : JS.object :=
  [ ("companyId", JS.Int 1); ("positionTitle", JS.Str "Engineer") ].
Definition to_offer : JS.object := [ ("status", JS.Str "offer") ].
Definition retitle : JS.object := [ ("positionTitle", JS.Str "Staff engineer") ].

(** The response of a run. *)
Definition answer (out : (Response + Exn) * World) : Response :=
  match fst out with
  | inl resp => resp
  | inr _ => {| status := 500; payload := Message "uncaught" |}
  end.

End Sample.

(** ** Vocabulary of the further properties *)

Section FurtherVocabulary.
Import Schema Prisma Http.

(** The primary key of Application: no two rows share an id. *)
Definition primary_key (d : DB) : Prop :=
  NoDup (map app_id (applications d)).

(** The members PUT leaves alone: when the body has no member [k], the
    column [col] of the updated row is the one of the stored row. *)
Definition kept_unless_sent {A : Type} (body : JS.object) (k : string)
    (col : Application -> A) (old row : Application) : Prop :=
  JS.prop body k = JS.Undefined -> col row = col old.

(** The answer of POST and PUT when the company is not the caller's. *)
Definition company_refused : Response :=
  {| status := 400;
     payload := Message "Company not found or does not belong to user" |}.

(** No company with key [cid] belongs to [userId]. *)
Definition company_not_owned (d : DB) (cid userId : Z) : Prop :=
  forall c, In c (companies d) -> co_id c = cid -> co_userId c <> userId.

(** The history rows of the application [n], oldest first, and the one
    appended last. *)
Definition entries (d : DB) (n : Z) : list StatusHistory :=
  filter (fun h => sh_applicationId h =? n) (statusHistory d).

Definition newest_entry (d : DB) (n : Z) : option StatusHistory :=
  last (map Some (entries d n)) None.

(** Every application has history, and its newest entry carries the status
    the application has now. *)
Definition trail_consistent (d : DB) : Prop :=
  forall a, In a (applications d) ->
  exists h, newest_entry d (app_id a) = Some h /\ sh_status h = app_status a.

(** The worlds the system reaches from one without applications and
    history, by its operations. *)
Inductive reachable (Date_parse : string -> option Z) (is_url : string -> bool)
  : World -> Prop :=
| reach_start (w : World) :
    applications (db w) = [] -> statusHistory (db w) = [] ->
    reachable Date_parse is_url w
| reach_step (w w' : World) :
    reachable Date_parse is_url w -> step Date_parse is_url w w' ->
    reachable Date_parse is_url w'.

(** The columns POST fills in: when the body has no member [k], the column
    [col] of the created row holds [dflt]. *)
Definition default_unless_sent {A : Type} (body : JS.object) (k : string)
    (col : Application -> A) (dflt : A) (row : Application) : Prop :=
  JS.prop body k = JS.Undefined -> col row = dflt.

(** The nullable text columns of an application. *)
Definition text_columns : list (Application -> option string) :=
  [ app_jobDescription; app_requirements; app_location; app_salaryRange;
    app_applicationUrl; app_referralSource; app_notes; app_source ].

(** [column || dflt] for a nullable column. *)
Definition or_else {A : Type} (column : option A) (dflt : A) : A :=
  match column with Some x => x | None => dflt end.

End FurtherVocabulary.

(** ** The forms of the frontend *)

(** Truthiness of a string. *)
Definition filled (s : string) : bool := negb (String.eqb s "").

(** [Number.prototype.toString] on an integer, also behind [`${n}`]: the
    decimal digits, after a minus sign below zero. (JavaScript prints
    integers this way up to 10^21; INTEGER columns stay far below.) *)
Definition toString (n : Z) : string :=
  DecimalString.NilZero.string_of_int (Z.to_int n).

(** The add form (src/frontend/src/pages/applications/AddApplicationPage.tsx). *)
Module AddPage.

(** The form state (lines 21-40). *)
Record FormData : Type := {
  positionTitle : string;
  companyId : string;
  companyName : string;
  companyWebsite : string;
  companyIndustry : string;
  companyLocation : string;
  companyDescription : string;
  companyNotes : string;
  applicationDate : string;
  status : string;
  priority : string;
  jobDescription : string;
  requirements : string;
  location : string;
  salaryRange : string;
  applicationUrl : string;
  referralSource : string;
  notes : string
}.

Section Submit.

(** [String.prototype.trim]. *)
Variable trim : string -> string.

(** [if (formData.k) applicationData.k = formData.k]. *)
Definition member (k s : string) : JS.object := JS.when (filled s) k (JS.Str s).

(** The body handleSubmit posts to /applications (lines 145-178); [company]
    is what createCompanyIfNeeded resolved to. *)
Definition applicationData (company : JS.value) (f : FormData) : JS.object :=
  [ ("companyId", company);
    ("positionTitle", JS.Str (trim (positionTitle f)));
    ("status", JS.Str (status f));
    ("priority", JS.Str (priority f)) ]
  ++ member "applicationDate" (applicationDate f)
  ++ member "jobDescription" (jobDescription f)
  ++ member "requirements" (requirements f)
  ++ member "location" (location f)
  ++ member "salaryRange" (salaryRange f)
  ++ member "applicationUrl" (applicationUrl f)
  ++ member "referralSource" (referralSource f)
  ++ member "notes" (notes f).

(** handleSubmit (lines 127-178) up to its request: the body it posts, or
    the message of the error it throws before. *)
Definition handleSubmit (company : JS.value) (f : FormData)
  : string + JS.object :=
  if negb (filled (trim (positionTitle f)))
  then inl "Position title is required"
  else if negb (JS.truthy company)
  then inl "Failed to create or find company"
  else inr (applicationData company f).

End Submit.

End AddPage.

(** The edit form (src/frontend/src/pages/applications/EditApplicationPage.tsx),
    beside its reverse mappers above. *)
Module EditForm.
Import Schema Prisma.

(** The form state (lines 31-45); the four selects hold what the reverse
    mappers returned. *)
Record ApplicationFormData : Type := {
  positionTitle : string;
  employmentType : JS.value;
  location : string;
  workType : JS.value;
  salaryMin : string;
  salaryMax : string;
  status : JS.value;
  priority : JS.value;
  applicationDate : string;
  source : string;
  notes : string;
  companyId : string;
  companyName : string
}.

Section Form.

(** [new Date(t).toISOString().split('T')[0]] and [String.prototype.trim]. *)
Variable iso_day : Z -> string.
Variable trim : string -> string.

(** fetchData (lines 117-147): the form as populated from the application
    that GET /applications/:id returned, read here from the row and its
    company rather than from their JSON text. The label of a status or a
    priority is never empty, so [application.status || 'applied'] and
    [application.priority || 'medium'] are the labels. *)
Definition populated (application : Included) : ApplicationFormData :=
  let a := the_application application in
  {| positionTitle := app_positionTitle a;
     employmentType :=
       EditPage.reverseMapEmploymentType
         (or_else (option_map EmploymentType_label (app_employmentType a))
            "full_time");
     location := or_else (app_location a) "";
     workType :=
       EditPage.reverseMapWorkType
         (or_else (option_map WorkType_label (app_workType a)) "remote");
     salaryMin := or_else (option_map toString (app_salaryMin a)) "";
     salaryMax := or_else (option_map toString (app_salaryMax a)) "";
     status :=
       EditPage.reverseMapStatus (ApplicationStatus_label (app_status a));
     priority := EditPage.reverseMapPriority (Priority_label (app_priority a));
     applicationDate := iso_day (app_applicationDate a);
     source := or_else (app_source a) "";
     notes := or_else (app_notes a) "";
     companyId := toString (app_companyId a);
     companyName :=
       or_else (option_map co_name (with_company application)) "" |}.

(** [parseInt(s)] as it reaches the body: NaN is written as null. *)
Definition number (s : string) : JS.value :=
  match JS.parseInt s with Some n => JS.Int n | None => JS.Null end.

(** [s || null] and [s?.trim() || null]. *)
Definition or_null (s : string) : JS.value :=
  if filled s then JS.Str s else JS.Null.

(** The body handleSubmit sends to PUT /applications/:id (lines 203-216). *)
Definition updateData (f : ApplicationFormData) : JS.object :=
  [ ("positionTitle", JS.Str (trim (positionTitle f)));
    ("employmentType", employmentType f);
    ("location", or_null (trim (location f)));
    ("workType", workType f);
    ("salaryMin", if filled (salaryMin f) then number (salaryMin f) else JS.Null);
    ("salaryMax", if filled (salaryMax f) then number (salaryMax f) else JS.Null);
    ("status", status f);
    ("priority", priority f);
    ("applicationDate", or_null (applicationDate f));
    ("source", or_null (trim (source f)));
    ("notes", or_null (trim (notes f)));
    ("companyId", number (companyId f)) ].

(** handleSubmit (lines 181-220) up to its request: the body it sends, or
    the message it shows instead. *)
Definition handleSubmit (f : ApplicationFormData) : string + JS.object :=
  if negb (filled (positionTitle f)) || negb (filled (trim (positionTitle f)))
  then inl "Position title is required"
  else if negb (filled (companyId f))
  then inl "Company selection is required"
  else inr (updateData f).

End Form.

End EditForm.

(** The detail page
    (src/frontend/src/pages/applications/ApplicationDetailPage.tsx). *)
Module DetailPage.
Import Schema Prisma.

Section Page.

(** [Date.prototype.toISOString], the text JSON carries for a DateTime. *)
Variable toISOString : Z -> string.

Definition nullable_json {A : Type} (json : A -> JS.value)
    (column : option A) : JS.value :=
  match column with Some x => json x | None => JS.Null end.

(** An included list of rows; the rows themselves are not looked into. *)
Definition relation {A : Type} (name : string) (rows : option (list A))
  : JS.object :=
  match rows with
  | Some l => [(name, JS.Arr (map (fun _ => JS.Obj name) l))]
  | None => []
  end.

(** The application the page holds: the [application] member of the answer
    of GET /applications/:id, that is the columns of the row under their
    names, enum columns by their labels, and the included relations. *)
Definition application_json (found : Included) : JS.object :=
  let a := the_application found in
  [ ("id", JS.Int (app_id a));
    ("positionTitle", JS.Str (app_positionTitle a));
    ("applicationDate", JS.Str (toISOString (app_applicationDate a)));
    ("status", JS.Str (ApplicationStatus_label (app_status a)));
    ("jobDescription", nullable_json JS.Str (app_jobDescription a));
    ("requirements", nullable_json JS.Str (app_requirements a));
    ("location", nullable_json JS.Str (app_location a));
    ("salaryRange", nullable_json JS.Str (app_salaryRange a));
    ("applicationUrl", nullable_json JS.Str (app_applicationUrl a));
    ("referralSource", nullable_json JS.Str (app_referralSource a));
    ("priority", JS.Str (Priority_label (app_priority a)));
    ("notes", nullable_json JS.Str (app_notes a));
    ("employmentType",
     nullable_json (fun e => JS.Str (EmploymentType_label e))
       (app_employmentType a));
    ("workType",
     nullable_json (fun t => JS.Str (WorkType_label t)) (app_workType a));
    ("salaryMin", nullable_json JS.Int (app_salaryMin a));
    ("salaryMax", nullable_json JS.Int (app_salaryMax a));
    ("source", nullable_json JS.Str (app_source a));
    ("createdAt", JS.Str (toISOString (app_createdAt a)));
    ("updatedAt", JS.Str (toISOString (app_updatedAt a)));
    ("userId", JS.Int (app_userId a));
    ("companyId", JS.Int (app_companyId a)) ]
  ++ match with_company found with
     | Some _ => [("company", JS.Obj "company")]
     | None => []
     end
  ++ relation "statusHistory" (with_statusHistory found)
  ++ relation "interviews" (with_interviews found)
  ++ relation "tasks" (with_tasks found)
  ++ relation "documents" (with_documents found).

(** handleStatusUpdate (lines 82-104) up to its request: the body it sends
    to PUT /applications/:id, or nothing when it returns first or
    [application.company.id] throws. The two members written after the
    spread come first here, since [JS.prop] answers the first binding of a
    name. *)
Definition handleStatusUpdate (application : option Included)
    (newStatus : string) : option JS.object :=
  match application with
  | None => None
  | Some found =>
      if String.eqb newStatus
           (ApplicationStatus_label (app_status (the_application found)))
      then None
      else
        match with_company found with
        | None => None
        | Some company =>
            Some ([ ("status", JS.Str newStatus);
                    ("companyId", JS.Int (co_id company)) ]
                  ++ application_json found)
        end
  end.

End Page.

End DetailPage.

(** The list page
    (src/frontend/src/pages/applications/ApplicationsPage.tsx). *)
Module ListPage.

(** handleStatusUpdate (lines 175-183), the quick status change of a row:
    the [:id] segment and the body of its PUT /applications/:id. *)
Definition handleStatusUpdate (id : Z) (newStatus : string)
  : string * JS.object :=
  (toString id, [("status", JS.Str newStatus)]).

(** The values the status select of a row offers (lines 400-406). *)
Definition status_options : list string :=
  [ "applied"; "reviewing"; "interview_scheduled"; "interviewed"; "offer";
    "rejected"; "withdrawn" ].

End ListPage.

(** ** Sample forms *)

Module FormSample.
Import Schema Prisma Sample.

(** Every date string parses to the epoch, whose day every time shows; and
    a trim for texts that have nothing to trim. *)
Definition epoch (s : string) : option Z := Some 0.
Definition first_day (t : Z) : string := "1970-01-01".
Definition as_typed (s : string) : string := s.

(** What GET /applications/1 answers user 7 in the store [tracked s]. *)
Definition opened (s : ApplicationStatus) : Included :=
  {| the_application := engineer s;
     with_company := Some acme;
     with_statusHistory := Some (statusHistory (tracked s));
     with_interviews := Some (interviews (tracked s));
     with_tasks := Some (tasks (tracked s));
     with_documents := Some (documents (tracked s)) |}.

(** The add form filled in for a high-priority position in Berlin. *)
Definition add_form : AddPage.FormData :=
  {| AddPage.positionTitle := "Engineer";
     AddPage.companyId := "1";
     AddPage.companyName := "Acme";
     AddPage.companyWebsite := "";
     AddPage.companyIndustry := "";
     AddPage.companyLocation := "";
     AddPage.companyDescription := "";
     AddPage.companyNotes := "";
     AddPage.applicationDate := "";
     AddPage.status := "applied";
     AddPage.priority := "high";
     AddPage.jobDescription := "";
     AddPage.requirements := "";
     AddPage.location := "Berlin";
     AddPage.salaryRange := "";
     AddPage.applicationUrl := "";
     AddPage.referralSource := "";
     AddPage.notes := "" |}.

End FormSample.

(** * Properties *)

(** ** The field mappers *)

Section FieldMapperFacts.

Lemma or_truthy (a b : JS.value) : JS.truthy a = true -> JS.or a b = a.
Proof. unfold JS.or. intros ->. reflexivity. Qed.

(** Outside the table and outside [Object.prototype], a forward mapper
    answers its default. *)
Lemma toStorage_default (f : Field) (s : string) :
  JS.own (forward_table f) s = None ->
  JS.inherited s = false ->
  toStorage f s = JS.Str (storage_default f).
Proof.
  intros Hown Hinh.
  destruct f; cbn [toStorage forward_table storage_default] in *;
    unfold FieldMapper.mapEmploymentType, FieldMapper.mapWorkType,
      FieldMapper.mapPriority, FieldMapper.mapStatus, JS.get;
    rewrite Hown, Hinh; reflexivity.
Qed.

(** The storage values of a field are exactly what its forward table maps
    to. *)
Lemma storage_values_forward (f : Field) :
  storage_values f = map snd (forward_table f).
Proof. destruct f; reflexivity. Qed.

(** 'urgent', a member of the Priority type, is in neither priority table:
    both mappers send it to 'medium'. *)
Remark urgent_outside_priority_tables :
  ~ In "urgent" (storage_values FPriority) /\
  toPresentation FPriority "urgent" = JS.Str "medium" /\
  toStorage FPriority "urgent" = JS.Str "medium".
Proof.
  split; [| split; reflexivity].
  cbn. intros [H | [H | [H | []]]]; discriminate.
Qed.

(** C4. Round trip of the field mapper: for each of employmentType,
    workType, priority and status, and every storage value [x] of the
    field's mapping table, the reverse mapper sends [x] to a presentation
    string that the forward mapper sends back to [x]. *)
Theorem round_trip (f : Field) (x : string) :
  In x (storage_values f) ->
  exists p, toPresentation f x = JS.Str p /\ toStorage f p = JS.Str x.
Proof.
  intros Hx.
  destruct f; cbn in Hx;
    repeat (destruct Hx as [<- | Hx]; [eexists; split; reflexivity |]);
    contradiction.
Qed.


End FieldMapperFacts.

(** ** Route matching *)

Section Routing.
Import Http.

Variable Date_parse : string -> option Z.
Variable is_url : string -> bool.

(** No path selects the handler registered on '/bulk': what matches the
    literal has a single segment, and '/:id' takes it first. *)
Lemma delete_bulk_never_selected (m : Method) (p : string) (h : Handler)
    (param : string) :
  first_match routes m p = Some (h, param) -> h <> delete_bulk.
Proof.
  destruct m; cbn [first_match routes Method_eqb matches].
  - destruct (String.eqb p "" || String.eqb p "/")%bool.
    + intros [= <- _]. discriminate.
    + destruct (segment p); [intros [= <- _] |]; discriminate.
  - destruct (String.eqb p "" || String.eqb p "/")%bool;
      [intros [= <- _] |]; discriminate.
  - destruct (segment p); [intros [= <- _] |]; discriminate.
  - destruct (segment p); [intros [= <- _]; discriminate |].
    discriminate.
Qed.

(** C10. Every request DELETE /api/applications/bulk is taken by the route
    DELETE '/:id', registered first, with id = "bulk"; parseInt of it is
    NaN, so the answer is 400 'Invalid application ID' and the world (the
    store, every Application row included) is left as it was. The handler
    registered on '/bulk' is selected by no request at all. *)
Theorem bulk_delete_unreachable (q : JS.literal) (b : JS.object) (u t : Z)
    (w : Prisma.World) :
  first_match routes DELETE "/bulk" = Some (delete_one, "bulk") /\
  JS.parseInt "bulk" = None /\
  router Date_parse is_url
    {| method := DELETE; path := "/bulk"; query := q; body := b;
       user := u; time := t |} w
  = (inl {| status := 400; payload := Message "Invalid application ID" |}, w) /\
  (forall m p h param,
      first_match routes m p = Some (h, param) -> h <> delete_bulk).
Proof.
  repeat split.
  intros m p h param. apply delete_bulk_never_selected.
Qed.

End Routing.

(** ** Running the handlers *)

Section Handlers.
Import Schema Prisma Http.

Variable Date_parse : string -> option Z.
Variable is_url : string -> bool.

(** An awaited call, by cases on the fault plan and on the statement. *)
Lemma call_eq {A : Type} (q : DB -> option (A * DB)) (w : World) :
  call q w =
  if hd false (faults w)
  then (inr ClientError, {| db := db w; faults := tl (faults w) |})
  else match q (db w) with
       | Some (a, d) => (inl a, {| db := d; faults := tl (faults w) |})
       | None => (inr ClientError, {| db := db w; faults := tl (faults w) |})
       end.
Proof. unfold call. destruct (faults w) as [| [] rest]; reflexivity. Qed.

Lemma refers_false (fk : option Z) (n : Z) :
  refers fk n = false -> fk <> Some n.
Proof.
  destruct fk as [k |]; cbn; [| discriminate].
  intros H [= ->]. rewrite Z.eqb_refl in H. discriminate.
Qed.

(** What the cascade leaves behind. *)
Lemma delete_application_clean (n : Z) (d : DB) :
  (forall a, In a (applications (delete_application n d)) -> app_id a <> n) /\
  (forall h, In h (statusHistory (delete_application n d)) ->
             sh_applicationId h <> n) /\
  (forall i, In i (interviews (delete_application n d)) ->
             iv_applicationId i <> n) /\
  (forall t, In t (tasks (delete_application n d)) ->
             task_applicationId t <> Some n) /\
  (forall x, In x (documents (delete_application n d)) ->
             doc_applicationId x <> Some n).
Proof.
  cbn [delete_application applications statusHistory interviews tasks documents].
  repeat split; intros r Hr; apply filter_In in Hr as [_ Hr];
    apply negb_true_iff in Hr;
    first [ apply Z.eqb_neq, Hr | apply refers_false, Hr ].
Qed.

(** The outcomes of DELETE /:id. *)
Lemma route_delete_one_cases (u : Z) (id : string) (w w' : World)
    (resp : Response) :
  route_delete_one u id w = (inl resp, w') ->
  (status resp <> 200 /\ db w' = db w) \/
  (exists n a,
      JS.parseInt id = Some n /\
      find (owned_by n u) (applications (db w)) = Some a /\
      resp = {| status := 200;
                payload := Message "Application deleted successfully" |} /\
      db w' = delete_application n (db w)).
Proof.
  unfold route_delete_one, try_catch, bind, send, ret.
  destruct (JS.parseInt id) as [n |].
  2:{ intros [= <- <-]. left. split; [discriminate | reflexivity]. }
  rewrite call_eq.
  destruct (hd false (faults w)).
  { intros [= <- <-]. left. split; [discriminate | reflexivity]. }
  unfold application_findFirst.
  destruct (find (owned_by n u) (applications (db w))) as [a |] eqn:Hfind.
  2:{ intros [= <- <-]. left. split; [discriminate | reflexivity]. }
  rewrite call_eq. cbn [db faults].
  destruct (hd false (tl (faults w))).
  { intros [= <- <-]. left. split; [discriminate | reflexivity]. }
  unfold application_delete.
  destruct (has_application (db w) n).
  - intros [= <- <-]. right. exists n, a. repeat split. exact Hfind.
  - intros [= <- <-]. left. split; [discriminate | reflexivity].
Qed.

(** C8. After a successful DELETE of the Application with key [n], no row of
    StatusHistory, Interview, Task or Document (nor of Application) refers
    to [n]: the store is the old one with the row and its dependents
    removed by the cascade. *)
Theorem delete_leaves_no_orphans (u : Z) (id : string) (n : Z) (w w' : World)
    (resp : Response) :
  JS.parseInt id = Some n ->
  route_delete_one u id w = (inl resp, w') ->
  status resp = 200 ->
  db w' = delete_application n (db w) /\
  (forall a, In a (applications (db w')) -> app_id a <> n) /\
  (forall h, In h (statusHistory (db w')) -> sh_applicationId h <> n) /\
  (forall i, In i (interviews (db w')) -> iv_applicationId i <> n) /\
  (forall t, In t (tasks (db w')) -> task_applicationId t <> Some n) /\
  (forall x, In x (documents (db w')) -> doc_applicationId x <> Some n).
Proof.
  intros Hid Hrun H200.
  apply route_delete_one_cases in Hrun as [[Hne _] | (n' & a & Hid' & _ & _ & Hdb)].
  - contradiction.
  - rewrite Hid in Hid'. injection Hid' as <-.
    rewrite Hdb. split; [reflexivity | apply delete_application_clean].
Qed.

(** *** PUT /:id *)

Lemma application_update_tables (now n : Z) (data : JS.object) (d d1 : DB)
    (inc : Included) :
  application_update now n data d = Some (inc, d1) ->
  statusHistory d1 = statusHistory d /\
  interviews d1 = interviews d /\
  List.length (applications d1) = List.length (applications d) /\
  exists old,
    find (fun a => app_id a =? n) (applications d) = Some old /\
    application_row now old data = Some (the_application inc) /\
    applications d1 =
      map (fun a => if app_id a =? n then the_application inc else a)
        (applications d).
Proof.
  unfold application_update.
  destruct (find (fun a => app_id a =? n) (applications d)) as [old |] eqn:Hold;
    [| discriminate].
  destruct (application_row now old data) as [row |] eqn:Hrow; [| discriminate].
  destruct ((app_companyId row =? app_companyId old)
            || has_company d (app_companyId row))%bool; [| discriminate].
  intros [= <- <-]. cbn.
  split; [reflexivity |]. split; [reflexivity |].
  split; [apply length_map |].
  exists old. repeat split. exact Hrow.
Qed.

Lemma statusHistory_create_tables (now : Z) (data : JS.object) (d d2 : DB)
    (row : StatusHistory) :
  statusHistory_create now data d = Some (row, d2) ->
  statusHistory d2 = statusHistory d ++ [row] /\
  applications d2 = applications d /\
  sh_createdAt row = now /\
  sh_id row = statusHistory_seq d /\
  required int None (JS.prop data "applicationId")
  = Some (sh_applicationId row) /\
  required (enum ApplicationStatus_of_label) None (JS.prop data "status")
  = Some (sh_status row) /\
  nullable text None (JS.prop data "notes") = Some (sh_notes row).
Proof.
  unfold statusHistory_create.
  destruct (required int None (JS.prop data "applicationId")) as [k |];
    [| discriminate].
  destruct (required (enum ApplicationStatus_of_label) None
              (JS.prop data "status")) as [st |]; [| discriminate].
  destruct (nullable text None (JS.prop data "notes")) as [notes |];
    [| discriminate].
  destruct (has_application d k); [| discriminate].
  intros [= <- <-]. cbn. repeat split.
Qed.

(** The outcomes of PUT /:id: either nothing is written and the answer is
    not 200, or the application row is written and then, when the status
    changed, the history append succeeds (200) or fails (500). *)
Lemma route_put_one_cases (now u : Z) (id : string) (body : JS.object)
    (w w' : World) (resp : Response) :
  route_put_one Date_parse is_url now u id body w = (inl resp, w') ->
  (status resp <> 200 /\ db w' = db w) \/
  (exists n existing inc d1,
      let vd := validated (updateApplicationSchema is_url) body in
      JS.parseInt id = Some n /\
      Zod.issues (updateApplicationSchema is_url) body = [] /\
      find (owned_by n u) (applications (db w)) = Some existing /\
      company_known vd u (db w) /\
      application_update now n (updateData Date_parse vd) (db w)
      = Some (inc, d1) /\
      ((status_changed vd existing = false /\
        resp = {| status := 200;
                  payload := ApplicationSaved
                               "Application updated successfully" inc |} /\
        db w' = d1) \/
       (status_changed vd existing = true /\
        exists row,
          statusHistory_create now
            (history_data inc (status_note (JS.prop vd "status"))) d1
          = Some (row, db w') /\
          resp = {| status := 200;
                    payload := ApplicationSaved
                                 "Application updated successfully" inc |}) \/
       (status_changed vd existing = true /\
        resp = {| status := 500;
                  payload := Message "Failed to update application" |} /\
        db w' = d1))).
Proof.
  unfold route_put_one, try_catch, bind, send, ret.
  destruct (JS.parseInt id) as [n |].
  2:{ intros [= <- <-]. left. split; [discriminate | reflexivity]. }
  unfold Zod.parse.
  destruct (Zod.issues (updateApplicationSchema is_url) body) eqn:Hissues.
  2:{ unfold throw. intros [= <- <-]. left. split; [discriminate | reflexivity]. }
  unfold ret. fold (validated (updateApplicationSchema is_url) body).
  set (vd := validated (updateApplicationSchema is_url) body).
  rewrite call_eq.
  destruct (hd false (faults w)).
  { intros [= <- <-]. left. split; [discriminate | reflexivity]. }
  unfold application_findFirst.
  destruct (find (owned_by n u) (applications (db w))) as [existing |] eqn:Hfind.
  2:{ intros [= <- <-]. left. split; [discriminate | reflexivity]. }
  set (w1 := {| db := db w; faults := tl (faults w) |}).
  assert (Hw1 : db w1 = db w) by reflexivity.
  destruct (JS.truthy (JS.prop vd "companyId")) eqn:Hc.
  - rewrite call_eq.
    destruct (hd false (faults w1)).
    { intros [= <- <-]. left. split; [discriminate | reflexivity]. }
    unfold company_findFirst.
    destruct (int (JS.prop vd "companyId")) as [cid |] eqn:Hint.
    2:{ intros [= <- <-]. left. split; [discriminate | reflexivity]. }
    destruct (find (fun c => (co_id c =? cid) && (co_userId c =? u))%bool
                (companies (db w1))) as [c |] eqn:Hco; cbn [negb].
    2:{ intros [= <- <-]. left. split; [discriminate | reflexivity]. }
    assert (Hknown : company_known vd u (db w)).
    { intros _. exists c. unfold company_findFirst.
      rewrite Hint. change (db w1) with (db w) in Hco. rewrite Hco.
      reflexivity. }
    set (w2 := {| db := db w1; faults := tl (faults w1) |}).
    rewrite call_eq. change (db w2) with (db w).
    destruct (hd false (faults w2)).
    { intros [= <- <-]. left. split; [discriminate | reflexivity]. }
    destruct (application_update now n (updateData Date_parse vd) (db w))
      as [[inc d1] |] eqn:Hupd.
    2:{ intros [= <- <-]. left. split; [discriminate | reflexivity]. }
    fold (status_changed vd existing).
    fold (history_data inc (status_note (JS.prop vd "status"))).
    destruct (status_changed vd existing) eqn:Hch.
    + rewrite call_eq. cbn [db faults].
      destruct (hd false (tl (faults w2))).
      { intros [= <- <-]. right. exists n, existing, inc, d1.
        repeat split; auto. }
      destruct (statusHistory_create now
                  (history_data inc (status_note (JS.prop vd "status"))) d1)
        as [[row d2] |] eqn:Hcreate.
      * intros [= <- <-]. right. exists n, existing, inc, d1.
        repeat split; auto. right. left. split; [assumption |].
        exists row. split; [exact Hcreate | reflexivity].
      * intros [= <- <-]. right. exists n, existing, inc, d1.
        repeat split; auto.
    + intros [= <- <-]. right. exists n, existing, inc, d1.
      repeat split; auto.
  - assert (Hknown : company_known vd u (db w)).
    { intros H. rewrite Hc in H. discriminate. }
    cbn [negb]. rewrite call_eq. change (db w1) with (db w).
    destruct (hd false (faults w1)).
    { intros [= <- <-]. left. split; [discriminate | reflexivity]. }
    destruct (application_update now n (updateData Date_parse vd) (db w))
      as [[inc d1] |] eqn:Hupd.
    2:{ intros [= <- <-]. left. split; [discriminate | reflexivity]. }
    fold (status_changed vd existing).
    fold (history_data inc (status_note (JS.prop vd "status"))).
    destruct (status_changed vd existing) eqn:Hch.
    + rewrite call_eq. cbn [db faults].
      destruct (hd false (tl (faults w1))).
      { intros [= <- <-]. right. exists n, existing, inc, d1.
        repeat split; auto. }
      destruct (statusHistory_create now
                  (history_data inc (status_note (JS.prop vd "status"))) d1)
        as [[row d2] |] eqn:Hcreate.
      * intros [= <- <-]. right. exists n, existing, inc, d1.
        repeat split; auto. right. left. split; [assumption |].
        exists row. split; [exact Hcreate | reflexivity].
      * intros [= <- <-]. right. exists n, existing, inc, d1.
        repeat split; auto.
    + intros [= <- <-]. right. exists n, existing, inc, d1.
      repeat split; auto.
Qed.

(** *** Validated bodies and the data objects built from them *)

Lemma issues_in (sch : Zod.schema) (body : JS.object) (k : string)
    (p : Zod.check) :
  In (k, p) sch -> p (JS.prop body k) = false -> In k (Zod.issues sch body).
Proof.
  intros Hin Hp. unfold Zod.issues.
  change k with (fst (k, p)). apply in_map, filter_In.
  split; [exact Hin |]. cbn. rewrite Hp. reflexivity.
Qed.

Lemma issues_nil (sch : Zod.schema) (body : JS.object) (k : string)
    (p : Zod.check) :
  Zod.issues sch body = [] -> In (k, p) sch -> p (JS.prop body k) = true.
Proof.
  intros Hnil Hin.
  destruct (p (JS.prop body k)) eqn:Hp; [reflexivity |].
  pose proof (issues_in _ _ _ _ Hin Hp) as Hk.
  rewrite Hnil in Hk. contradiction.
Qed.

Lemma prop_when (c : bool) (k' : string) (v : JS.value) (rest : JS.object)
    (k : string) :
  JS.prop (JS.when c k' v ++ rest) k =
  if (c && String.eqb k k')%bool then v else JS.prop rest k.
Proof. destruct c; cbn; [destruct (String.eqb k k') |]; reflexivity. Qed.

(** The status the update schema lets through is absent or one of the
    seven. *)
Lemma validated_status (body : JS.object) :
  Zod.issues (updateApplicationSchema is_url) body = [] ->
  JS.prop body "status" = JS.Undefined \/
  exists st, JS.prop body "status" = JS.Str (ApplicationStatus_label st).
Proof.
  intros Hnil.
  eapply (issues_nil _ _ "status") in Hnil.
  2:{ cbn. do 3 right. left. reflexivity. }
  cbn in Hnil.
  destruct (JS.prop body "status") as [| | | | | s | | |];
    try discriminate; [left; reflexivity |].
  right. cbn [Zod.optional Zod.enum existsb] in Hnil.
  repeat match type of Hnil with
         | (String.eqb s ?l || _)%bool = true =>
             apply orb_true_iff in Hnil as [Hnil | Hnil]
         end;
    try discriminate; apply String.eqb_eq in Hnil; subst s.
  - exists applied. reflexivity.
  - exists reviewing. reflexivity.
  - exists interview_scheduled. reflexivity.
  - exists interviewed. reflexivity.
  - exists offer. reflexivity.
  - exists rejected. reflexivity.
  - exists withdrawn. reflexivity.
Qed.

Lemma mapStatus_label (st : ApplicationStatus) :
  FieldMapper.mapStatus (ApplicationStatus_label st)
  = JS.Str (ApplicationStatus_label st).
Proof. destruct st; reflexivity. Qed.

Lemma ApplicationStatus_of_label_label (st : ApplicationStatus) :
  ApplicationStatus_of_label (ApplicationStatus_label st) = Some st.
Proof. destruct st; reflexivity. Qed.

Lemma ApplicationStatus_label_inj (a b : ApplicationStatus) :
  ApplicationStatus_label a = ApplicationStatus_label b -> a = b.
Proof.
  intros H. apply (f_equal ApplicationStatus_of_label) in H.
  rewrite !ApplicationStatus_of_label_label in H. congruence.
Qed.

Lemma truthy_label (st : ApplicationStatus) :
  JS.truthy (JS.Str (ApplicationStatus_label st)) = true.
Proof. destruct st; reflexivity. Qed.

(** The row a [data] object describes keeps the key of [old] and takes its
    status from the "status" member. *)
Lemma application_row_status (now : Z) (old row : Application)
    (data : JS.object) :
  application_row now old data = Some row ->
  app_id row = app_id old /\
  required (enum ApplicationStatus_of_label) (Some (app_status old))
    (JS.prop data "status") = Some (app_status row).
Proof.
  unfold application_row.
  repeat match goal with
         | |- context [match ?e with Some _ => _ | None => _ end] =>
             destruct e eqn:?; [| discriminate]
         end.
  intros [= <-]. cbn [app_id app_status]. split; reflexivity.
Qed.

Lemma prop_when_last (c : bool) (k' : string) (v : JS.value) (k : string) :
  JS.prop (JS.when c k' v) k =
  if (c && String.eqb k k')%bool then v else JS.Undefined.
Proof. destruct c; cbn; [destruct (String.eqb k k') |]; reflexivity. Qed.

Lemma validated_update_prop (body : JS.object) :
  let vd := validated (updateApplicationSchema is_url) body in
  JS.prop vd "status" = JS.prop body "status" /\
  JS.prop vd "companyId" = JS.prop body "companyId" /\
  JS.prop vd "priority" = JS.prop body "priority".
Proof. repeat split. Qed.

Lemma validated_create_prop (body : JS.object) :
  let vd := validated (createApplicationSchema is_url) body in
  JS.prop vd "status" = JS.prop body "status" /\
  JS.prop vd "companyId" = JS.prop body "companyId" /\
  JS.prop vd "priority" = JS.prop body "priority".
Proof. repeat split. Qed.

(** The "status" member of the data PUT builds. *)
Lemma updateData_status (vd : JS.object) :
  JS.prop (updateData Date_parse vd) "status" =
  if JS.truthy (JS.prop vd "status")
  then mapped FieldMapper.mapStatus (JS.prop vd "status")
  else JS.Undefined.
Proof.
  unfold updateData.
  rewrite !prop_when, prop_when_last.
  cbn [String.eqb Ascii.eqb Bool.eqb].
  rewrite !andb_false_r, andb_true_r. reflexivity.
Qed.

(** The "status" member of the data POST builds. *)
Lemma applicationData_status (u : Z) (vd : JS.object) :
  JS.prop (applicationData Date_parse u vd) "status" =
  if JS.truthy (JS.prop vd "status")
  then mapped FieldMapper.mapStatus (JS.prop vd "status")
  else JS.Str "applied".
Proof. reflexivity. Qed.

(** *** POST / *)

Lemma application_create_tables (now : Z) (data : JS.object) (d d1 : DB)
    (inc : Included) :
  application_create now data d = Some (inc, d1) ->
  statusHistory d1 = statusHistory d /\
  applications d1 = applications d ++ [the_application inc] /\
  application_row now (application_defaults (application_seq d) now) data
  = Some (the_application inc).
Proof.
  unfold application_create.
  destruct (JS.defined (JS.prop data "positionTitle")
            && JS.defined (JS.prop data "userId")
            && JS.defined (JS.prop data "companyId"))%bool; [| discriminate].
  destruct (application_row now (application_defaults (application_seq d) now)
              data) as [row |]; [| discriminate].
  destruct (has_company d (app_companyId row)); [| discriminate].
  intros [= <- <-]. cbn. repeat split.
Qed.

(** The outcomes of POST /: either the answer is not 201 and no history
    entry is written, or the application row is inserted, its history entry
    after it, and the answer is 201. *)
Lemma route_post_cases (now u : Z) (body : JS.object) (w w' : World)
    (resp : Response) :
  route_post Date_parse is_url now u body w = (inl resp, w') ->
  (status resp <> 201 /\
   statusHistory (db w') = statusHistory (db w) /\
   (db w' = db w \/
    exists inc,
      application_create now
        (applicationData Date_parse u
           (validated (createApplicationSchema is_url) body)) (db w)
      = Some (inc, db w'))) \/
  (exists inc d1 row,
      Zod.issues (createApplicationSchema is_url) body = [] /\
      application_create now
        (applicationData Date_parse u
           (validated (createApplicationSchema is_url) body)) (db w)
      = Some (inc, d1) /\
      statusHistory_create now (history_data inc "Application created") d1
      = Some (row, db w') /\
      resp = {| status := 201;
                payload := ApplicationSaved
                             "Application created successfully" inc |}).
Proof.
  unfold route_post, try_catch, bind, send, ret, Zod.parse.
  destruct (Zod.issues (createApplicationSchema is_url) body) eqn:Hissues.
  2:{ unfold throw. intros [= <- <-]. left.
      split; [discriminate | split; [reflexivity | left; reflexivity]]. }
  unfold ret. fold (validated (createApplicationSchema is_url) body).
  set (vd := validated (createApplicationSchema is_url) body).
  rewrite call_eq.
  destruct (hd false (faults w)).
  { intros [= <- <-]. left.
    split; [discriminate | split; [reflexivity | left; reflexivity]]. }
  unfold company_findFirst.
  destruct (int (JS.prop vd "companyId")) as [cid |].
  2:{ intros [= <- <-]. left.
      split; [discriminate | split; [reflexivity | left; reflexivity]]. }
  destruct (find (fun c => (co_id c =? cid) && (co_userId c =? u))%bool
              (companies (db w))).
  2:{ intros [= <- <-]. left.
      split; [discriminate | split; [reflexivity | left; reflexivity]]. }
  rewrite call_eq. cbn [db faults].
  destruct (hd false (tl (faults w))).
  { intros [= <- <-]. left.
    split; [discriminate | split; [reflexivity | left; reflexivity]]. }
  destruct (application_create now (applicationData Date_parse u vd) (db w))
    as [[inc d1] |] eqn:Hcreate.
  2:{ intros [= <- <-]. left.
      split; [discriminate | split; [reflexivity | left; reflexivity]]. }
  fold (history_data inc "Application created").
  rewrite call_eq. cbn [db faults].
  pose proof (application_create_tables _ _ _ _ _ Hcreate) as (Hsh & _).
  destruct (hd false (tl (tl (faults w)))).
  { intros [= <- <-]. left.
    split; [discriminate | split; [exact Hsh | right]].
    exists inc. reflexivity. }
  destruct (statusHistory_create now (history_data inc "Application created")
              d1) as [[row d2] |] eqn:Hhist.
  - intros [= <- <-]. right. exists inc, d1, row. repeat split. exact Hhist.
  - intros [= <- <-]. left.
    split; [discriminate | split; [exact Hsh | right]].
    exists inc. reflexivity.
Qed.

(** The history row either route appends for the application [inc]. *)
Lemma history_row (now : Z) (inc : Included) (note : string) (d d2 : DB)
    (row : StatusHistory) :
  statusHistory_create now (history_data inc note) d = Some (row, d2) ->
  statusHistory d2 = statusHistory d ++ [row] /\
  applications d2 = applications d /\
  sh_applicationId row = app_id (the_application inc) /\
  sh_status row = app_status (the_application inc) /\
  sh_notes row = Some note /\
  sh_createdAt row = now.
Proof.
  intros H.
  apply statusHistory_create_tables in H
    as (Hsh & Happs & Hnow & _ & Hid & Hst & Hnotes).
  change (JS.prop (history_data inc note) "applicationId")
    with (JS.Int (app_id (the_application inc))) in Hid.
  change (JS.prop (history_data inc note) "status")
    with (JS.Str (ApplicationStatus_label (app_status (the_application inc))))
    in Hst.
  change (JS.prop (history_data inc note) "notes") with (JS.Str note) in Hnotes.
  cbn [required int enum nullable text option_map] in Hid, Hst, Hnotes.
  rewrite ApplicationStatus_of_label_label in Hst.
  repeat split; congruence.
Qed.

(** What a successful update statement leaves when the validated body
    carries the status [st]. *)
Lemma update_writes_status (now n : Z) (vd : JS.object) (d d1 : DB)
    (inc : Included) (st : ApplicationStatus) :
  application_update now n (updateData Date_parse vd) d = Some (inc, d1) ->
  JS.prop vd "status" = JS.Str (ApplicationStatus_label st) ->
  app_status (the_application inc) = st /\
  app_id (the_application inc) = n /\
  In (the_application inc) (applications d1) /\
  statusHistory d1 = statusHistory d.
Proof.
  intros Hupd Hst.
  apply application_update_tables in Hupd
    as (Hsh & _ & _ & old & Hold & Hrow & Happs).
  apply find_some in Hold as [Hin Hn]. apply Z.eqb_eq in Hn.
  apply application_row_status in Hrow as [Hid Hstatus].
  rewrite updateData_status, Hst, truthy_label in Hstatus.
  cbn [mapped] in Hstatus. rewrite mapStatus_label in Hstatus.
  cbn [required enum] in Hstatus.
  rewrite ApplicationStatus_of_label_label in Hstatus.
  injection Hstatus as Hstatus.
  repeat split; [congruence | congruence | | exact Hsh].
  rewrite Happs.
  apply (in_map (fun a => if app_id a =? n then the_application inc else a))
    in Hin.
  rewrite Hn, Z.eqb_refl in Hin. exact Hin.
Qed.

Lemma status_changed_absent (vd : JS.object) (existing : Application) :
  JS.prop vd "status" = JS.Undefined -> status_changed vd existing = false.
Proof. unfold status_changed. intros ->. reflexivity. Qed.

Lemma status_changed_label (vd : JS.object) (existing : Application)
    (st : ApplicationStatus) :
  JS.prop vd "status" = JS.Str (ApplicationStatus_label st) ->
  status_changed vd existing = true <-> st <> app_status existing.
Proof.
  unfold status_changed. intros ->. rewrite truthy_label. cbn [andb differs].
  rewrite negb_true_iff, String.eqb_neq.
  split; intros H E; apply H; [congruence |].
  apply ApplicationStatus_label_inj, E.
Qed.

(** ** The status history *)

(** C3. The number of history entries an operation writes. Creating an
    Application (POST answered 201) appends exactly one entry, with or
    without a status in the body, and the entry and the new row carry
    "applied" when the status is omitted. An update whose body omits the
    status, or asks for the status the Application already has, appends
    none, whatever the answer. An accepted update (200) asking for another
    status appends exactly one. *)
Theorem history_entries_per_operation :
  (forall now u body w w' resp,
      route_post Date_parse is_url now u body w = (inl resp, w') ->
      status resp = 201 ->
      exists row,
        statusHistory (db w') = statusHistory (db w) ++ [row] /\
        (JS.prop body "status" = JS.Undefined -> sh_status row = applied)) /\
  (forall now u id body w w' resp,
      route_put_one Date_parse is_url now u id body w = (inl resp, w') ->
      JS.prop body "status" = JS.Undefined ->
      statusHistory (db w') = statusHistory (db w)) /\
  (forall now u id n body w w' resp existing,
      route_put_one Date_parse is_url now u id body w = (inl resp, w') ->
      JS.parseInt id = Some n ->
      find (owned_by n u) (applications (db w)) = Some existing ->
      JS.prop body "status"
      = JS.Str (ApplicationStatus_label (app_status existing)) ->
      statusHistory (db w') = statusHistory (db w)) /\
  (forall now u id n body w w' resp existing s,
      route_put_one Date_parse is_url now u id body w = (inl resp, w') ->
      status resp = 200 ->
      JS.parseInt id = Some n ->
      find (owned_by n u) (applications (db w)) = Some existing ->
      JS.prop body "status" = JS.Str s ->
      s <> ApplicationStatus_label (app_status existing) ->
      exists row, statusHistory (db w') = statusHistory (db w) ++ [row]).
Proof.
  repeat apply conj.
  - intros now u body w w' resp Hrun H201.
    apply route_post_cases in Hrun
      as [[Hne _] | (inc & d1 & row & _ & Hcreate & Hhist & _)];
      [contradiction |].
    apply application_create_tables in Hcreate as (Hsh & _ & Hrow).
    apply history_row in Hhist as (Hsh' & _ & _ & Hst & _).
    exists row. split; [congruence |].
    intros Habsent.
    apply application_row_status in Hrow as [_ Hstatus].
    rewrite applicationData_status in Hstatus.
    destruct (validated_create_prop body) as (E & _). rewrite E, Habsent in Hstatus.
    cbn in Hstatus. congruence.
  - intros now u id body w w' resp Hrun Habsent.
    apply route_put_one_cases in Hrun
      as [[_ ->] | (n & existing & inc & d1 & _ & _ & _ & _ & Hupd & Hcases)];
      [reflexivity |].
    apply application_update_tables in Hupd as (Hsh & _).
    assert (Hch : status_changed
                    (validated (updateApplicationSchema is_url) body) existing
                  = false).
    { apply status_changed_absent.
      destruct (validated_update_prop body) as (E & _). congruence. }
    destruct Hcases as [(_ & _ & ->) | [(Hch' & _) | (_ & _ & ->)]];
      congruence.
  - intros now u id n body w w' resp existing Hrun Hid Hfind Hsame.
    apply route_put_one_cases in Hrun
      as [[_ ->] | (n' & existing' & inc & d1 & Hid' & _ & Hfind' & _ & Hupd & Hcases)];
      [reflexivity |].
    assert (n' = n) by congruence. subst n'.
    assert (existing' = existing) by congruence. subst existing'.
    apply application_update_tables in Hupd as (Hsh & _).
    assert (Hch : status_changed
                    (validated (updateApplicationSchema is_url) body) existing
                  <> true).
    { rewrite status_changed_label with (st := app_status existing).
      - intros H. apply H. reflexivity.
      - destruct (validated_update_prop body) as (E & _). congruence. }
    destruct Hcases as [(_ & _ & ->) | [(Hch' & _) | (Hch' & _)]];
      congruence.
  - intros now u id n body w w' resp existing s Hrun H200 Hid Hfind Hs Hne.
    apply route_put_one_cases in Hrun
      as [[H _] | (n' & existing' & inc & d1 & Hid' & Hnil & Hfind' & _ & Hupd & Hcases)];
      [contradiction |].
    assert (n' = n) by congruence. subst n'.
    assert (existing' = existing) by congruence. subst existing'.
    apply application_update_tables in Hupd as (Hsh & _).
    destruct (validated_status body Hnil) as [E | [st E]]; [congruence |].
    assert (Hch : status_changed
                    (validated (updateApplicationSchema is_url) body) existing
                  = true).
    { rewrite status_changed_label with (st := st).
      - intros ->. congruence.
      - destruct (validated_update_prop body) as (E' & _). congruence. }
    destruct Hcases as [(Hch' & _) | [(_ & row & Hhist & _) | (_ & -> & _)]].
    + congruence.
    + apply history_row in Hhist as (Hsh' & _). exists row. congruence.
    + discriminate.
Qed.

Lemma has_application_true (d : DB) (k : Z) :
  has_application d k = true <->
  exists a, In a (applications d) /\ app_id a = k.
Proof.
  unfold has_application. rewrite existsb_exists.
  split; intros (a & Hin & Ha); exists a; (split; [exact Hin |]);
    apply Z.eqb_eq, Ha.
Qed.



(** PUT when every call before the history append succeeds and the append
    is rejected: 500, with the application row already written. *)
Lemma put_append_fails (now u : Z) (id : string) (n : Z) (body : JS.object)
    (w : World) (existing : Application) (inc : Included) (d1 : DB)
    (rest : list bool) :
  JS.parseInt id = Some n ->
  Zod.issues (updateApplicationSchema is_url) body = [] ->
  find (owned_by n u) (applications (db w)) = Some existing ->
  company_known (validated (updateApplicationSchema is_url) body) u (db w) ->
  application_update now n
    (updateData Date_parse (validated (updateApplicationSchema is_url) body))
    (db w) = Some (inc, d1) ->
  status_changed (validated (updateApplicationSchema is_url) body) existing
  = true ->
  faults w
  = repeat false
      (calls_before_append (validated (updateApplicationSchema is_url) body))
    ++ true :: rest ->
  route_put_one Date_parse is_url now u id body w
  = (inl {| status := 500; payload := Message "Failed to update application" |},
     {| db := d1; faults := rest |}).
Proof.
  intros Hid Hnil Hfind Hknown Hupd Hch Hfaults.
  unfold route_put_one, try_catch, bind, send, ret, Zod.parse.
  rewrite Hid, Hnil. unfold ret.
  fold (validated (updateApplicationSchema is_url) body).
  set (vd := validated (updateApplicationSchema is_url) body) in *.
  rewrite call_eq, Hfaults.
  unfold application_findFirst. rewrite Hfind.
  unfold calls_before_append, company_known in *.
  unfold status_changed in Hch.
  destruct (JS.truthy (JS.prop vd "companyId")) eqn:Hc;
    cbn [repeat app hd tl faults db].
  - destruct (Hknown eq_refl) as [c Hc'].
    rewrite call_eq. cbn [repeat app hd tl faults db]. rewrite Hc'.
    cbn [negb]. rewrite call_eq. cbn [repeat app hd tl faults db].
    rewrite Hupd, Hch. rewrite call_eq. cbn [repeat app hd tl faults db].
    reflexivity.
  - cbn [negb]. rewrite call_eq. cbn [repeat app hd tl faults db].
    rewrite Hupd, Hch. rewrite call_eq. cbn [repeat app hd tl faults db].
    reflexivity.
Qed.

(** C2, as the code has it. The write of the application row and the
    append of the history entry are two statements, in that order, and not
    one unit. Either an update writes nothing, or it writes the application
    row and then at most appends the entry: an entry is never visible
    without the row written. But when an accepted status change is replayed
    with the history append rejected, the answer is 500 and the store keeps
    the application row with the new status and no entry for it. *)
Theorem status_write_precedes_history_append :
  (forall now u id body w w' resp,
      route_put_one Date_parse is_url now u id body w = (inl resp, w') ->
      db w' = db w \/
      exists n inc d1,
        JS.parseInt id = Some n /\
        application_update now n
          (updateData Date_parse
             (validated (updateApplicationSchema is_url) body)) (db w)
        = Some (inc, d1) /\
        (db w' = d1 \/
         exists row,
           statusHistory (db w') = statusHistory d1 ++ [row] /\
           applications (db w') = applications d1)) /\
  (forall now u id n body d w' resp existing s,
      route_put_one Date_parse is_url now u id body {| db := d; faults := [] |}
      = (inl resp, w') ->
      status resp = 200 ->
      JS.parseInt id = Some n ->
      find (owned_by n u) (applications d) = Some existing ->
      JS.prop body "status" = JS.Str s ->
      s <> ApplicationStatus_label (app_status existing) ->
      exists inc d1,
        route_put_one Date_parse is_url now u id body
          {| db := d;
             faults :=
               repeat false
                 (calls_before_append
                    (validated (updateApplicationSchema is_url) body))
               ++ [true] |}
        = (inl {| status := 500;
                  payload := Message "Failed to update application" |},
           {| db := d1; faults := [] |}) /\
        In (the_application inc) (applications d1) /\
        app_id (the_application inc) = n /\
        ApplicationStatus_label (app_status (the_application inc)) = s /\
        statusHistory d1 = statusHistory d).
Proof.
  split.
  - intros now u id body w w' resp Hrun.
    apply route_put_one_cases in Hrun
      as [[_ ->] | (n & existing & inc & d1 & Hid & _ & _ & _ & Hupd & Hcases)];
      [left; reflexivity | right].
    exists n, inc, d1. split; [exact Hid | split; [exact Hupd |]].
    destruct Hcases as [(_ & _ & ->) | [(_ & row & Hhist & _) | (_ & _ & ->)]];
      [left; reflexivity | right | left; reflexivity].
    apply history_row in Hhist as (Hsh & Happs & _).
    exists row. split; assumption.
  - intros now u id n body d w' resp existing s Hrun H200 Hid Hfind Hs Hne.
    apply route_put_one_cases in Hrun
      as [[H _] | (n' & existing' & inc & d1 & Hid' & Hnil & Hfind' & Hknown
                   & Hupd & _)];
      [contradiction |].
    cbn [db] in Hfind', Hknown, Hupd.
    assert (n' = n) by congruence. subst n'.
    assert (existing' = existing) by congruence. subst existing'.
    destruct (validated_update_prop body) as (Evd & _).
    destruct (validated_status body Hnil) as [E | [st E]]; [congruence |].
    assert (Hst : JS.prop (validated (updateApplicationSchema is_url) body)
                    "status" = JS.Str (ApplicationStatus_label st))
      by congruence.
    assert (Hch : status_changed
                    (validated (updateApplicationSchema is_url) body) existing
                  = true).
    { rewrite status_changed_label with (st := st); [| exact Hst].
      intros ->. congruence. }
    exists inc, d1. split.
    + apply put_append_fails with (n := n) (existing := existing) (inc := inc);
        assumption || reflexivity.
    + apply update_writes_status with (st := st) in Hupd
        as (Hstatus & Hkey & Hin & Hsh); [| exact Hst].
      repeat split; congruence || assumption.
Qed.

(** ** Priorities *)

(** C6. The Priority type of the schema has the member 'urgent', but the
    routes do not take it: a create or an update whose body asks for
    priority 'urgent' is answered 400 'Validation failed' with an issue on
    priority, and the world is left as it was. The mapper has no entry for
    it either. *)
Theorem urgent_priority_rejected :
  Priority_of_label "urgent" = Some urgent /\
  JS.own FieldMapper.priority_mapping "urgent" = None /\
  (forall now u body w,
      JS.prop body "priority" = JS.Str "urgent" ->
      exists errors,
        In "priority" errors /\
        route_post Date_parse is_url now u body w
        = (inl {| status := 400; payload := ValidationFailed errors |}, w)) /\
  (forall now u id n body w,
      JS.parseInt id = Some n ->
      JS.prop body "priority" = JS.Str "urgent" ->
      exists errors,
        In "priority" errors /\
        route_put_one Date_parse is_url now u id body w
        = (inl {| status := 400; payload := ValidationFailed errors |}, w)).
Proof.
  split; [reflexivity | split; [reflexivity | split]].
  - intros now u body w Hurgent.
    exists (Zod.issues (createApplicationSchema is_url) body).
    assert (Hin : In "priority"
                    (Zod.issues (createApplicationSchema is_url) body)).
    { eapply issues_in.
      - cbn. do 10 right. left. reflexivity.
      - rewrite Hurgent. reflexivity. }
    split; [exact Hin |].
    unfold route_post, try_catch, bind, Zod.parse.
    destruct (Zod.issues (createApplicationSchema is_url) body);
      [contradiction | reflexivity].
  - intros now u id n body w Hid Hurgent.
    exists (Zod.issues (updateApplicationSchema is_url) body).
    assert (Hin : In "priority"
                    (Zod.issues (updateApplicationSchema is_url) body)).
    { eapply issues_in.
      - cbn. do 10 right. left. reflexivity.
      - rewrite Hurgent. reflexivity. }
    split; [exact Hin |].
    unfold route_put_one, try_catch, bind, Zod.parse. rewrite Hid.
    destruct (Zod.issues (updateApplicationSchema is_url) body);
      [contradiction | reflexivity].
Qed.

(** ** Ownership *)

Lemma find_none_iff {A : Type} (f : A -> bool) (l : list A) :
  find f l = None <-> forall x, In x l -> f x = false.
Proof.
  split; [apply find_none |].
  induction l as [| x l IH]; intros H; [reflexivity |].
  cbn. rewrite (H x (or_introl eq_refl)).
  apply IH. intros y Hy. apply H. right. exact Hy.
Qed.







(** ** The history table across operations *)

Lemma filter_all {A : Type} (l : list A) : filter (fun _ => true) l = l.
Proof. induction l as [| x l IH]; cbn; [| rewrite IH]; reflexivity. Qed.

Lemma history_kept_same (d d' : DB) :
  statusHistory d' = statusHistory d -> history_kept d d'.
Proof.
  intros H. exists (fun _ => true), [].
  rewrite filter_all, app_nil_r. split; [exact H | discriminate].
Qed.

Lemma history_kept_append (d d' : DB) (row : StatusHistory) :
  statusHistory d' = statusHistory d ++ [row] -> history_kept d d'.
Proof.
  intros H. exists (fun _ => true), [row].
  rewrite filter_all. split; [exact H | discriminate].
Qed.

Lemma history_kept_delete (n : Z) (d : DB) :
  history_kept d (delete_application n d).
Proof.
  exists (fun h => negb (sh_applicationId h =? n)), [].
  rewrite app_nil_r. split; [reflexivity |].
  intros h _ Hh. apply negb_false_iff, Z.eqb_eq in Hh. rewrite Hh.
  destruct (has_application (delete_application n d) n) eqn:E;
    [| reflexivity].
  apply has_application_true in E as (a & Ha & Hn).
  destruct (delete_application_clean n d) as (Hclean & _).
  exfalso. exact (Hclean a Ha Hn).
Qed.

(** Every handler answers: its [catch] turns whatever is thrown into a
    response. *)
Lemma try_catch_answers {A : Type} (m : Op A) (handler : Exn -> Op A)
    (w : World) :
  (forall e w1, exists a w2, handler e w1 = (inl a, w2)) ->
  exists a w', try_catch m handler w = (inl a, w').
Proof.
  intros H. unfold try_catch.
  destruct (m w) as [[a | e] w1]; [exists a, w1; reflexivity | apply H].
Qed.

Lemma router_answers (r : Request) (w : World) :
  exists resp w', router Date_parse is_url r w = (inl resp, w').
Proof.
  unfold router.
  destruct (first_match routes (method r) (path r)) as [[h param] |].
  2:{ eexists _, _. reflexivity. }
  destruct h; cbn [run];
    apply try_catch_answers; intros e w1;
    try (destruct e); eexists _, _; reflexivity.
Qed.

Lemma route_get_all_db (u : Z) (q : JS.literal) (w : World) :
  db (snd (route_get_all u q w)) = db w.
Proof.
  unfold route_get_all, try_catch, bind, send, ret.
  rewrite call_eq.
  destruct (hd false (faults w)); [reflexivity |].
  rewrite call_eq. cbn [db faults].
  destruct (hd false (tl (faults w))); reflexivity.
Qed.

Lemma route_get_one_db (u : Z) (id : string) (w : World) :
  db (snd (route_get_one u id w)) = db w.
Proof.
  unfold route_get_one, try_catch, bind, send, ret.
  destruct (JS.parseInt id) as [n |]; [| reflexivity].
  rewrite call_eq.
  destruct (hd false (faults w)); [reflexivity |].
  unfold application_findFirst_included.
  destruct (find (owned_by n u) (applications (db w))); reflexivity.
Qed.

(** The application router keeps the history rows. *)
Lemma router_history_kept (r : Request) (w : World) :
  history_kept (db w) (db (snd (router Date_parse is_url r w))).
Proof.
  destruct (router_answers r w) as (resp & w' & Hrun).
  rewrite Hrun. cbn [snd]. revert Hrun. unfold router.
  destruct (first_match routes (method r) (path r)) as [[h param] |] eqn:Hm.
  2:{ intros [= _ <-]. apply history_kept_same. reflexivity. }
  destruct h; cbn [run]; intros Hrun.
  - apply history_kept_same. rewrite <- (route_get_all_db (user r) (query r) w).
    rewrite Hrun. reflexivity.
  - apply history_kept_same. rewrite <- (route_get_one_db (user r) param w).
    rewrite Hrun. reflexivity.
  - apply route_post_cases in Hrun
      as [(_ & Hsh & _) | (inc & d1 & row & _ & Hcreate & Hhist & _)].
    + apply history_kept_same. exact Hsh.
    + apply application_create_tables in Hcreate as (Hsh & _).
      apply history_row in Hhist as (Hsh' & _).
      apply history_kept_append with (row := row). congruence.
  - apply route_put_one_cases in Hrun
      as [[_ ->] | (n & existing & inc & d1 & _ & _ & _ & _ & Hupd & Hcases)].
    + apply history_kept_same. reflexivity.
    + apply application_update_tables in Hupd as (Hsh & _).
      destruct Hcases as [(_ & _ & ->) | [(_ & row & Hhist & _) | (_ & _ & ->)]].
      * apply history_kept_same. exact Hsh.
      * apply history_row in Hhist as (Hsh' & _).
        apply history_kept_append with (row := row). congruence.
      * apply history_kept_same. exact Hsh.
  - apply route_delete_one_cases in Hrun as [[_ ->] | (n & a & _ & _ & _ & ->)].
    + apply history_kept_same. reflexivity.
    + apply history_kept_delete.
  - exfalso. exact (delete_bulk_never_selected _ _ _ _ Hm eq_refl).
Qed.

(** DELETE of a company goes through only when no application refers to
    it, so nothing cascades. *)
Lemma company_route_delete_tables (u : Z) (id : string) (w : World) :
  applications (db (snd (company_route_delete u id w))) = applications (db w) /\
  statusHistory (db (snd (company_route_delete u id w))) = statusHistory (db w) /\
  application_seq (db (snd (company_route_delete u id w)))
  = application_seq (db w).
Proof.
  unfold company_route_delete, try_catch, bind, send, ret.
  destruct (JS.parseInt id) as [n |]; [| repeat split].
  rewrite call_eq.
  destruct (hd false (faults w)); [repeat split |].
  unfold company_findFirst_count.
  destruct (find (fun c => (co_id c =? n) && (co_userId c =? u))%bool
              (companies (db w))) as [c |] eqn:Hc;
    cbn [option_map]; [| repeat split].
  apply find_some in Hc as [_ Hc]. apply andb_true_iff in Hc as [Hc _].
  apply Z.eqb_eq in Hc. rewrite Hc.
  destruct (0 <? Z.of_nat
              (List.length (filter (fun a => app_companyId a =? n)
                              (applications (db w))))) eqn:Hcount;
    [repeat split |].
  rewrite call_eq. cbn [db faults].
  destruct (hd false (tl (faults w))); [repeat split |].
  unfold company_delete.
  destruct (has_company (db w) n); [| repeat split].
  cbn [snd db]. unfold delete_company.
  destruct (filter (fun a => app_companyId a =? n) (applications (db w)));
    [repeat split |].
  cbn [List.length] in Hcount. apply Z.ltb_ge in Hcount. lia.
Qed.

(** ORDER BY puts the rows in order and keeps them all. *)
Lemma insert_by_perm {A : Type} (leb : A -> A -> bool) (x : A) (l : list A) :
  Permutation (insert_by leb x l) (x :: l).
Proof.
  induction l as [| y l IH]; cbn; [reflexivity |].
  destruct (leb x y); [reflexivity |].
  rewrite IH. apply perm_swap.
Qed.

Lemma order_by_perm {A : Type} (leb : A -> A -> bool) (l : list A) :
  Permutation (order_by leb l) l.
Proof.
  induction l as [| x l IH]; cbn; [reflexivity |].
  rewrite insert_by_perm, IH. reflexivity.
Qed.

Lemma insert_desc_sorted {A : Type} (key : A -> Z) (x : A) (l : list A) :
  StronglySorted (fun a b => key b <= key a) l ->
  StronglySorted (fun a b => key b <= key a) (insert_by (desc key) x l).
Proof.
  induction 1 as [| y l Hsorted IH Hall]; cbn.
  - constructor; constructor.
  - unfold desc at 1. destruct (key y <=? key x) eqn:E.
    + apply Z.leb_le in E. constructor.
      * constructor; assumption.
      * constructor; [exact E |].
        eapply Forall_impl; [| exact Hall]. cbn. intros; lia.
    + apply Z.leb_gt in E. constructor; [exact IH |].
      rewrite insert_by_perm. constructor; [lia | exact Hall].
Qed.

Lemma order_by_desc_sorted {A : Type} (key : A -> Z) (l : list A) :
  StronglySorted (fun a b => key b <= key a) (order_by (desc key) l).
Proof.
  induction l as [| x l IH]; cbn; [constructor |].
  apply insert_desc_sorted, IH.
Qed.

(** C9, as the code has it. No operation of the system changes a
    StatusHistory row, and none removes one except with its Application:
    across every operation the table keeps its rows, as they are and in
    order, but for those whose Application the operation deleted (the
    cascade), and new rows only follow them. The history list an Application
    is returned with holds exactly its rows, ordered by creation time,
    newest first. *)
Theorem history_rows_kept_until_cascade :
  (forall w w', step Date_parse is_url w w' -> history_kept (db w) (db w')) /\
  (forall d n,
      StronglySorted newer_first (statusHistory_of d n) /\
      Permutation (statusHistory_of d n)
        (filter (fun h => sh_applicationId h =? n) (statusHistory d))).
Proof.
  split.
  - intros w w' Hstep. destruct Hstep as [r w | u id w | w w' _ Hsh _].
    + apply router_history_kept.
    + apply history_kept_same.
      apply (company_route_delete_tables u id w).
    + apply history_kept_same, Hsh.
  - intros d n. split.
    + apply order_by_desc_sorted.
    + apply order_by_perm.
Qed.

(** ** Well-formed stores *)

Lemma well_formed_same (d d' : DB) :
  applications d' = applications d ->
  statusHistory d' = statusHistory d ->
  application_seq d' = application_seq d ->
  well_formed d -> well_formed d'.
Proof.
  unfold well_formed, has_application. intros -> -> ->. exact (fun H => H).
Qed.

Lemma well_formed_create (now : Z) (data : JS.object) (d d1 : DB)
    (inc : Included) :
  application_create now data d = Some (inc, d1) ->
  well_formed d -> well_formed d1.
Proof.
  unfold application_create.
  destruct (JS.defined (JS.prop data "positionTitle")
            && JS.defined (JS.prop data "userId")
            && JS.defined (JS.prop data "companyId"))%bool; [| discriminate].
  destruct (application_row now (application_defaults (application_seq d) now)
              data) as [row |] eqn:Hrow; [| discriminate].
  destruct (has_company d (app_companyId row)); [| discriminate].
  intros [= <- <-] [Hkeys Hfk].
  apply application_row_status in Hrow as [Hid _].
  cbn [application_defaults app_id] in Hid.
  split; cbn [applications set_applications application_seq statusHistory].
  - intros a Ha. apply in_app_or in Ha as [Ha | [<- | []]];
      [apply Hkeys in Ha |]; lia.
  - intros h Hh. apply Hfk in Hh. unfold has_application in *.
    cbn [applications set_applications].
    rewrite existsb_app, Hh. reflexivity.
Qed.

Lemma well_formed_update (now n : Z) (data : JS.object) (d d1 : DB)
    (inc : Included) :
  application_update now n data d = Some (inc, d1) ->
  well_formed d -> well_formed d1.
Proof.
  unfold application_update.
  destruct (find (fun a => app_id a =? n) (applications d)) as [old |] eqn:Hold;
    [| discriminate].
  destruct (application_row now old data) as [row |] eqn:Hrow; [| discriminate].
  destruct ((app_companyId row =? app_companyId old)
            || has_company d (app_companyId row))%bool; [| discriminate].
  intros [= <- <-] [Hkeys Hfk].
  apply application_row_status in Hrow as [Hid _].
  apply find_some in Hold as [_ Hn]. apply Z.eqb_eq in Hn.
  assert (Hsame : forall a,
             app_id (if app_id a =? n then row else a) = app_id a).
  { intros a. destruct (app_id a =? n) eqn:E; [| reflexivity].
    apply Z.eqb_eq in E. congruence. }
  split; cbn [applications set_applications application_seq statusHistory].
  - intros a Ha. apply in_map_iff in Ha as (b & <- & Hb).
    rewrite Hsame. apply Hkeys, Hb.
  - intros h Hh. apply Hfk, has_application_true in Hh as (a & Ha & Hk).
    apply has_application_true.
    exists (if app_id a =? n then row else a).
    cbn [applications set_applications].
    split; [| rewrite Hsame; exact Hk].
    apply (in_map (fun a => if app_id a =? n then row else a)), Ha.
Qed.

Lemma well_formed_history (now : Z) (data : JS.object) (d d2 : DB)
    (row : StatusHistory) :
  statusHistory_create now data d = Some (row, d2) ->
  well_formed d -> well_formed d2.
Proof.
  unfold statusHistory_create.
  destruct (required int None (JS.prop data "applicationId")) as [k |];
    [| discriminate].
  destruct (required (enum ApplicationStatus_of_label) None
              (JS.prop data "status")) as [st |]; [| discriminate].
  destruct (nullable text None (JS.prop data "notes")) as [notes |];
    [| discriminate].
  destruct (has_application d k) eqn:Hk; [| discriminate].
  intros [= <- <-] [Hkeys Hfk].
  split; cbn [applications set_statusHistory application_seq statusHistory].
  - exact Hkeys.
  - intros h Hh. apply in_app_or in Hh as [Hh | [<- | []]].
    + apply Hfk, Hh.
    + exact Hk.
Qed.

Lemma well_formed_delete (n : Z) (d : DB) :
  well_formed d -> well_formed (delete_application n d).
Proof.
  intros [Hkeys Hfk].
  split; cbn [applications delete_application application_seq statusHistory].
  - intros a Ha. apply filter_In in Ha as [Ha _]. apply Hkeys, Ha.
  - intros h Hh. apply filter_In in Hh as [Hh Hne].
    apply negb_true_iff, Z.eqb_neq in Hne.
    apply Hfk, has_application_true in Hh as (a & Ha & Hk).
    apply has_application_true. exists a.
    cbn [applications delete_application].
    split; [| exact Hk].
    apply filter_In. split; [exact Ha |].
    apply negb_true_iff, Z.eqb_neq. congruence.
Qed.

Lemma router_well_formed (r : Request) (w : World) :
  well_formed (db w) ->
  well_formed (db (snd (router Date_parse is_url r w))).
Proof.
  intros Hwf.
  destruct (router_answers r w) as (resp & w' & Hrun).
  rewrite Hrun. cbn [snd]. revert Hrun. unfold router.
  destruct (first_match routes (method r) (path r)) as [[h param] |] eqn:Hm.
  2:{ intros [= _ <-]. exact Hwf. }
  destruct h; cbn [run]; intros Hrun.
  - rewrite <- (route_get_all_db (user r) (query r) w) in Hwf.
    rewrite Hrun in Hwf. exact Hwf.
  - rewrite <- (route_get_one_db (user r) param w) in Hwf.
    rewrite Hrun in Hwf. exact Hwf.
  - apply route_post_cases in Hrun
      as [(_ & _ & [-> | [inc Hcreate]])
         | (inc & d1 & row & _ & Hcreate & Hhist & _)].
    + exact Hwf.
    + exact (well_formed_create _ _ _ _ _ Hcreate Hwf).
    + apply (well_formed_history _ _ _ _ _ Hhist).
      exact (well_formed_create _ _ _ _ _ Hcreate Hwf).
  - apply route_put_one_cases in Hrun
      as [[_ ->] | (n & existing & inc & d1 & _ & _ & _ & _ & Hupd & Hcases)];
      [exact Hwf |].
    pose proof (well_formed_update _ _ _ _ _ _ Hupd Hwf) as Hwf1.
    destruct Hcases as [(_ & _ & ->) | [(_ & row & Hhist & _) | (_ & _ & ->)]];
      [exact Hwf1 | | exact Hwf1].
    exact (well_formed_history _ _ _ _ _ Hhist Hwf1).
  - apply route_delete_one_cases in Hrun as [[_ ->] | (n & a & _ & _ & _ & ->)];
      [exact Hwf | apply well_formed_delete, Hwf].
  - exfalso. exact (delete_bulk_never_selected _ _ _ _ Hm eq_refl).
Qed.

(** Well-formedness is an invariant of the system: it holds of the empty
    store and every operation keeps it. *)
Theorem well_formed_invariant (w w' : World) :
  step Date_parse is_url w w' -> well_formed (db w) -> well_formed (db w').
Proof.
  intros Hstep Hwf. destruct Hstep as [r w | u id w | w w' Happs Hsh Hseq].
  - apply router_well_formed, Hwf.
  - destruct (company_route_delete_tables u id w) as (Happs & Hsh & Hseq).
    exact (well_formed_same _ _ Happs Hsh Hseq Hwf).
  - exact (well_formed_same _ _ Happs Hsh Hseq Hwf).
Qed.

Lemma well_formed_fresh : well_formed Sample.fresh.
Proof. split; intros x []. Qed.

End Handlers.

(** * The properties at work on the sample store *)

Section Witnesses.
Import Schema Prisma Http Sample.

Lemma round_trip_witness :
  In "on_site" (storage_values FWorkType) /\
  exists p,
    toPresentation FWorkType "on_site" = JS.Str p /\
    toStorage FWorkType p = JS.Str "on_site".
Proof.
  assert (H : In "on_site" (storage_values FWorkType))
    by (cbn; right; right; left; reflexivity).
  split; [exact H | exact (round_trip FWorkType "on_site" H)].
Defined.

Lemma bulk_delete_unreachable_witness :
  first_match routes DELETE "/bulk" = Some (delete_one, "bulk") /\
  delete_one <> delete_bulk.
Proof.
  assert (H : first_match routes DELETE "/bulk" = Some (delete_one, "bulk"))
    by reflexivity.
  split; [exact H |].
  destruct (bulk_delete_unreachable no_date any_url [] [] 7 0 (world fresh))
    as (_ & _ & _ & Hnever).
  exact (Hnever DELETE "/bulk" delete_one "bulk" H).
Defined.

Lemma delete_leaves_no_orphans_witness :
  let w' := snd (route_delete_one 7 "1" (world (tracked applied))) in
  db w' = delete_application 1 (tracked applied) /\
  (forall a, In a (applications (db w')) -> app_id a <> 1) /\
  (forall h, In h (statusHistory (db w')) -> sh_applicationId h <> 1) /\
  (forall i, In i (interviews (db w')) -> iv_applicationId i <> 1) /\
  (forall t, In t (tasks (db w')) -> task_applicationId t <> Some 1) /\
  (forall x, In x (documents (db w')) -> doc_applicationId x <> Some 1).
Proof.
  exact (delete_leaves_no_orphans 7 "1" 1 (world (tracked applied))
           (snd (route_delete_one 7 "1" (world (tracked applied))))
           {| status := 200;
              payload := Message "Application deleted successfully" |}
           eq_refl eq_refl eq_refl).
Defined.

Lemma history_entries_per_operation_witness :
  let posted := route_post no_date any_url 100 7 new_application (world fresh) in
  let retitled :=
    route_put_one no_date any_url 200 7 "1" retitle (world (tracked applied)) in
  let same :=
    route_put_one no_date any_url 200 7 "1" to_offer (world (tracked offer)) in
  let changed :=
    route_put_one no_date any_url 200 7 "1" to_offer (world (tracked applied)) in
  (exists row,
      statusHistory (db (snd posted)) = statusHistory fresh ++ [row] /\
      (JS.prop new_application "status" = JS.Undefined ->
       sh_status row = applied)) /\
  statusHistory (db (snd retitled)) = statusHistory (tracked applied) /\
  statusHistory (db (snd same)) = statusHistory (tracked offer) /\
  (exists row,
      statusHistory (db (snd changed)) = statusHistory (tracked applied) ++ [row]).
Proof.
  intros posted retitled same changed.
  destruct (history_entries_per_operation no_date any_url)
    as (Hcreate & Habsent & Hsame & Hdiff).
  split; [| split; [| split]].
  - exact (Hcreate 100 7 new_application (world fresh) (snd posted)
             (answer posted) eq_refl eq_refl).
  - exact (Habsent 200 7 "1" retitle (world (tracked applied)) (snd retitled)
             (answer retitled) eq_refl eq_refl).
  - exact (Hsame 200 7 "1" 1 to_offer (world (tracked offer)) (snd same)
             (answer same) (engineer offer) eq_refl eq_refl eq_refl eq_refl).
  - refine (Hdiff 200 7 "1" 1 to_offer (world (tracked applied)) (snd changed)
              (answer changed) (engineer applied) "offer"
              eq_refl eq_refl eq_refl eq_refl eq_refl _).
    discriminate.
Defined.


Lemma status_write_precedes_history_append_witness :
  exists inc d1,
    route_put_one no_date any_url 200 7 "1" to_offer
      {| db := tracked applied; faults := [false; false; true] |}
    = (inl {| status := 500;
              payload := Message "Failed to update application" |},
       {| db := d1; faults := [] |}) /\
    In (the_application inc) (applications d1) /\
    app_id (the_application inc) = 1 /\
    ApplicationStatus_label (app_status (the_application inc)) = "offer" /\
    statusHistory d1 = statusHistory (tracked applied).
Proof.
  destruct (status_write_precedes_history_append no_date any_url)
    as (_ & Hfail).
  refine (Hfail 200 7 "1" 1 to_offer (tracked applied)
            (snd (route_put_one no_date any_url 200 7 "1" to_offer
                    (world (tracked applied))))
            (answer (route_put_one no_date any_url 200 7 "1" to_offer
                       (world (tracked applied))))
            (engineer applied) "offer"
            eq_refl eq_refl eq_refl eq_refl eq_refl _).
  discriminate.
Defined.

Lemma urgent_priority_rejected_witness :
  (exists errors,
      In "priority" errors /\
      route_post no_date any_url 100 7
        (("priority", JS.Str "urgent") :: new_application) (world fresh)
      = (inl {| status := 400; payload := ValidationFailed errors |},
         world fresh)) /\
  (exists errors,
      In "priority" errors /\
      route_put_one no_date any_url 200 7 "1" [("priority", JS.Str "urgent")]
        (world (tracked applied))
      = (inl {| status := 400; payload := ValidationFailed errors |},
         world (tracked applied))).
Proof.
  destruct (urgent_priority_rejected no_date any_url)
    as (_ & _ & Hpost & Hput).
  split.
  - exact (Hpost 100 7 (("priority", JS.Str "urgent") :: new_application)
             (world fresh) eq_refl).
  - exact (Hput 200 7 "1" 1 [("priority", JS.Str "urgent")]
             (world (tracked applied)) eq_refl eq_refl).
Defined.




Lemma history_rows_kept_until_cascade_witness :
  history_kept (tracked applied)
    (db (snd (router no_date any_url (request DELETE "/1" [] 7 300)
                (world (tracked applied))))).
Proof.
  exact (proj1 (history_rows_kept_until_cascade no_date any_url) _ _
           (step_applications no_date any_url (request DELETE "/1" [] 7 300)
              (world (tracked applied)))).
Defined.

End Witnesses.

(** * Where the specification and the code part *)

Section Counterexamples.
Import Schema Prisma Http Sample.


(** C2 as stated fails: with the history append rejected, the update of the
    sample application to 'offer' is answered 500, the stored status is
    'offer', and the history table is as before. *)
Lemma status_visible_without_history_entry :
  let w := {| db := tracked applied; faults := [false; false; true] |} in
  let out := route_put_one no_date any_url 200 7 "1" to_offer w in
  fst out = inl {| status := 500;
                   payload := Message "Failed to update application" |} /\
  map app_status (applications (db w)) = [applied] /\
  map app_status (applications (db (snd out))) = [offer] /\
  statusHistory (db (snd out)) = statusHistory (db w).
Proof. repeat split. Qed.


(** C9 as stated fails: deleting the sample application removes its history
    row. *)
Lemma delete_removes_history_rows :
  let w := world (tracked applied) in
  let out := router no_date any_url (request DELETE "/1" [] 7 300) w in
  In (created applied) (statusHistory (db w)) /\
  fst out = inl {| status := 200;
                   payload := Message "Application deleted successfully" |} /\
  statusHistory (db (snd out)) = [].
Proof. repeat split. left. reflexivity. Qed.

End Counterexamples.

(** * Further properties of the application routes *)

Section FurtherRoutes.
Import Schema Prisma Http.

Variable Date_parse : string -> option Z.
Variable is_url : string -> bool.

(** ** Data objects *)

(** Every column of the row a [data] object describes. *)
Lemma application_row_columns (now : Z) (old row : Application)
    (data : JS.object) :
  application_row now old data = Some row ->
  app_id row = app_id old /\
  app_createdAt row = app_createdAt old /\
  app_updatedAt row = now /\
  required text (Some (app_positionTitle old)) (JS.prop data "positionTitle")
  = Some (app_positionTitle row) /\
  required datetime (Some (app_applicationDate old))
    (JS.prop data "applicationDate") = Some (app_applicationDate row) /\
  required (enum ApplicationStatus_of_label) (Some (app_status old))
    (JS.prop data "status") = Some (app_status row) /\
  nullable text (app_jobDescription old) (JS.prop data "jobDescription")
  = Some (app_jobDescription row) /\
  nullable text (app_requirements old) (JS.prop data "requirements")
  = Some (app_requirements row) /\
  nullable text (app_location old) (JS.prop data "location")
  = Some (app_location row) /\
  nullable text (app_salaryRange old) (JS.prop data "salaryRange")
  = Some (app_salaryRange row) /\
  nullable text (app_applicationUrl old) (JS.prop data "applicationUrl")
  = Some (app_applicationUrl row) /\
  nullable text (app_referralSource old) (JS.prop data "referralSource")
  = Some (app_referralSource row) /\
  required (enum Priority_of_label) (Some (app_priority old))
    (JS.prop data "priority") = Some (app_priority row) /\
  nullable text (app_notes old) (JS.prop data "notes")
  = Some (app_notes row) /\
  nullable (enum EmploymentType_of_label) (app_employmentType old)
    (JS.prop data "employmentType") = Some (app_employmentType row) /\
  nullable (enum WorkType_of_label) (app_workType old)
    (JS.prop data "workType") = Some (app_workType row) /\
  nullable int (app_salaryMin old) (JS.prop data "salaryMin")
  = Some (app_salaryMin row) /\
  nullable int (app_salaryMax old) (JS.prop data "salaryMax")
  = Some (app_salaryMax row) /\
  nullable text (app_source old) (JS.prop data "source")
  = Some (app_source row) /\
  required int (Some (app_userId old)) (JS.prop data "userId")
  = Some (app_userId row) /\
  required int (Some (app_companyId old)) (JS.prop data "companyId")
  = Some (app_companyId row).
Proof.
  unfold application_row.
  repeat match goal with
         | |- context [match ?e with Some _ => _ | None => _ end] =>
             destruct e eqn:?; [| discriminate]
         end.
  intros [= <-]. cbn -[required nullable enum]. repeat split.
Qed.

(** schema.parse keeps the members the schema names and drops the rest. *)
Lemma validated_prop (sch : Zod.schema) (body : JS.object) (k : string) :
  JS.prop (validated sch body) k =
  if existsb (String.eqb k) (map fst sch) then JS.prop body k
  else JS.Undefined.
Proof.
  unfold validated.
  induction sch as [| [k' p] sch IH]; cbn; [reflexivity |].
  destruct (String.eqb k k') eqn:E; cbn; [| exact IH].
  apply String.eqb_eq in E. subst k'. reflexivity.
Qed.

Lemma validated_absent (sch : Zod.schema) (body : JS.object) (k : string) :
  JS.prop body k = JS.Undefined -> JS.prop (validated sch body) k = JS.Undefined.
Proof.
  intros H. rewrite validated_prop, H.
  destruct (existsb (String.eqb k) (map fst sch)); reflexivity.
Qed.

Lemma prop_when_skip (c : bool) (k' : string) (v : JS.value)
    (rest : JS.object) (k : string) :
  (String.eqb k k' = true -> c = false) ->
  JS.prop (JS.when c k' v ++ rest) k = JS.prop rest k.
Proof.
  intros H. rewrite prop_when.
  destruct (String.eqb k k'); [rewrite (H eq_refl) |];
    [reflexivity | rewrite andb_false_r; reflexivity].
Qed.

Lemma prop_when_last_skip (c : bool) (k' : string) (v : JS.value) (k : string) :
  (String.eqb k k' = true -> c = false) ->
  JS.prop (JS.when c k' v) k = JS.Undefined.
Proof.
  intros H. rewrite prop_when_last.
  destruct (String.eqb k k'); [rewrite (H eq_refl) |];
    [reflexivity | rewrite andb_false_r; reflexivity].
Qed.

(** A member the validated body lacks is not in the data PUT builds. *)
Lemma updateData_absent (vd : JS.object) (k : string) :
  JS.prop vd k = JS.Undefined ->
  JS.prop (updateData Date_parse vd) k = JS.Undefined.
Proof.
  intros H. unfold updateData.
  repeat (rewrite prop_when_skip;
          [| intros E; apply String.eqb_eq in E; rewrite <- E, H; reflexivity]).
  apply prop_when_last_skip.
  intros E. apply String.eqb_eq in E. rewrite <- E, H. reflexivity.
Qed.

(** ** PUT: what an update touches *)

Lemma same_key_same_row (d : DB) (a b : Application) :
  primary_key d ->
  In a (applications d) -> In b (applications d) ->
  app_id a = app_id b -> a = b.
Proof.
  unfold primary_key.
  induction (applications d) as [| x l IH]; cbn; [contradiction |].
  intros Hnd [-> | Ha] [-> | Hb] E.
  - reflexivity.
  - apply NoDup_cons_iff in Hnd as [Hx _]. exfalso. apply Hx.
    rewrite E. apply in_map, Hb.
  - apply NoDup_cons_iff in Hnd as [Hx _]. exfalso. apply Hx.
    rewrite <- E. apply in_map, Ha.
  - apply NoDup_cons_iff in Hnd as [_ Hnd]. exact (IH Hnd Ha Hb E).
Qed.

Ltac kept_member Hcol :=
  let Hk := fresh "Hk" in
  intros Hk;
  apply (validated_absent (updateApplicationSchema is_url)) in Hk;
  apply updateData_absent in Hk;
  rewrite Hk in Hcol; cbn in Hcol; congruence.

(** X1. An accepted update rewrites one row, the one named, and in it only
    what the body sends: the key, the owner and the creation time stay
    (even when the body carries members of those names), updatedAt becomes
    the time of the request, and every column whose member is absent from
    the body keeps its stored value. All other rows are left as they
    were. *)
Theorem update_touches_only_sent_members (now u : Z) (id : string) (n : Z)
    (body : JS.object) (w w' : World) (resp : Response)
    (existing : Application) :
  route_put_one Date_parse is_url now u id body w = (inl resp, w') ->
  status resp = 200 ->
  JS.parseInt id = Some n ->
  find (owned_by n u) (applications (db w)) = Some existing ->
  primary_key (db w) ->
  exists row,
    applications (db w')
    = map (fun a => if app_id a =? n then row else a) (applications (db w)) /\
    app_id row = n /\
    app_userId row = u /\
    app_createdAt row = app_createdAt existing /\
    app_updatedAt row = now /\
    kept_unless_sent body "positionTitle" app_positionTitle existing row /\
    kept_unless_sent body "companyId" app_companyId existing row /\
    kept_unless_sent body "status" app_status existing row /\
    kept_unless_sent body "priority" app_priority existing row /\
    kept_unless_sent body "applicationDate" app_applicationDate existing row /\
    kept_unless_sent body "employmentType" app_employmentType existing row /\
    kept_unless_sent body "workType" app_workType existing row /\
    kept_unless_sent body "location" app_location existing row /\
    kept_unless_sent body "salaryMin" app_salaryMin existing row /\
    kept_unless_sent body "salaryMax" app_salaryMax existing row /\
    kept_unless_sent body "source" app_source existing row /\
    kept_unless_sent body "notes" app_notes existing row /\
    kept_unless_sent body "jobDescription" app_jobDescription existing row /\
    kept_unless_sent body "requirements" app_requirements existing row /\
    kept_unless_sent body "salaryRange" app_salaryRange existing row /\
    kept_unless_sent body "applicationUrl" app_applicationUrl existing row /\
    kept_unless_sent body "referralSource" app_referralSource existing row.
Proof.
  intros Hrun H200 Hid Hfind Hpk.
  apply route_put_one_cases in Hrun
    as [[H _] | (n' & existing' & inc & d1 & Hid' & _ & Hfind' & _ & Hupd
                 & Hcases)]; [contradiction |].
  assert (n' = n) by congruence. subst n'.
  assert (existing' = existing) by congruence. subst existing'.
  apply application_update_tables in Hupd
    as (_ & _ & _ & old & Hold & Hrow & Happs).
  assert (Happs' : applications (db w') = applications d1).
  { destruct Hcases as [(_ & _ & ->) | [(_ & r & Hhist & _) | (_ & -> & _)]];
      [reflexivity | | discriminate].
    apply history_row in Hhist as (_ & E & _). exact E. }
  apply find_some in Hfind as [Hin Hown].
  apply andb_true_iff in Hown as [Hn Hu].
  apply Z.eqb_eq in Hn. apply Z.eqb_eq in Hu.
  apply find_some in Hold as [Hin' Hn']. apply Z.eqb_eq in Hn'.
  assert (old = existing)
    by (apply (same_key_same_row (db w)); congruence).
  subst old.
  assert (Huser : JS.prop (updateData Date_parse
                             (validated (updateApplicationSchema is_url) body))
                    "userId" = JS.Undefined).
  { apply updateData_absent. rewrite validated_prop. reflexivity. }
  apply application_row_columns in Hrow
    as (Hkey & Hcreated & Hupdated & Htitle & Hdate & Hstatus & Hjob & Hreq
        & Hloc & Hrange & Hurl & Href & Hprio & Hnotes & Hemp & Hwork & Hmin
        & Hmax & Hsrc & Huid & Hcid).
  rewrite Huser in Huid. cbn in Huid.
  exists (the_application inc).
  split; [congruence |].
  split; [congruence |].
  split; [congruence |].
  split; [exact Hcreated |].
  split; [exact Hupdated |].
  unfold kept_unless_sent.
  repeat apply conj.
  - kept_member Htitle.
  - kept_member Hcid.
  - kept_member Hstatus.
  - kept_member Hprio.
  - kept_member Hdate.
  - kept_member Hemp.
  - kept_member Hwork.
  - kept_member Hloc.
  - kept_member Hmin.
  - kept_member Hmax.
  - kept_member Hsrc.
  - kept_member Hnotes.
  - kept_member Hjob.
  - kept_member Hreq.
  - kept_member Hrange.
  - kept_member Hurl.
  - kept_member Href.
Qed.

(** ** POST: what a creation writes *)

(** The outcomes of POST /, with the company it found: nothing written
    (400 or 500); the application row alone (500, the history append was
    rejected); or the row and its history entry (201). *)
Lemma route_post_outcomes (now u : Z) (body : JS.object) (w w' : World)
    (resp : Response) :
  route_post Date_parse is_url now u body w = (inl resp, w') ->
  (db w' = db w /\ (status resp = 400 \/ status resp = 500)) \/
  (exists cid c inc,
      Zod.issues (createApplicationSchema is_url) body = [] /\
      JS.prop body "companyId" = JS.Int cid /\
      find (fun c => (co_id c =? cid) && (co_userId c =? u))%bool
        (companies (db w)) = Some c /\
      application_create now
        (applicationData Date_parse u
           (validated (createApplicationSchema is_url) body)) (db w)
      = Some (inc, db w') /\
      resp = {| status := 500;
                payload := Message "Failed to create application" |}) \/
  (exists cid c inc d1 row,
      Zod.issues (createApplicationSchema is_url) body = [] /\
      JS.prop body "companyId" = JS.Int cid /\
      find (fun c => (co_id c =? cid) && (co_userId c =? u))%bool
        (companies (db w)) = Some c /\
      application_create now
        (applicationData Date_parse u
           (validated (createApplicationSchema is_url) body)) (db w)
      = Some (inc, d1) /\
      statusHistory_create now (history_data inc "Application created") d1
      = Some (row, db w') /\
      resp = {| status := 201;
                payload := ApplicationSaved
                             "Application created successfully" inc |}).
Proof.
  unfold route_post, try_catch, bind, send, ret, Zod.parse.
  destruct (Zod.issues (createApplicationSchema is_url) body) eqn:Hissues.
  2:{ unfold throw. intros [= <- <-]. left. split; [reflexivity | left; reflexivity]. }
  unfold ret. fold (validated (createApplicationSchema is_url) body).
  set (vd := validated (createApplicationSchema is_url) body).
  assert (Hcompany : JS.prop vd "companyId" = JS.prop body "companyId")
    by reflexivity.
  rewrite call_eq.
  destruct (hd false (faults w)).
  { intros [= <- <-]. left. split; [reflexivity | right; reflexivity]. }
  unfold company_findFirst.
  destruct (int (JS.prop vd "companyId")) as [cid |] eqn:Hint.
  2:{ intros [= <- <-]. left. split; [reflexivity | right; reflexivity]. }
  assert (Hcid : JS.prop body "companyId" = JS.Int cid).
  { rewrite <- Hcompany. destruct (JS.prop vd "companyId"); try discriminate.
    cbn in Hint. congruence. }
  destruct (find (fun c => (co_id c =? cid) && (co_userId c =? u))%bool
              (companies (db w))) as [c |] eqn:Hco.
  2:{ intros [= <- <-]. left. split; [reflexivity | left; reflexivity]. }
  rewrite call_eq. cbn [db faults].
  destruct (hd false (tl (faults w))).
  { intros [= <- <-]. left. split; [reflexivity | right; reflexivity]. }
  destruct (application_create now (applicationData Date_parse u vd) (db w))
    as [[inc d1] |] eqn:Hcreate.
  2:{ intros [= <- <-]. left. split; [reflexivity | right; reflexivity]. }
  fold (history_data inc "Application created").
  rewrite call_eq. cbn [db faults].
  destruct (hd false (tl (tl (faults w)))).
  { intros [= <- <-]. right. left. exists cid, c, inc. repeat split; assumption. }
  destruct (statusHistory_create now (history_data inc "Application created")
              d1) as [[row d2] |] eqn:Hhist.
  - intros [= <- <-]. right. right. exists cid, c, inc, d1, row.
    repeat split; assumption.
  - intros [= <- <-]. right. left. exists cid, c, inc. repeat split; assumption.
Qed.

(** POST for a valid body naming a company that is not the caller's. *)
Lemma route_post_company_refused (now u : Z) (body : JS.object) (w : World)
    (cid : Z) :
  Zod.issues (createApplicationSchema is_url) body = [] ->
  JS.prop body "companyId" = JS.Int cid ->
  company_not_owned (db w) cid u ->
  hd false (faults w) = false ->
  route_post Date_parse is_url now u body w
  = (inl company_refused, {| db := db w; faults := tl (faults w) |}).
Proof.
  intros Hnil Hcid Hnot Hok.
  unfold route_post, try_catch, bind, send, ret, Zod.parse.
  rewrite Hnil. unfold ret.
  fold (validated (createApplicationSchema is_url) body).
  rewrite call_eq, Hok. unfold company_findFirst.
  change (JS.prop (validated (createApplicationSchema is_url) body) "companyId")
    with (JS.prop body "companyId").
  rewrite Hcid. cbn [int].
  replace (find (fun c => (co_id c =? cid) && (co_userId c =? u))%bool
             (companies (db w))) with (@None Company); [reflexivity |].
  symmetry. apply find_none_iff. intros c Hc.
  destruct (co_id c =? cid) eqn:E; [| reflexivity].
  apply Z.eqb_eq in E. apply (Hnot c Hc) in E.
  apply Z.eqb_neq in E. rewrite E. reflexivity.
Qed.

(** X2. A creation answered 201 appends one row to the Application table and
    leaves the others as they were: the new row takes its key from the
    sequence, belongs to the caller, and refers to a company that belongs
    to the caller. A valid body naming a company that is not the caller's
    is answered 400 'Company not found or does not belong to user', with
    nothing written. *)
Theorem created_application_belongs_to_caller :
  (forall now u body w w' resp,
      route_post Date_parse is_url now u body w = (inl resp, w') ->
      status resp = 201 ->
      exists a c,
        applications (db w') = applications (db w) ++ [a] /\
        app_id a = application_seq (db w) /\
        app_userId a = u /\
        app_createdAt a = now /\
        In c (companies (db w)) /\
        co_id c = app_companyId a /\
        co_userId c = u) /\
  (forall now u body w cid,
      Zod.issues (createApplicationSchema is_url) body = [] ->
      JS.prop body "companyId" = JS.Int cid ->
      company_not_owned (db w) cid u ->
      hd false (faults w) = false ->
      fst (route_post Date_parse is_url now u body w) = inl company_refused /\
      db (snd (route_post Date_parse is_url now u body w)) = db w).
Proof.
  split.
  - intros now u body w w' resp Hrun H201.
    apply route_post_outcomes in Hrun
      as [(_ & [H | H]) | [(cid & c & inc & _ & _ & _ & _ & ->)
         | (cid & c & inc & d1 & row & _ & Hcid & Hco & Hcreate & Hhist & _)]];
      try congruence; try discriminate.
    apply application_create_tables in Hcreate as (_ & Happs & Hrow).
    apply history_row in Hhist as (_ & Happs' & _).
    apply application_row_columns in Hrow
      as (Hkey & Hcreated & _ & _ & _ & _ & _ & _ & _ & _ & _ & _ & _ & _ & _
          & _ & _ & _ & _ & Huid & Hcompany).
    change (JS.prop (applicationData Date_parse u
                       (validated (createApplicationSchema is_url) body))
              "userId") with (JS.Int u) in Huid.
    change (JS.prop (applicationData Date_parse u
                       (validated (createApplicationSchema is_url) body))
              "companyId") with (JS.prop body "companyId") in Hcompany.
    rewrite Hcid in Hcompany. cbn in Huid, Hcompany, Hkey, Hcreated.
    apply find_some in Hco as [Hin Hc].
    apply andb_true_iff in Hc as [Hc1 Hc2].
    apply Z.eqb_eq in Hc1. apply Z.eqb_eq in Hc2.
    exists (the_application inc), c.
    repeat split; congruence.
  - intros now u body w cid Hnil Hcid Hnot Hok.
    rewrite (route_post_company_refused now u body w cid Hnil Hcid Hnot Hok).
    split; reflexivity.
Qed.

(** X3. The creation is no more atomic than the update: when an accepted
    creation is replayed with the history append rejected, the answer is 500
    and the store keeps the new application row, for which a well-formed
    store then holds no history entry at all. *)
Theorem creation_survives_failed_append (now u : Z) (body : JS.object)
    (d : DB) (w' : World) (resp : Response) :
  route_post Date_parse is_url now u body {| db := d; faults := [] |}
  = (inl resp, w') ->
  status resp = 201 ->
  exists a d1,
    route_post Date_parse is_url now u body
      {| db := d; faults := [false; false; true] |}
    = (inl {| status := 500; payload := Message "Failed to create application" |},
       {| db := d1; faults := [] |}) /\
    applications d1 = applications d ++ [a] /\
    statusHistory d1 = statusHistory d /\
    (well_formed d ->
     forall h, In h (statusHistory d1) -> sh_applicationId h <> app_id a).
Proof.
  intros Hrun H201.
  apply route_post_outcomes in Hrun
    as [(_ & [H | H]) | [(cid & c & inc & _ & _ & _ & _ & ->)
       | (cid & c & inc & d1 & row & Hnil & Hcid & Hco & Hcreate & _ & _)]];
    try congruence; try discriminate.
  cbn [db] in Hco, Hcreate.
  exists (the_application inc), d1.
  pose proof (application_create_tables _ _ _ _ _ Hcreate) as (Hsh & Happs & Hrow).
  split; [| split; [exact Happs | split; [exact Hsh |]]].
  - unfold route_post, try_catch, bind, send, ret, Zod.parse.
    rewrite Hnil. unfold ret.
    fold (validated (createApplicationSchema is_url) body).
    rewrite call_eq. cbn [hd tl faults db]. unfold company_findFirst.
    change (JS.prop (validated (createApplicationSchema is_url) body)
              "companyId") with (JS.prop body "companyId").
    rewrite Hcid. cbn [int]. rewrite Hco.
    rewrite call_eq. cbn [hd tl faults db]. rewrite Hcreate.
    rewrite call_eq. cbn [hd tl faults db]. reflexivity.
  - intros [Hkeys Hfk] h Hh E. rewrite Hsh in Hh.
    apply application_row_status in Hrow as [Hkey _].
    cbn [application_defaults app_id] in Hkey.
    apply Hfk, has_application_true in Hh as (a & Ha & Hak).
    apply Hkeys in Ha. lia.
Qed.

(** ** PUT: the company is checked again *)

(** X4. An update that moves the caller's application to a company that is
    not the caller's (or does not exist) is answered 400 'Company not found
    or does not belong to user' and writes nothing, whatever else the body
    asks for. *)
Theorem update_company_refused (now u : Z) (id : string) (n cid : Z)
    (body : JS.object) (w : World) (existing : Application) :
  JS.parseInt id = Some n ->
  Zod.issues (updateApplicationSchema is_url) body = [] ->
  find (owned_by n u) (applications (db w)) = Some existing ->
  JS.prop body "companyId" = JS.Int cid ->
  company_not_owned (db w) cid u ->
  hd false (faults w) = false ->
  hd false (tl (faults w)) = false ->
  fst (route_put_one Date_parse is_url now u id body w) = inl company_refused /\
  db (snd (route_put_one Date_parse is_url now u id body w)) = db w.
Proof.
  intros Hid Hnil Hfind Hcid Hnot Hok1 Hok2.
  assert (Hpos : JS.truthy (JS.Int cid) = true).
  { eapply (issues_nil _ _ "companyId") in Hnil.
    2:{ cbn. left. reflexivity. }
    rewrite Hcid in Hnil. cbn in Hnil. apply Z.ltb_lt in Hnil.
    cbn. apply negb_true_iff, Z.eqb_neq. lia. }
  assert (Hnone : find (fun c => (co_id c =? cid) && (co_userId c =? u))%bool
                    (companies (db w)) = None).
  { apply find_none_iff. intros c Hc.
    destruct (co_id c =? cid) eqn:E; [| reflexivity].
    apply Z.eqb_eq in E. apply (Hnot c Hc) in E.
    apply Z.eqb_neq in E. rewrite E. reflexivity. }
  unfold route_put_one, try_catch, bind, send, ret, Zod.parse.
  rewrite Hid, Hnil. unfold ret.
  fold (validated (updateApplicationSchema is_url) body).
  change (JS.prop (validated (updateApplicationSchema is_url) body) "companyId")
    with (JS.prop body "companyId").
  rewrite Hcid, Hpos.
  rewrite call_eq, Hok1. unfold application_findFirst. rewrite Hfind.
  rewrite call_eq. cbn [db faults]. rewrite Hok2.
  unfold company_findFirst. cbn [int]. rewrite Hnone.
  split; reflexivity.
Qed.

(** ** DELETE: what a deletion keeps *)

Lemma refers_true (fk : option Z) (n : Z) : refers fk n = true <-> fk = Some n.
Proof.
  destruct fk as [k |]; cbn; [| split; discriminate].
  rewrite Z.eqb_eq. split; congruence.
Qed.

(** X5. A deletion answered 200 removes nothing but the application named
    and the rows that refer to it: the Company table and the sequences stay,
    and each other table holds after it exactly the rows it held before
    that do not refer to the deleted application. *)
Theorem delete_keeps_other_rows (u : Z) (id : string) (n : Z) (w w' : World)
    (resp : Response) :
  JS.parseInt id = Some n ->
  route_delete_one u id w = (inl resp, w') ->
  status resp = 200 ->
  companies (db w') = companies (db w) /\
  application_seq (db w') = application_seq (db w) /\
  statusHistory_seq (db w') = statusHistory_seq (db w) /\
  (forall a, In a (applications (db w')) <->
             In a (applications (db w)) /\ app_id a <> n) /\
  (forall h, In h (statusHistory (db w')) <->
             In h (statusHistory (db w)) /\ sh_applicationId h <> n) /\
  (forall i, In i (interviews (db w')) <->
             In i (interviews (db w)) /\ iv_applicationId i <> n) /\
  (forall t, In t (tasks (db w')) <->
             In t (tasks (db w)) /\ task_applicationId t <> Some n) /\
  (forall x, In x (documents (db w')) <->
             In x (documents (db w)) /\ doc_applicationId x <> Some n).
Proof.
  intros Hid Hrun H200.
  apply route_delete_one_cases in Hrun
    as [[Hne _] | (n' & a & Hid' & _ & _ & ->)]; [contradiction |].
  assert (n' = n) by congruence. subst n'.
  cbn [delete_application companies applications statusHistory interviews
         tasks documents application_seq statusHistory_seq].
  repeat apply conj; try reflexivity;
    intros r; rewrite filter_In, negb_true_iff;
    first [ rewrite Z.eqb_neq; reflexivity
          | rewrite <- not_true_iff_false, refers_true; reflexivity ].
Qed.

(** ** GET /:id: what a fetch shows *)

Lemma order_by_in {A : Type} (leb : A -> A -> bool) (l : list A) (x : A) :
  In x (order_by leb l) <-> In x l.
Proof.
  split; intros H.
  - apply (Permutation_in x (order_by_perm leb l)), H.
  - apply (Permutation_in x (Permutation_sym (order_by_perm leb l))), H.
Qed.

(** X6. A fetch answered 200 shows an application with the key asked for
    that belongs to the caller, together with exactly the history rows,
    interviews, tasks and documents that refer to it, and writes
    nothing. *)
Theorem fetch_shows_own_application (u : Z) (id : string) (w w' : World)
    (resp : Response) :
  route_get_one u id w = (inl resp, w') ->
  status resp = 200 ->
  exists n inc,
    JS.parseInt id = Some n /\
    payload resp = ApplicationFound inc /\
    In (the_application inc) (applications (db w)) /\
    app_id (the_application inc) = n /\
    app_userId (the_application inc) = u /\
    (exists hs, with_statusHistory inc = Some hs /\
       forall h, In h hs <->
                 In h (statusHistory (db w)) /\ sh_applicationId h = n) /\
    (exists ivs, with_interviews inc = Some ivs /\
       forall i, In i ivs <->
                 In i (interviews (db w)) /\ iv_applicationId i = n) /\
    (exists ts, with_tasks inc = Some ts /\
       forall t, In t ts <->
                 In t (tasks (db w)) /\ task_applicationId t = Some n) /\
    (exists ds, with_documents inc = Some ds /\
       forall x, In x ds <->
                 In x (documents (db w)) /\ doc_applicationId x = Some n) /\
    db w' = db w.
Proof.
  unfold route_get_one, try_catch, bind, send, ret.
  destruct (JS.parseInt id) as [n |]; [| intros [= <- <-]; discriminate].
  rewrite call_eq.
  destruct (hd false (faults w)); [intros [= <- <-]; discriminate |].
  unfold application_findFirst_included.
  destruct (find (owned_by n u) (applications (db w))) as [a |] eqn:Hfind;
    cbn [option_map]; [| intros [= <- <-]; discriminate].
  intros [= <- <-] _.
  apply find_some in Hfind as [Hin Hown].
  apply andb_true_iff in Hown as [Hn Hu].
  apply Z.eqb_eq in Hn. apply Z.eqb_eq in Hu.
  eexists n, _. cbn [payload the_application with_statusHistory
                       with_interviews with_tasks with_documents db].
  split; [reflexivity |]. split; [reflexivity |].
  split; [exact Hin |]. split; [exact Hn |]. split; [exact Hu |].
  rewrite Hn.
  split; [| split; [| split; [| split; [| reflexivity]]]];
    eexists; (split; [reflexivity |]); intros r;
    unfold statusHistory_of, interviews_of, tasks_of, documents_of;
    rewrite order_by_in, filter_In;
    first [ rewrite Z.eqb_eq; reflexivity | rewrite refers_true; reflexivity ].
Qed.

(** ** The router: which requests write *)

(** A GET selects one of the two reading handlers. *)
Lemma get_selects_reader (p : string) (h : Handler) (param : string) :
  first_match routes GET p = Some (h, param) -> h = get_all \/ h = get_one.
Proof.
  cbn [first_match routes Method_eqb matches].
  destruct (String.eqb p "" || String.eqb p "/")%bool;
    [intros [= <- _]; left; reflexivity |].
  destruct (segment p); [intros [= <- _]; right; reflexivity | discriminate].
Qed.

(** X7. A request the application router answers with 400 or 404, and every
    GET whatever its answer, leaves the store as it was. *)
Theorem rejected_requests_write_nothing (r : Request) (w w' : World)
    (resp : Response) :
  router Date_parse is_url r w = (inl resp, w') ->
  status resp = 400 \/ status resp = 404 \/ method r = GET ->
  db w' = db w.
Proof.
  unfold router.
  destruct (first_match routes (method r) (path r)) as [[h param] |] eqn:Hm.
  2:{ intros [= _ <-] _. reflexivity. }
  intros Hrun Hwhy.
  assert (Hreader : method r = GET -> h = get_all \/ h = get_one).
  { intros E. rewrite E in Hm. exact (get_selects_reader _ _ _ Hm). }
  destruct h; cbn [run] in Hrun.
  - rewrite <- (route_get_all_db (user r) (query r) w), Hrun. reflexivity.
  - rewrite <- (route_get_one_db (user r) param w), Hrun. reflexivity.
  - apply route_post_outcomes in Hrun
      as [(E & _) | [(cid & c & inc & _ & _ & _ & _ & ->)
         | (cid & c & inc & d1 & row & _ & _ & _ & _ & _ & ->)]];
      [exact E | |];
      destruct Hwhy as [H | [H | H]]; try discriminate;
      destruct (Hreader H); discriminate.
  - apply route_put_one_cases in Hrun
      as [[_ E] | (n & existing & inc & d1 & _ & _ & _ & _ & _ & Hcases)];
      [exact E |].
    destruct Hcases as [(_ & -> & _) | [(_ & row & _ & ->) | (_ & -> & _)]];
      destruct Hwhy as [H | [H | H]]; try discriminate;
      destruct (Hreader H); discriminate.
  - apply route_delete_one_cases in Hrun
      as [[_ E] | (n & a & _ & _ & -> & _)]; [exact E |].
    destruct Hwhy as [H | [H | H]]; try discriminate;
      destruct (Hreader H); discriminate.
  - exfalso. exact (delete_bulk_never_selected _ _ _ _ Hm eq_refl).
Qed.

(** ** The bulk handler *)


(** Selecting rows keeps their keys distinct. *)
Lemma keys_of_selection (keep : Application -> bool)
    (rows : list Application) :
  NoDup (map app_id rows) -> NoDup (map app_id (filter keep rows)).
Proof.
  induction rows as [| a rows IH]; cbn; [trivial |].
  rewrite NoDup_cons_iff. intros [Ha Hrows].
  destruct (keep a); cbn; [| exact (IH Hrows)].
  constructor; [| exact (IH Hrows)].
  rewrite in_map_iff. intros (b & E & Hb).
  apply filter_In in Hb as [Hb _].
  apply Ha. rewrite <- E. apply in_map, Hb.
Qed.




(** ** The two schemas *)

Lemma partial_in (sch : Zod.schema) (k : string) (q : Zod.check) :
  In (k, q) (Zod.partial sch) ->
  exists p, In (k, p) sch /\ q = Zod.optional p.
Proof.
  unfold Zod.partial. intros H.
  apply in_map_iff in H as ([k' p] & [= <- <-] & Hin).
  exists p. split; [exact Hin | reflexivity].
Qed.

Lemma partial_issues (sch : Zod.schema) (body : JS.object) (k : string) :
  In k (Zod.issues (Zod.partial sch) body) -> In k (Zod.issues sch body).
Proof.
  unfold Zod.issues at 1. intros H.
  apply in_map_iff in H as ([k' q] & E & Hin). cbn in E. subst k'.
  apply filter_In in Hin as [Hin Hq]. cbn in Hq. apply negb_true_iff in Hq.
  apply partial_in in Hin as (p & Hin & ->).
  apply (issues_in sch body k p Hin).
  unfold Zod.optional in Hq.
  destruct (JS.prop body k); try discriminate; exact Hq.
Qed.

(** X9. The update schema asks for nothing and otherwise checks what the
    create schema checks: every member the update schema refuses is refused
    by the create schema too, a body with no member of the schema at all
    passes the update schema, and the create schema refuses every body that
    lacks companyId or positionTitle. *)
Theorem update_schema_is_create_schema_made_optional (body : JS.object) :
  (forall k, In k (Zod.issues (updateApplicationSchema is_url) body) ->
             In k (Zod.issues (createApplicationSchema is_url) body)) /\
  ((forall k, In k (map fst (createApplicationSchema is_url)) ->
              JS.prop body k = JS.Undefined) ->
   Zod.issues (updateApplicationSchema is_url) body = []) /\
  (JS.prop body "companyId" = JS.Undefined ->
   In "companyId" (Zod.issues (createApplicationSchema is_url) body)) /\
  (JS.prop body "positionTitle" = JS.Undefined ->
   In "positionTitle" (Zod.issues (createApplicationSchema is_url) body)).
Proof.
  repeat apply conj.
  - intros k. apply partial_issues.
  - intros Habsent.
    destruct (Zod.issues (updateApplicationSchema is_url) body) as [| k l] eqn:E;
      [reflexivity | exfalso].
    assert (Hk : In k (Zod.issues (updateApplicationSchema is_url) body))
      by (rewrite E; left; reflexivity).
    unfold Zod.issues in Hk.
    apply in_map_iff in Hk as ([k' q] & Ek & Hin). cbn in Ek. subst k'.
    apply filter_In in Hin as [Hin Hq]. cbn in Hq. apply negb_true_iff in Hq.
    apply partial_in in Hin as (p & Hin & ->).
    rewrite (Habsent k) in Hq; [discriminate |].
    apply (in_map fst) in Hin. exact Hin.
  - intros H. eapply issues_in.
    + cbn. left. reflexivity.
    + rewrite H. reflexivity.
  - intros H. eapply issues_in.
    + cbn. right. left. reflexivity.
    + rewrite H. reflexivity.
Qed.

(** ** Validated members and the mappers *)

Lemma enum_member (members : list string) (s : string) :
  Zod.enum members (JS.Str s) = true -> In s members.
Proof.
  cbn. intros H. apply existsb_exists in H as (m & Hm & E).
  apply String.eqb_eq in E. subst m. exact Hm.
Qed.

(** X10. Behind the schemas the mappers never fall back and never fail: for
    a body the create or the update schema accepts, each of employmentType,
    workType, priority and status that the body sends is a key of its
    mapping table, and the mapper sends it to the label of a member of the
    column's type (never 'urgent' for the priority), so the store takes the
    value. *)
Theorem validated_members_map_to_labels (body : JS.object) :
  Zod.issues (updateApplicationSchema is_url) body = [] \/
  Zod.issues (createApplicationSchema is_url) body = [] ->
  (forall s, JS.prop body "employmentType" = JS.Str s ->
     exists e,
       JS.own FieldMapper.employmentType_mapping s
       = Some (EmploymentType_label e) /\
       FieldMapper.mapEmploymentType s = JS.Str (EmploymentType_label e)) /\
  (forall s, JS.prop body "workType" = JS.Str s ->
     exists e,
       JS.own FieldMapper.workType_mapping s = Some (WorkType_label e) /\
       FieldMapper.mapWorkType s = JS.Str (WorkType_label e)) /\
  (forall s, JS.prop body "priority" = JS.Str s ->
     exists e,
       e <> urgent /\
       JS.own FieldMapper.priority_mapping s = Some (Priority_label e) /\
       FieldMapper.mapPriority s = JS.Str (Priority_label e)) /\
  (forall s, JS.prop body "status" = JS.Str s ->
     exists e,
       JS.own FieldMapper.status_mapping s = Some (ApplicationStatus_label e) /\
       FieldMapper.mapStatus s = JS.Str (ApplicationStatus_label e)).
Proof.
  intros Hok.
  assert (Hnil : Zod.issues (updateApplicationSchema is_url) body = []).
  { destruct Hok as [H | H]; [exact H |].
    destruct (Zod.issues (updateApplicationSchema is_url) body) as [| k l] eqn:E;
      [reflexivity | exfalso].
    assert (Hk : In k (Zod.issues (createApplicationSchema is_url) body)).
    { apply partial_issues. fold (updateApplicationSchema is_url).
      rewrite E. left. reflexivity. }
    rewrite H in Hk. contradiction. }
  repeat apply conj; intros s Hs.
  - eapply (issues_nil _ _ "employmentType") in Hnil.
    2:{ cbn. do 4 right. left. reflexivity. }
    rewrite Hs in Hnil. cbn [Zod.optional] in Hnil.
    apply enum_member in Hnil. cbn in Hnil.
    destruct Hnil as [<- | [<- | [<- | [<- | []]]]].
    + exists full_time. split; reflexivity.
    + exists part_time. split; reflexivity.
    + exists contract. split; reflexivity.
    + exists internship. split; reflexivity.
  - eapply (issues_nil _ _ "workType") in Hnil.
    2:{ cbn. do 5 right. left. reflexivity. }
    rewrite Hs in Hnil. cbn [Zod.optional] in Hnil.
    apply enum_member in Hnil. cbn in Hnil.
    destruct Hnil as [<- | [<- | [<- | []]]].
    + exists remote. split; reflexivity.
    + exists hybrid. split; reflexivity.
    + exists on_site. split; reflexivity.
  - eapply (issues_nil _ _ "priority") in Hnil.
    2:{ cbn. do 10 right. left. reflexivity. }
    rewrite Hs in Hnil. cbn [Zod.optional] in Hnil.
    apply enum_member in Hnil. cbn in Hnil.
    destruct Hnil as [<- | [<- | [<- | []]]].
    + exists low. repeat split. discriminate.
    + exists medium. repeat split. discriminate.
    + exists high. repeat split. discriminate.
  - eapply (issues_nil _ _ "status") in Hnil.
    2:{ cbn. do 3 right. left. reflexivity. }
    rewrite Hs in Hnil. cbn [Zod.optional] in Hnil.
    apply enum_member in Hnil. cbn in Hnil.
    destruct Hnil as [<- | [<- | [<- | [<- | [<- | [<- | [<- | []]]]]]]].
    + exists applied. split; reflexivity.
    + exists reviewing. split; reflexivity.
    + exists interview_scheduled. split; reflexivity.
    + exists interviewed. split; reflexivity.
    + exists offer. split; reflexivity.
    + exists rejected. split; reflexivity.
    + exists withdrawn. split; reflexivity.
Qed.

(** ** DELETE of a company *)

(** X11. Deleting a company never takes applications with it. While an
    application refers to the caller's company the request is refused with
    400 and the count of those applications; a deletion that goes through
    removes the company row and nothing else. In every case the five other
    tables are as before. *)
Theorem company_delete_spares_applications (u : Z) (id : string)
    (w w' : World) (resp : Response) :
  company_route_delete u id w = (inl resp, w') ->
  applications (db w') = applications (db w) /\
  statusHistory (db w') = statusHistory (db w) /\
  interviews (db w') = interviews (db w) /\
  tasks (db w') = tasks (db w) /\
  documents (db w') = documents (db w) /\
  (status resp <> 200 -> companies (db w') = companies (db w)) /\
  (status resp = 200 ->
   exists n,
     JS.parseInt id = Some n /\
     (forall a, In a (applications (db w)) -> app_companyId a <> n) /\
     companies (db w')
     = filter (fun c => negb (co_id c =? n)) (companies (db w))) /\
  (forall n c,
      JS.parseInt id = Some n ->
      hd false (faults w) = false ->
      find (fun c => (co_id c =? n) && (co_userId c =? u))%bool
        (companies (db w)) = Some c ->
      (exists a, In a (applications (db w)) /\ app_companyId a = n) ->
      exists count,
        0 < count /\
        resp = {| status := 400; payload := CompanyHasApplications count |}).
Proof.
  unfold company_route_delete, try_catch, bind, send, ret.
  destruct (JS.parseInt id) as [n |].
  2:{ intros [= <- <-]. repeat split; try easy. }
  rewrite call_eq.
  destruct (hd false (faults w)) eqn:Hok.
  { intros [= <- <-]. repeat split; try easy. }
  unfold company_findFirst_count.
  destruct (find (fun c => (co_id c =? n) && (co_userId c =? u))%bool
              (companies (db w))) as [c |] eqn:Hc; cbn [option_map].
  2:{ intros [= <- <-]. repeat split; try easy.
      intros n' c' [= <-] _ Hf _. congruence. }
  pose proof Hc as Hfound.
  apply find_some in Hc as [_ Hc]. apply andb_true_iff in Hc as [Hc _].
  apply Z.eqb_eq in Hc. rewrite Hc.
  set (refs := filter (fun a => app_companyId a =? n) (applications (db w))).
  destruct (0 <? Z.of_nat (List.length refs)) eqn:Hcount.
  { intros [= <- <-]. apply Z.ltb_lt in Hcount.
    repeat split; try discriminate.
    intros n' c' [= <-] _ _ _. eexists. split; [exact Hcount | reflexivity]. }
  apply Z.ltb_ge in Hcount.
  assert (Hrefs : refs = []) by (destruct refs; [reflexivity | cbn in Hcount; lia]).
  assert (Hnone : forall a, In a (applications (db w)) -> app_companyId a <> n).
  { intros a Ha E.
    assert (Hin : In a refs)
      by (apply filter_In; split; [exact Ha | apply Z.eqb_eq, E]).
    rewrite Hrefs in Hin. contradiction. }
  rewrite call_eq. cbn [db faults].
  destruct (hd false (tl (faults w))).
  { intros [= <- <-]. repeat split; try discriminate.
    intros n' c' [= <-] _ _ (a & Ha & E). exfalso. exact (Hnone a Ha E). }
  unfold company_delete.
  destruct (has_company (db w) n).
  2:{ intros [= <- <-]. repeat split; try discriminate.
      intros n' c' [= <-] _ _ (a & Ha & E). exfalso. exact (Hnone a Ha E). }
  intros [= <- <-]. cbn [db]. unfold delete_company. fold refs. rewrite Hrefs.
  cbn [map fold_right companies applications statusHistory interviews tasks
         documents].
  repeat split; try discriminate.
  - intros H. exfalso. apply H. reflexivity.
  - intros _. exists n. repeat split. exact Hnone.
  - intros n' c' [= <-] _ _ (a & Ha & E). exfalso. exact (Hnone a Ha E).
Qed.

(** ** The primary key *)

Lemma primary_key_create (now : Z) (data : JS.object) (d d1 : DB)
    (inc : Included) :
  application_create now data d = Some (inc, d1) ->
  well_formed d -> primary_key d -> primary_key d1.
Proof.
  intros Hcreate [Hkeys _] Hpk.
  apply application_create_tables in Hcreate as (_ & Happs & Hrow).
  apply application_row_status in Hrow as [Hkey _].
  cbn [application_defaults app_id] in Hkey.
  unfold primary_key. rewrite Happs, map_app. cbn [map].
  apply (Permutation_NoDup (Permutation_cons_append _ _)).
  constructor; [| exact Hpk].
  intros Hin. apply in_map_iff in Hin as (a & E & Ha).
  apply Hkeys in Ha. lia.
Qed.

Lemma primary_key_update (now n : Z) (data : JS.object) (d d1 : DB)
    (inc : Included) :
  application_update now n data d = Some (inc, d1) ->
  primary_key d -> primary_key d1.
Proof.
  intros Hupd Hpk.
  apply application_update_tables in Hupd
    as (_ & _ & _ & old & Hold & Hrow & Happs).
  apply application_row_status in Hrow as [Hkey _].
  apply find_some in Hold as [_ Hn]. apply Z.eqb_eq in Hn.
  unfold primary_key. rewrite Happs, map_map.
  erewrite map_ext; [exact Hpk |].
  intros a. cbn. destruct (app_id a =? n) eqn:E; [| reflexivity].
  apply Z.eqb_eq in E. congruence.
Qed.

Lemma primary_key_delete (n : Z) (d : DB) :
  primary_key d -> primary_key (delete_application n d).
Proof. unfold primary_key. cbn. apply keys_of_selection. Qed.

Lemma router_primary_key (r : Request) (w : World) :
  well_formed (db w) -> primary_key (db w) ->
  primary_key (db (snd (router Date_parse is_url r w))).
Proof.
  intros Hwf Hpk.
  destruct (router_answers Date_parse is_url r w) as (resp & w' & Hrun).
  rewrite Hrun. cbn [snd]. revert Hrun. unfold router.
  destruct (first_match routes (method r) (path r)) as [[h param] |] eqn:Hm.
  2:{ intros [= _ <-]. exact Hpk. }
  destruct h; cbn [run]; intros Hrun.
  - rewrite <- (route_get_all_db (user r) (query r) w) in Hpk.
    rewrite Hrun in Hpk. exact Hpk.
  - rewrite <- (route_get_one_db (user r) param w) in Hpk.
    rewrite Hrun in Hpk. exact Hpk.
  - apply route_post_cases in Hrun
      as [(_ & _ & [-> | [inc Hcreate]])
         | (inc & d1 & row & _ & Hcreate & Hhist & _)].
    + exact Hpk.
    + exact (primary_key_create _ _ _ _ _ Hcreate Hwf Hpk).
    + apply history_row in Hhist as (_ & Happs & _).
      unfold primary_key. rewrite Happs.
      exact (primary_key_create _ _ _ _ _ Hcreate Hwf Hpk).
  - apply route_put_one_cases in Hrun
      as [[_ ->] | (n & existing & inc & d1 & _ & _ & _ & _ & Hupd & Hcases)];
      [exact Hpk |].
    pose proof (primary_key_update _ _ _ _ _ _ Hupd Hpk) as Hpk1.
    destruct Hcases as [(_ & _ & ->) | [(_ & row & Hhist & _) | (_ & _ & ->)]];
      [exact Hpk1 | | exact Hpk1].
    apply history_row in Hhist as (_ & Happs & _).
    unfold primary_key. rewrite Happs. exact Hpk1.
  - apply route_delete_one_cases in Hrun as [[_ ->] | (n & a & _ & _ & _ & ->)];
      [exact Hpk | apply primary_key_delete, Hpk].
  - exfalso. exact (delete_bulk_never_selected _ _ _ _ Hm eq_refl).
Qed.

(** X12. Keys are an invariant of the system. In every world it reaches from
    one without applications and history, whatever the requests and
    whichever calls fail, application keys lie below the sequence, every
    history entry refers to an application that exists, and no two
    applications share a key. *)
Theorem keys_are_invariant (w : World) :
  reachable Date_parse is_url w -> well_formed (db w) /\ primary_key (db w).
Proof.
  induction 1 as [w Happs Hsh | w w' _ [Hwf Hpk] Hstep].
  - unfold well_formed, primary_key. rewrite Happs, Hsh.
    repeat split; [contradiction | contradiction | constructor].
  - destruct Hstep as [r w | u id w | w w' Happs Hsh Hseq].
    + split; [apply router_well_formed, Hwf | apply router_primary_key];
        assumption.
    + destruct (company_route_delete_tables u id w) as (Happs & Hsh & Hseq).
      split; [exact (well_formed_same _ _ Happs Hsh Hseq Hwf) |].
      unfold primary_key. rewrite Happs. exact Hpk.
    + split; [exact (well_formed_same _ _ Happs Hsh Hseq Hwf) |].
      unfold primary_key. rewrite Happs. exact Hpk.
Qed.

(** ** The trail and the current status *)

Lemma newest_entry_same (d d' : DB) (n : Z) :
  statusHistory d' = statusHistory d -> newest_entry d' n = newest_entry d n.
Proof. unfold newest_entry, entries. intros ->. reflexivity. Qed.

Lemma newest_entry_append (d d' : DB) (row : StatusHistory) (n : Z) :
  statusHistory d' = statusHistory d ++ [row] ->
  newest_entry d' n =
  if sh_applicationId row =? n then Some row else newest_entry d n.
Proof.
  unfold newest_entry, entries. intros ->. rewrite filter_app. cbn [filter].
  destruct (sh_applicationId row =? n).
  - rewrite map_app. cbn [map]. apply last_last.
  - rewrite app_nil_r. reflexivity.
Qed.

Lemma newest_entry_delete (d : DB) (m n : Z) :
  n <> m -> newest_entry (delete_application m d) n = newest_entry d n.
Proof.
  intros Hne. unfold newest_entry, entries. cbn [delete_application statusHistory].
  f_equal. f_equal.
  induction (statusHistory d) as [| h l IH]; cbn; [reflexivity |].
  destruct (sh_applicationId h =? m) eqn:Em; cbn.
  - apply Z.eqb_eq in Em.
    destruct (sh_applicationId h =? n) eqn:En; [| exact IH].
    apply Z.eqb_eq in En. congruence.
  - destruct (sh_applicationId h =? n); [f_equal |]; exact IH.
Qed.

(** The history append for a row of the store is not refused. *)
Lemma history_create_succeeds (now : Z) (inc : Included) (note : string)
    (d : DB) :
  has_application d (app_id (the_application inc)) = true ->
  exists row d2,
    statusHistory_create now (history_data inc note) d = Some (row, d2).
Proof.
  intros H. unfold statusHistory_create.
  change (JS.prop (history_data inc note) "applicationId")
    with (JS.Int (app_id (the_application inc))).
  change (JS.prop (history_data inc note) "status")
    with (JS.Str (ApplicationStatus_label (app_status (the_application inc)))).
  change (JS.prop (history_data inc note) "notes") with (JS.Str note).
  cbn [required int enum nullable text option_map].
  rewrite ApplicationStatus_of_label_label, H.
  eexists _, _. reflexivity.
Qed.

(** PUT without faults, once the row update has gone through: 200. *)
Lemma put_fault_free (now u : Z) (id : string) (n : Z) (body : JS.object)
    (w : World) (existing : Application) (inc : Included) (d1 : DB) :
  JS.parseInt id = Some n ->
  Zod.issues (updateApplicationSchema is_url) body = [] ->
  find (owned_by n u) (applications (db w)) = Some existing ->
  company_known (validated (updateApplicationSchema is_url) body) u (db w) ->
  application_update now n
    (updateData Date_parse (validated (updateApplicationSchema is_url) body))
    (db w) = Some (inc, d1) ->
  faults w = [] ->
  exists w',
    route_put_one Date_parse is_url now u id body w
    = (inl {| status := 200;
              payload := ApplicationSaved "Application updated successfully"
                           inc |}, w').
Proof.
  intros Hid Hnil Hfind Hknown Hupd Hfaults.
  assert (Hhas : has_application d1 (app_id (the_application inc)) = true).
  { pose proof Hupd as Hupd'.
    apply application_update_tables in Hupd'
      as (_ & _ & _ & old & Hold & Hrow & Happs).
    apply find_some in Hold as [Hin Hn]. apply Z.eqb_eq in Hn.
    apply has_application_true. exists (the_application inc).
    split; [| reflexivity].
    rewrite Happs.
    apply (in_map (fun a => if app_id a =? n then the_application inc else a))
      in Hin.
    rewrite Hn, Z.eqb_refl in Hin. exact Hin. }
  unfold route_put_one, try_catch, bind, send, ret, Zod.parse.
  rewrite Hid, Hnil. unfold ret.
  fold (validated (updateApplicationSchema is_url) body).
  set (vd := validated (updateApplicationSchema is_url) body) in *.
  rewrite call_eq, Hfaults. cbn [hd tl faults db].
  unfold application_findFirst. rewrite Hfind.
  destruct (history_create_succeeds now inc (status_note (JS.prop vd "status"))
              d1 Hhas) as (row & d2 & Hhist).
  unfold history_data in Hhist.
  unfold company_known in Hknown.
  destruct (JS.truthy (JS.prop vd "companyId")) eqn:Hc.
  - destruct (Hknown eq_refl) as [c Hc'].
    rewrite call_eq. cbn [hd tl faults db]. rewrite Hc'. cbn [negb].
    rewrite call_eq. cbn [hd tl faults db]. rewrite Hupd.
    destruct (JS.truthy (JS.prop vd "status")
              && differs (JS.prop vd "status")
                   (ApplicationStatus_label (app_status existing)))%bool.
    + rewrite call_eq. cbn [hd tl faults db]. rewrite Hhist.
      eexists. reflexivity.
    + eexists. reflexivity.
  - cbn [negb]. rewrite call_eq. cbn [hd tl faults db]. rewrite Hupd.
    destruct (JS.truthy (JS.prop vd "status")
              && differs (JS.prop vd "status")
                   (ApplicationStatus_label (app_status existing)))%bool.
    + rewrite call_eq. cbn [hd tl faults db]. rewrite Hhist.
      eexists. reflexivity.
    + eexists. reflexivity.
Qed.

(** POST without faults, once the row is inserted: 201. *)
Lemma post_fault_free (now u : Z) (body : JS.object) (w : World) (cid : Z)
    (c : Company) (inc : Included) (d1 : DB) :
  Zod.issues (createApplicationSchema is_url) body = [] ->
  JS.prop body "companyId" = JS.Int cid ->
  find (fun c => (co_id c =? cid) && (co_userId c =? u))%bool
    (companies (db w)) = Some c ->
  application_create now
    (applicationData Date_parse u
       (validated (createApplicationSchema is_url) body)) (db w)
  = Some (inc, d1) ->
  faults w = [] ->
  exists w',
    route_post Date_parse is_url now u body w
    = (inl {| status := 201;
              payload := ApplicationSaved "Application created successfully"
                           inc |}, w').
Proof.
  intros Hnil Hcid Hco Hcreate Hfaults.
  assert (Hhas : has_application d1 (app_id (the_application inc)) = true).
  { pose proof (application_create_tables _ _ _ _ _ Hcreate) as (_ & Happs & _).
    apply has_application_true. exists (the_application inc).
    split; [| reflexivity]. rewrite Happs. apply in_or_app. right. left.
    reflexivity. }
  destruct (history_create_succeeds now inc "Application created" d1 Hhas)
    as (row & d2 & Hhist).
  unfold history_data in Hhist.
  unfold route_post, try_catch, bind, send, ret, Zod.parse.
  rewrite Hnil. unfold ret.
  fold (validated (createApplicationSchema is_url) body).
  rewrite call_eq, Hfaults. cbn [hd tl faults db]. unfold company_findFirst.
  change (JS.prop (validated (createApplicationSchema is_url) body) "companyId")
    with (JS.prop body "companyId").
  rewrite Hcid. cbn [int]. rewrite Hco.
  rewrite call_eq. cbn [hd tl faults db]. rewrite Hcreate.
  rewrite call_eq. cbn [hd tl faults db]. rewrite Hhist.
  eexists. reflexivity.
Qed.

(** The status of the row an update writes when the status does not
    change. *)
Lemma update_keeps_status (now n : Z) (vd : JS.object) (d d1 : DB)
    (inc : Included) (existing : Application) :
  application_update now n (updateData Date_parse vd) d = Some (inc, d1) ->
  find (fun a => app_id a =? n) (applications d) = Some existing ->
  JS.prop vd "status" = JS.Undefined \/
  (exists st, JS.prop vd "status" = JS.Str (ApplicationStatus_label st)) ->
  status_changed vd existing = false ->
  app_status (the_application inc) = app_status existing.
Proof.
  intros Hupd Hfind Hst Hch.
  destruct Hst as [Hst | [st Hst]].
  - apply application_update_tables in Hupd
      as (_ & _ & _ & old & Hold & Hrow & _).
    assert (old = existing) by congruence. subst old.
    apply application_row_status in Hrow as [_ Hstatus].
    rewrite updateData_status, Hst in Hstatus. cbn in Hstatus. congruence.
  - apply update_writes_status with (st := st) in Hupd as (Hs & _);
      [| exact Hst].
    destruct (status_changed_label vd existing st Hst) as [_ Hback].
    destruct (ApplicationStatus_of_label (ApplicationStatus_label st)) eqn:E;
      rewrite ApplicationStatus_of_label_label in E; [| discriminate].
    rewrite Hs.
    assert (Hdec : st = app_status existing \/ st <> app_status existing).
    { destruct st, (app_status existing);
        first [left; reflexivity | right; discriminate]. }
    destruct Hdec as [H | H]; [exact H |].
    apply Hback in H. congruence.
Qed.

Lemma consistent_create (now : Z) (data : JS.object) (note : string)
    (d d1 d2 : DB) (inc : Included) (row : StatusHistory) :
  application_create now data d = Some (inc, d1) ->
  statusHistory_create now (history_data inc note) d1 = Some (row, d2) ->
  well_formed d -> trail_consistent d -> trail_consistent d2.
Proof.
  intros Hcreate Hhist [Hkeys _] Hcons.
  apply application_create_tables in Hcreate as (Hsh & Happs & Hrow).
  apply application_row_status in Hrow as [Hkey _].
  cbn [application_defaults app_id] in Hkey.
  apply history_row in Hhist as (Hsh' & Happs' & Hid & Hst & _).
  intros a Ha. rewrite Happs', Happs in Ha.
  rewrite (newest_entry_append d1 d2 row (app_id a) Hsh').
  apply in_app_or in Ha as [Ha | [<- | []]].
  - assert (E : (sh_applicationId row =? app_id a) = false).
    { apply Z.eqb_neq. apply Hkeys in Ha. lia. }
    rewrite E, (newest_entry_same d d1 _ Hsh). apply Hcons, Ha.
  - rewrite Hid, Z.eqb_refl. exists row. split; [reflexivity | exact Hst].
Qed.

Lemma consistent_update_append (now n : Z) (data : JS.object) (note : string)
    (d d1 d2 : DB) (inc : Included) (row : StatusHistory) :
  application_update now n data d = Some (inc, d1) ->
  statusHistory_create now (history_data inc note) d1 = Some (row, d2) ->
  trail_consistent d -> trail_consistent d2.
Proof.
  intros Hupd Hhist Hcons.
  apply application_update_tables in Hupd
    as (Hsh & _ & _ & old & Hold & Hrow & Happs).
  apply application_row_status in Hrow as [Hkey _].
  apply find_some in Hold as [_ Hn]. apply Z.eqb_eq in Hn.
  apply history_row in Hhist as (Hsh' & Happs' & Hid & Hst & _).
  intros a Ha. rewrite Happs', Happs in Ha.
  apply in_map_iff in Ha as (b & <- & Hb).
  rewrite (newest_entry_append d1 d2 row _ Hsh').
  destruct (app_id b =? n) eqn:E.
  - rewrite Hid, Z.eqb_refl. exists row. split; [reflexivity | exact Hst].
  - assert (E' : (sh_applicationId row =? app_id b) = false).
    { apply Z.eqb_neq. apply Z.eqb_neq in E. congruence. }
    rewrite E', (newest_entry_same d d1 _ Hsh). apply Hcons, Hb.
Qed.

Lemma consistent_update_same (now n : Z) (vd : JS.object) (d d1 : DB)
    (inc : Included) (existing : Application) :
  application_update now n (updateData Date_parse vd) d = Some (inc, d1) ->
  In existing (applications d) -> app_id existing = n ->
  primary_key d ->
  JS.prop vd "status" = JS.Undefined \/
  (exists st, JS.prop vd "status" = JS.Str (ApplicationStatus_label st)) ->
  status_changed vd existing = false ->
  trail_consistent d -> trail_consistent d1.
Proof.
  intros Hupd Hin Hn Hpk Hst Hch Hcons.
  pose proof Hupd as Hupd'.
  apply application_update_tables in Hupd'
    as (Hsh & _ & _ & old & Hold & Hrow & Happs).
  pose proof Hold as Hold'.
  apply find_some in Hold' as [Hin' Hn']. apply Z.eqb_eq in Hn'.
  assert (old = existing)
    by (apply (same_key_same_row d); congruence).
  subst old.
  pose proof (update_keeps_status _ _ _ _ _ _ _ Hupd Hold Hst Hch) as Hsame.
  apply application_row_status in Hrow as [Hkey _].
  intros a Ha. rewrite Happs in Ha.
  apply in_map_iff in Ha as (b & <- & Hb).
  rewrite (newest_entry_same d d1 _ Hsh).
  destruct (app_id b =? n) eqn:E; [| apply Hcons, Hb].
  rewrite Hkey, Hsame. apply Hcons, Hin.
Qed.

Lemma consistent_delete (n : Z) (d : DB) :
  trail_consistent d -> trail_consistent (delete_application n d).
Proof.
  intros Hcons a Ha. cbn [delete_application applications] in Ha.
  apply filter_In in Ha as [Ha Hne].
  apply negb_true_iff, Z.eqb_neq in Hne.
  rewrite (newest_entry_delete d n (app_id a) Hne). apply Hcons, Ha.
Qed.

(** X13. While no call to the store fails, the trail and the applications
    agree: if every application's newest history entry carries its current
    status, then the same holds after any request to the application
    router, in a well-formed store with distinct keys. *)
Theorem trail_stays_consistent (r : Request) (w : World) :
  faults w = [] ->
  well_formed (db w) ->
  primary_key (db w) ->
  trail_consistent (db w) ->
  trail_consistent (db (snd (router Date_parse is_url r w))).
Proof.
  intros Hfaults Hwf Hpk Hcons.
  destruct (router_answers Date_parse is_url r w) as (resp & w' & Hrun).
  rewrite Hrun. cbn [snd]. revert Hrun. unfold router.
  destruct (first_match routes (method r) (path r)) as [[h param] |] eqn:Hm.
  2:{ intros [= _ <-]. exact Hcons. }
  destruct h; cbn [run]; intros Hrun.
  - rewrite <- (route_get_all_db (user r) (query r) w) in Hcons.
    rewrite Hrun in Hcons. exact Hcons.
  - rewrite <- (route_get_one_db (user r) param w) in Hcons.
    rewrite Hrun in Hcons. exact Hcons.
  - pose proof Hrun as Hrun'.
    apply route_post_outcomes in Hrun'
      as [(-> & _) | [(cid & c & inc & Hnil & Hcid & Hco & Hcreate & ->)
         | (cid & c & inc & d1 & row & _ & _ & _ & Hcreate & Hhist & _)]].
    + exact Hcons.
    + destruct (post_fault_free _ _ _ _ _ _ _ _ Hnil Hcid Hco Hcreate Hfaults)
        as [w'' Hgood].
      rewrite Hgood in Hrun. discriminate.
    + exact (consistent_create _ _ _ _ _ _ _ _ Hcreate Hhist Hwf Hcons).
  - pose proof Hrun as Hrun'.
    apply route_put_one_cases in Hrun'
      as [[_ ->] | (n & existing & inc & d1 & Hid & Hnil & Hfind & Hknown
                    & Hupd & Hcases)]; [exact Hcons |].
    destruct Hcases as [(Hch & _ & ->) | [(_ & row & Hhist & _) | (_ & -> & _)]].
    + apply find_some in Hfind as [Hin Hown].
      apply andb_true_iff in Hown as [Hn _]. apply Z.eqb_eq in Hn.
      refine (consistent_update_same _ _ _ _ _ _ _ Hupd Hin Hn Hpk _ Hch Hcons).
      destruct (validated_status is_url (body r) Hnil) as [H | [st H]];
        [left | right; exists st];
        (destruct (validated_update_prop is_url (body r)) as (E' & _);
         congruence).
    + exact (consistent_update_append _ _ _ _ _ _ _ _ _ Hupd Hhist Hcons).
    + destruct (put_fault_free _ _ _ _ _ _ _ _ _ Hid Hnil Hfind Hknown Hupd
                  Hfaults) as [w'' Hgood].
      rewrite Hgood in Hrun. discriminate.
  - apply route_delete_one_cases in Hrun as [[_ ->] | (n & a & _ & _ & _ & ->)];
      [exact Hcons | apply consistent_delete, Hcons].
  - exfalso. exact (delete_bulk_never_selected _ _ _ _ Hm eq_refl).
Qed.

(** X14. What the table lacks can be read from the trail: in a store
    whose trail agrees with its applications, an accepted update that changes the status of
    an application appends its entry right after the entry that carries the
    status the application had before, so the two newest entries of the
    application then read prior status, new status. *)
Theorem prior_status_is_in_previous_entry (now u : Z) (id : string) (n : Z)
    (body : JS.object) (w w' : World) (resp : Response)
    (existing : Application) (s : string) :
  route_put_one Date_parse is_url now u id body w = (inl resp, w') ->
  status resp = 200 ->
  JS.parseInt id = Some n ->
  find (owned_by n u) (applications (db w)) = Some existing ->
  JS.prop body "status" = JS.Str s ->
  s <> ApplicationStatus_label (app_status existing) ->
  trail_consistent (db w) ->
  exists previous row,
    newest_entry (db w) n = Some previous /\
    sh_status previous = app_status existing /\
    entries (db w') n = entries (db w) n ++ [row] /\
    ApplicationStatus_label (sh_status row) = s.
Proof.
  intros Hrun H200 Hid Hfind Hs Hne Hcons.
  apply route_put_one_cases in Hrun
    as [[H _] | (n' & existing' & inc & d1 & Hid' & Hnil & Hfind' & _ & Hupd
                 & Hcases)]; [contradiction |].
  assert (n' = n) by congruence. subst n'.
  assert (existing' = existing) by congruence. subst existing'.
  destruct (validated_update_prop is_url body) as (Evd & _).
  destruct (validated_status is_url body Hnil) as [E | [st E]]; [congruence |].
  assert (Hst : JS.prop (validated (updateApplicationSchema is_url) body)
                  "status" = JS.Str (ApplicationStatus_label st))
    by congruence.
  assert (Hch : status_changed
                  (validated (updateApplicationSchema is_url) body) existing
                = true).
  { rewrite status_changed_label with (st := st); [| exact Hst].
    intros ->. congruence. }
  apply update_writes_status with (st := st) in Hupd
    as (Hstatus & Hkey & _ & Hsh); [| exact Hst].
  destruct Hcases as [(Hch' & _) | [(_ & row & Hhist & _) | (_ & -> & _)]];
    [congruence | | discriminate].
  apply history_row in Hhist as (Hsh' & _ & Hrid & Hrst & _).
  apply find_some in Hfind as [Hin Hown].
  apply andb_true_iff in Hown as [Hn _]. apply Z.eqb_eq in Hn.
  destruct (Hcons existing Hin) as (previous & Hnewest & Hprev).
  rewrite Hn in Hnewest.
  exists previous, row.
  split; [exact Hnewest |]. split; [exact Hprev |].
  split.
  - unfold entries. rewrite Hsh', Hsh, filter_app. cbn [filter].
    rewrite Hrid, Hkey, Z.eqb_refl. reflexivity.
  - congruence.
Qed.

(** ** The numbers of the edit form *)

Lemma digits_step (radix : Z) (c : ascii) (r : string) (d : Z)
    (acc : option Z) :
  JS.digit_of c = Some d -> (d <? radix) = true ->
  JS.digits radix (String c r) acc
  = JS.digits radix r
      (Some (match acc with Some a => a * radix + d | None => d end)).
Proof. intros Hd Hr. cbn [JS.digits]. rewrite Hd, Hr. reflexivity. Qed.

Ltac next_digit :=
  cbn [DecimalString.NilEmpty.string_of_uint Pos.of_uint_acc Pos.of_uint];
  match goal with
  | |- context [JS.digits _ (String ?c _) _] =>
      let d := eval vm_compute in (JS.digit_of c) in
      match d with
      | Some ?k => rewrite (digits_step 10 c _ k) by reflexivity
      end
  end.

Lemma digits_from_positive (u : Decimal.uint) (acc : positive) :
  JS.digits 10 (DecimalString.NilEmpty.string_of_uint u) (Some (Z.pos acc))
  = Some (Z.pos (Pos.of_uint_acc u acc)).
Proof.
  revert acc.
  induction u; intros acc; [reflexivity | ..]; next_digit;
    match goal with
    | |- JS.digits _ _ (Some ?z) = Some (Z.pos (Pos.of_uint_acc _ ?p)) =>
        replace z with (Z.pos p) by lia
    end; apply IHu.
Qed.

Lemma digits_from_zero (u : Decimal.uint) :
  JS.digits 10 (DecimalString.NilEmpty.string_of_uint u) (Some 0)
  = Some (Z.of_N (Pos.of_uint u)).
Proof.
  induction u; [reflexivity | ..]; next_digit;
    [exact IHu | apply digits_from_positive ..].
Qed.

Lemma digits_of_numeral (u : Decimal.uint) :
  u <> Decimal.Nil ->
  JS.digits 10 (DecimalString.NilEmpty.string_of_uint u) None
  = Some (Z.of_N (Pos.of_uint u)).
Proof.
  destruct u; [contradiction | ..]; intros _; next_digit;
    [apply digits_from_zero | apply digits_from_positive ..].
Qed.

Lemma parseInt_numeral (u : Decimal.uint) :
  u <> Decimal.Nil ->
  JS.parseInt (DecimalString.NilEmpty.string_of_uint u)
  = Some (Z.of_N (Pos.of_uint u)) /\
  JS.parseInt (String "-" (DecimalString.NilEmpty.string_of_uint u))
  = Some (- Z.of_N (Pos.of_uint u)).
Proof.
  intros Hu.
  assert (H : JS.parseInt (DecimalString.NilEmpty.string_of_uint u)
              = option_map (Z.mul 1)
                  (JS.digits 10 (DecimalString.NilEmpty.string_of_uint u) None)
              /\
              JS.parseInt (String "-" (DecimalString.NilEmpty.string_of_uint u))
              = option_map (Z.mul (-1))
                  (JS.digits 10 (DecimalString.NilEmpty.string_of_uint u) None)).
  { destruct u as [| u | u | u | u | u | u | u | u | u | u];
      [contradiction | destruct u | ..]; split; reflexivity. }
  destruct H as [-> ->]. rewrite (digits_of_numeral u Hu). cbn [option_map].
  split; f_equal; lia.
Qed.

(** The number a form field shows reads back as the number: parseInt undoes
    toString. *)
Lemma parseInt_toString (n : Z) : JS.parseInt (toString n) = Some n.
Proof.
  unfold toString.
  destruct n as [| p | p]; [reflexivity | |];
    cbn [Z.to_int DecimalString.NilZero.string_of_int];
    pose proof (DecimalPos.Unsigned.to_uint_nonnil p) as Hnil;
    pose proof (DecimalPos.Unsigned.of_to p) as Hback;
    destruct (parseInt_numeral _ Hnil) as [Hplus Hminus];
    rewrite Hback in Hplus, Hminus;
    unfold DecimalString.NilZero.string_of_uint;
    destruct (Pos.to_uint p); try contradiction; assumption.
Qed.

Lemma toString_filled (n : Z) : filled (toString n) = true.
Proof.
  destruct (toString n) eqn:E; [| reflexivity].
  pose proof (parseInt_toString n) as H. rewrite E in H. discriminate.
Qed.

(** ** POST: what a creation fills in *)

Lemma post_created_row (now u : Z) (body : JS.object) (w w' : World)
    (resp : Response) :
  route_post Date_parse is_url now u body w = (inl resp, w') ->
  status resp = 201 ->
  exists a,
    Zod.issues (createApplicationSchema is_url) body = [] /\
    applications (db w') = applications (db w) ++ [a] /\
    application_row now (application_defaults (application_seq (db w)) now)
      (applicationData Date_parse u
         (validated (createApplicationSchema is_url) body))
    = Some a.
Proof.
  intros Hrun H201.
  apply route_post_outcomes in Hrun
    as [(_ & [H | H]) | [(cid & c & inc & _ & _ & _ & _ & ->)
       | (cid & c & inc & d1 & row & Hnil & _ & _ & Hcreate & Hhist & _)]];
    try congruence; try discriminate.
  apply application_create_tables in Hcreate as (_ & Happs & Hrow).
  apply history_row in Hhist as (_ & Happs' & _).
  exists (the_application inc). repeat split; congruence.
Qed.

(** The members POST adds to its data only for a truthy value. *)
Lemma applicationData_optional (u : Z) (vd : JS.object) :
  let v := JS.prop vd in
  let data := applicationData Date_parse u vd in
  JS.prop data "applicationDate"
  = (if JS.truthy (v "applicationDate")
     then new_Date Date_parse (v "applicationDate") else JS.Undefined) /\
  Forall (fun k => JS.prop data k = if JS.truthy (v k) then v k else JS.Undefined)
    [ "jobDescription"; "requirements"; "salaryRange"; "applicationUrl";
      "referralSource" ].
Proof.
  unfold applicationData. cbv zeta.
  split; [| repeat constructor];
    repeat match goal with
           | |- context [JS.when (JS.truthy ?x) _ _] => destruct (JS.truthy x)
           end; reflexivity.
Qed.

(** What a nullable text column holds after [value || null], or after a
    member added only when truthy. *)
Lemma text_or_null (x : JS.value) (c : option string) :
  nullable text None (JS.or x JS.Null) = Some c ->
  (x = JS.Undefined -> c = None) /\ c <> Some "".
Proof.
  unfold JS.or.
  destruct x as [| | b | n | | s | t | items | tag]; cbn;
    try destruct b; try destruct (n =? 0); try destruct (String.eqb s "") eqn:E;
    cbn; intros [= <-]; (split; [discriminate || reflexivity | try discriminate]).
  intros [= ->]. discriminate.
Qed.

Lemma text_when_truthy (x : JS.value) (c : option string) :
  nullable text None (if JS.truthy x then x else JS.Undefined) = Some c ->
  (x = JS.Undefined -> c = None) /\ c <> Some "".
Proof.
  destruct x as [| | b | n | | s | t | items | tag]; cbn;
    try destruct b; try destruct (n =? 0); try destruct (String.eqb s "") eqn:E;
    cbn; intros [= <-]; (split; [discriminate || reflexivity | try discriminate]).
  intros [= ->]. discriminate.
Qed.

Lemma int_or_null (x : JS.value) (c : option Z) :
  nullable int None (JS.or x JS.Null) = Some c ->
  (x = JS.Undefined -> c = None) /\ (forall n, c = Some n -> x = JS.Int n).
Proof.
  unfold JS.or.
  destruct x as [| | b | n | | s | t | items | tag]; cbn;
    try destruct b; try destruct (n =? 0); try destruct (String.eqb s "");
    cbn; intros [= <-];
    (split; [discriminate || reflexivity | intros m [= <-] || discriminate]).
  reflexivity.
Qed.

(** The members POST sets whatever the body holds. *)
Lemma applicationData_always (u : Z) (body : JS.object) :
  let v := JS.prop body in
  let data :=
    applicationData Date_parse u
      (validated (createApplicationSchema is_url) body) in
  JS.prop data "status"
  = (if JS.truthy (v "status")
     then mapped FieldMapper.mapStatus (v "status") else JS.Str "applied") /\
  JS.prop data "priority"
  = (if JS.truthy (v "priority")
     then mapped FieldMapper.mapPriority (v "priority")
     else JS.Str "medium") /\
  JS.prop data "employmentType"
  = (if JS.truthy (v "employmentType")
     then mapped FieldMapper.mapEmploymentType (v "employmentType")
     else JS.Str "full_time") /\
  JS.prop data "workType"
  = (if JS.truthy (v "workType")
     then mapped FieldMapper.mapWorkType (v "workType")
     else JS.Str "remote") /\
  Forall (fun k => JS.prop data k = JS.or (v k) JS.Null)
    [ "location"; "salaryMin"; "salaryMax"; "source"; "notes" ].
Proof. repeat split; repeat constructor. Qed.

Lemma applicationData_when_truthy (u : Z) (body : JS.object) :
  let v := JS.prop body in
  let data :=
    applicationData Date_parse u
      (validated (createApplicationSchema is_url) body) in
  JS.prop data "applicationDate"
  = (if JS.truthy (v "applicationDate")
     then new_Date Date_parse (v "applicationDate") else JS.Undefined) /\
  Forall (fun k => JS.prop data k = if JS.truthy (v k) then v k else JS.Undefined)
    [ "jobDescription"; "requirements"; "salaryRange"; "applicationUrl";
      "referralSource" ].
Proof.
  destruct (applicationData_optional u
              (validated (createApplicationSchema is_url) body)) as [Hdate H].
  split; [exact Hdate |]. cbv zeta in H.
  repeat (apply Forall_cons_iff in H as [? H]).
  repeat constructor; assumption.
Qed.

(** The columns of the row a creation answered 201 appends, read off the
    body. *)
Lemma created_columns (now u : Z) (body : JS.object) (w w' : World)
    (resp : Response) :
  route_post Date_parse is_url now u body w = (inl resp, w') ->
  status resp = 201 ->
  let v := JS.prop body in
  exists a,
    Zod.issues (createApplicationSchema is_url) body = [] /\
    applications (db w') = applications (db w) ++ [a] /\
    required text (Some "") (v "positionTitle") = Some (app_positionTitle a) /\
    required datetime (Some now)
      (if JS.truthy (v "applicationDate")
       then new_Date Date_parse (v "applicationDate") else JS.Undefined)
    = Some (app_applicationDate a) /\
    required (enum ApplicationStatus_of_label) (Some applied)
      (if JS.truthy (v "status")
       then mapped FieldMapper.mapStatus (v "status") else JS.Str "applied")
    = Some (app_status a) /\
    required (enum Priority_of_label) (Some medium)
      (if JS.truthy (v "priority")
       then mapped FieldMapper.mapPriority (v "priority")
       else JS.Str "medium")
    = Some (app_priority a) /\
    nullable (enum EmploymentType_of_label) (Some full_time)
      (if JS.truthy (v "employmentType")
       then mapped FieldMapper.mapEmploymentType (v "employmentType")
       else JS.Str "full_time")
    = Some (app_employmentType a) /\
    nullable (enum WorkType_of_label) (Some remote)
      (if JS.truthy (v "workType")
       then mapped FieldMapper.mapWorkType (v "workType")
       else JS.Str "remote")
    = Some (app_workType a) /\
    nullable int None (JS.or (v "salaryMin") JS.Null) = Some (app_salaryMin a) /\
    nullable int None (JS.or (v "salaryMax") JS.Null) = Some (app_salaryMax a) /\
    nullable text None (JS.or (v "location") JS.Null) = Some (app_location a) /\
    nullable text None (JS.or (v "source") JS.Null) = Some (app_source a) /\
    nullable text None (JS.or (v "notes") JS.Null) = Some (app_notes a) /\
    Forall (fun kc =>
              nullable text None
                (if JS.truthy (v (fst kc)) then v (fst kc) else JS.Undefined)
              = Some (snd kc a))
      [ ("jobDescription", app_jobDescription);
        ("requirements", app_requirements);
        ("salaryRange", app_salaryRange);
        ("applicationUrl", app_applicationUrl);
        ("referralSource", app_referralSource) ].
Proof.
  intros Hrun H201 v.
  destruct (post_created_row _ _ _ _ _ _ Hrun H201)
    as (a & Hnil & Happs & Hrow).
  exists a. split; [exact Hnil |]. split; [exact Happs |].
  apply application_row_columns in Hrow
    as (_ & _ & _ & Htitle & Hdate & Hstatus & HjobDescription & Hrequirements
        & Hlocation & HsalaryRange & HapplicationUrl & HreferralSource
        & Hpriority & Hnotes & HemploymentType & HworkType & HsalaryMin
        & HsalaryMax & Hsource & _ & _).
  destruct (applicationData_always u body)
    as (Estatus & Epriority & EemploymentType & EworkType & Hor).
  destruct (applicationData_when_truthy u body) as (Edate & Hwhen).
  cbv zeta in Hor, Hwhen.
  apply Forall_cons_iff in Hor as [Elocation Hor].
  apply Forall_cons_iff in Hor as [EsalaryMin Hor].
  apply Forall_cons_iff in Hor as [EsalaryMax Hor].
  apply Forall_cons_iff in Hor as [Esource Hor].
  apply Forall_cons_iff in Hor as [Enotes _].
  apply Forall_cons_iff in Hwhen as [EjobDescription Hwhen].
  apply Forall_cons_iff in Hwhen as [Erequirements Hwhen].
  apply Forall_cons_iff in Hwhen as [EsalaryRange Hwhen].
  apply Forall_cons_iff in Hwhen as [EapplicationUrl Hwhen].
  apply Forall_cons_iff in Hwhen as [EreferralSource _].
  rewrite Estatus in Hstatus. rewrite Epriority in Hpriority.
  rewrite EemploymentType in HemploymentType. rewrite EworkType in HworkType.
  rewrite Edate in Hdate.
  rewrite Elocation in Hlocation. rewrite EsalaryMin in HsalaryMin.
  rewrite EsalaryMax in HsalaryMax. rewrite Esource in Hsource.
  rewrite Enotes in Hnotes. rewrite EjobDescription in HjobDescription.
  rewrite Erequirements in Hrequirements.
  rewrite EsalaryRange in HsalaryRange.
  rewrite EapplicationUrl in HapplicationUrl.
  rewrite EreferralSource in HreferralSource.
  cbn [application_defaults app_applicationDate app_status app_jobDescription
       app_requirements app_location app_salaryRange app_applicationUrl
       app_referralSource app_priority app_notes app_employmentType
       app_workType app_salaryMin app_salaryMax app_source] in *.
  cbn [app_positionTitle] in Htitle.
  repeat split; try assumption.
  repeat constructor; assumption.
Qed.

Lemma enum_default {E : Type} (of_label : string -> option E) (dflt : E)
    (mapper : string -> JS.value) (label : string) (x : JS.value) (c : E) :
  required (enum of_label) (Some dflt)
    (if JS.truthy x then mapped mapper x else JS.Str label) = Some c ->
  of_label label = Some dflt ->
  x = JS.Undefined -> c = dflt.
Proof. intros H Hl ->. cbn in H. congruence. Qed.

Lemma nullable_enum_default {E : Type} (of_label : string -> option E)
    (dflt : E) (mapper : string -> JS.value) (label : string) (x : JS.value)
    (c : option E) :
  nullable (enum of_label) (Some dflt)
    (if JS.truthy x then mapped mapper x else JS.Str label) = Some c ->
  of_label label = Some dflt ->
  x = JS.Undefined -> c = Some dflt.
Proof. intros H Hl ->. cbn in H. rewrite Hl in H. cbn in H. congruence. Qed.

Lemma salary_checked (body : JS.object) (k : string) (n : Z) :
  Zod.issues (createApplicationSchema is_url) body = [] ->
  In k ["salaryMin"; "salaryMax"] ->
  JS.prop body k = JS.Int n -> 0 < n.
Proof.
  intros Hnil Hk Hn.
  assert (H : Zod.nullable (Zod.optional Zod.int_positive) (JS.prop body k)
              = true).
  { apply (issues_nil _ _ _ _ Hnil).
    destruct Hk as [<- | [<- | []]]; cbn; tauto. }
  rewrite Hn in H. cbn in H. lia.
Qed.

(** X15. A creation answered 201 fills in what the body leaves out: status
    applied, priority medium, employment type full_time, work type remote,
    the application date now, and NULL in the salary bounds and the text
    columns. Whatever the body holds, no text column of the new row is the
    empty string (empty values are stored as NULL) and a salary bound is
    NULL or positive. *)
Theorem creation_fills_defaults (now u : Z) (body : JS.object)
    (w w' : World) (resp : Response) :
  route_post Date_parse is_url now u body w = (inl resp, w') ->
  status resp = 201 ->
  exists a,
    applications (db w') = applications (db w) ++ [a] /\
    default_unless_sent body "status" app_status applied a /\
    default_unless_sent body "priority" app_priority medium a /\
    default_unless_sent body "employmentType" app_employmentType
      (Some full_time) a /\
    default_unless_sent body "workType" app_workType (Some remote) a /\
    default_unless_sent body "applicationDate" app_applicationDate now a /\
    default_unless_sent body "salaryMin" app_salaryMin None a /\
    default_unless_sent body "salaryMax" app_salaryMax None a /\
    default_unless_sent body "jobDescription" app_jobDescription None a /\
    default_unless_sent body "requirements" app_requirements None a /\
    default_unless_sent body "location" app_location None a /\
    default_unless_sent body "salaryRange" app_salaryRange None a /\
    default_unless_sent body "applicationUrl" app_applicationUrl None a /\
    default_unless_sent body "referralSource" app_referralSource None a /\
    default_unless_sent body "notes" app_notes None a /\
    default_unless_sent body "source" app_source None a /\
    Forall (fun column => column a <> Some "") text_columns /\
    (forall n, app_salaryMin a = Some n \/ app_salaryMax a = Some n -> 0 < n).
Proof.
  intros Hrun H201.
  destruct (created_columns _ _ _ _ _ _ Hrun H201)
    as (a & Hnil & Happs & _ & Hdate & Hstatus & Hpriority & HemploymentType
        & HworkType & HsalaryMin & HsalaryMax & Hlocation & Hsource & Hnotes
        & Hwhen).
  apply Forall_cons_iff in Hwhen as [HjobDescription Hwhen].
  apply Forall_cons_iff in Hwhen as [Hrequirements Hwhen].
  apply Forall_cons_iff in Hwhen as [HsalaryRange Hwhen].
  apply Forall_cons_iff in Hwhen as [HapplicationUrl Hwhen].
  apply Forall_cons_iff in Hwhen as [HreferralSource _].
  cbn [fst snd] in *.
  apply text_or_null in Hlocation, Hsource, Hnotes.
  apply text_when_truthy in HjobDescription, Hrequirements, HsalaryRange,
    HapplicationUrl, HreferralSource.
  apply int_or_null in HsalaryMin as [Hmin Hmin'], HsalaryMax as [Hmax Hmax'].
  exists a. unfold default_unless_sent, text_columns.
  split; [exact Happs |].
  split; [exact (enum_default _ _ _ _ _ _ Hstatus eq_refl) |].
  split; [exact (enum_default _ _ _ _ _ _ Hpriority eq_refl) |].
  split; [exact (nullable_enum_default _ _ _ _ _ _ HemploymentType eq_refl) |].
  split; [exact (nullable_enum_default _ _ _ _ _ _ HworkType eq_refl) |].
  split; [intros E; rewrite E in Hdate; cbn in Hdate; congruence |].
  repeat (split; [tauto |]).
  split; [repeat constructor; tauto |].
  intros n [H | H];
    [apply Hmin' in H; apply (salary_checked body "salaryMin" n Hnil)
    | apply Hmax' in H; apply (salary_checked body "salaryMax" n Hnil)];
    cbn; tauto.
Qed.

(** ** The add form *)

(** The members of the body the add form posts. *)
Lemma add_form_body (trim : string -> string) (company : JS.value)
    (f : AddPage.FormData) :
  let body := AddPage.applicationData trim company f in
  JS.prop body "companyId" = company /\
  JS.prop body "positionTitle" = JS.Str (trim (AddPage.positionTitle f)) /\
  JS.prop body "status" = JS.Str (AddPage.status f) /\
  JS.prop body "priority" = JS.Str (AddPage.priority f) /\
  JS.prop body "employmentType" = JS.Undefined /\
  JS.prop body "workType" = JS.Undefined /\
  JS.prop body "salaryMin" = JS.Undefined /\
  JS.prop body "salaryMax" = JS.Undefined /\
  JS.prop body "source" = JS.Undefined.
Proof.
  unfold AddPage.applicationData, AddPage.member. cbv zeta.
  repeat split;
    repeat match goal with
           | |- context [JS.when (filled ?s) _ _] => destruct (filled s)
           end; reflexivity.
Qed.

(** X16. The add form cannot choose everything the table holds: the body it
    posts has no employmentType, workType, salaryMin, salaryMax or source,
    so an application it creates is full_time and remote with no salary
    bounds and no source, whatever the form held. The row carries the
    trimmed title, which is not empty, and the status and the priority the
    form chose. *)
Theorem add_form_leaves_columns_to_defaults (trim : string -> string)
    (company : JS.value) (f : AddPage.FormData) (body : JS.object)
    (now u : Z) (w w' : World) (resp : Response) :
  AddPage.handleSubmit trim company f = inr body ->
  route_post Date_parse is_url now u body w = (inl resp, w') ->
  status resp = 201 ->
  exists a,
    applications (db w') = applications (db w) ++ [a] /\
    app_positionTitle a = trim (AddPage.positionTitle f) /\
    app_positionTitle a <> "" /\
    ApplicationStatus_label (app_status a) = AddPage.status f /\
    Priority_label (app_priority a) = AddPage.priority f /\
    app_employmentType a = Some full_time /\
    app_workType a = Some remote /\
    app_salaryMin a = None /\
    app_salaryMax a = None /\
    app_source a = None.
Proof.
  unfold AddPage.handleSubmit. intros Hsubmit Hrun H201.
  destruct (filled (trim (AddPage.positionTitle f))) eqn:Htitle;
    [| discriminate].
  destruct (JS.truthy company); [| discriminate].
  cbn [negb] in Hsubmit. injection Hsubmit as <-.
  destruct (created_columns _ _ _ _ _ _ Hrun H201)
    as (a & Hnil & Happs & Hposition & _ & Hstatus & Hpriority
        & HemploymentType & HworkType & HsalaryMin & HsalaryMax & _ & Hsource
        & _).
  destruct (add_form_body trim company f)
    as (_ & Eposition & Estatus & Epriority & EemploymentType & EworkType
        & EsalaryMin & EsalaryMax & Esource).
  cbv zeta in Eposition, Estatus, Epriority, EemploymentType, EworkType,
    EsalaryMin, EsalaryMax, Esource.
  pose proof (issues_nil _ _ "status" _ Hnil
                ltac:(cbn; do 3 right; left; reflexivity)) as Hs.
  pose proof (issues_nil _ _ "priority" _ Hnil
                ltac:(cbn; do 10 right; left; reflexivity)) as Hp.
  rewrite Estatus in Hs, Hstatus. rewrite Epriority in Hp, Hpriority.
  rewrite Eposition in Hposition.
  rewrite EemploymentType in HemploymentType. rewrite EworkType in HworkType.
  rewrite EsalaryMin in HsalaryMin. rewrite EsalaryMax in HsalaryMax.
  rewrite Esource in Hsource.
  cbn in Hposition, HemploymentType, HworkType, HsalaryMin, HsalaryMax, Hsource.
  cbn [Zod.optional] in Hs, Hp.
  apply enum_member in Hs, Hp.
  exists a. split; [exact Happs |].
  split; [congruence |].
  split.
  { injection Hposition as <-. intros E. unfold filled in Htitle.
    rewrite E in Htitle. discriminate. }
  split.
  { destruct Hs as [E | [E | [E | [E | [E | [E | [E | []]]]]]]];
      rewrite <- E in Hstatus |- *; cbn in Hstatus;
      injection Hstatus as <-; reflexivity. }
  split.
  { destruct Hp as [E | [E | [E | []]]];
      rewrite <- E in Hpriority |- *; cbn in Hpriority;
      injection Hpriority as <-; reflexivity. }
  repeat split; congruence.
Qed.


(** ** The edit form *)

Ltac data_member :=
  unfold updateData; cbv zeta;
  rewrite ?prop_when, ?prop_when_last;
  cbn [String.eqb Ascii.eqb Bool.eqb];
  rewrite ?andb_false_r, ?andb_true_r; reflexivity.

(** The members of the data PUT builds, by the test that guards each. *)
Lemma updateData_members (vd : JS.object) :
  let v := JS.prop vd in
  let data := updateData Date_parse vd in
  (JS.prop data "positionTitle"
   = if JS.truthy (v "positionTitle") then v "positionTitle" else JS.Undefined)
  /\
  (JS.prop data "companyId"
   = if JS.truthy (v "companyId") then v "companyId" else JS.Undefined) /\
  (JS.prop data "priority"
   = if JS.truthy (v "priority")
     then mapped FieldMapper.mapPriority (v "priority") else JS.Undefined) /\
  (JS.prop data "applicationDate"
   = if JS.truthy (v "applicationDate")
     then new_Date Date_parse (v "applicationDate") else JS.Undefined) /\
  (JS.prop data "employmentType"
   = if JS.defined (v "employmentType")
     then mapped FieldMapper.mapEmploymentType (v "employmentType")
     else JS.Undefined) /\
  (JS.prop data "workType"
   = if JS.defined (v "workType")
     then mapped FieldMapper.mapWorkType (v "workType") else JS.Undefined) /\
  JS.prop data "location" = v "location" /\
  JS.prop data "salaryMin" = v "salaryMin" /\
  JS.prop data "salaryMax" = v "salaryMax" /\
  JS.prop data "source" = v "source" /\
  JS.prop data "notes" = v "notes".
Proof.
  cbv zeta.
  repeat split; try data_member.
  all: match goal with
       | |- JS.prop _ ?k = _ =>
           transitivity (if JS.defined (JS.prop vd k) then JS.prop vd k
                         else JS.Undefined);
           [data_member | destruct (JS.prop vd k); reflexivity]
       end.
Qed.

(** An update answered 200: the row it wrote over the stored one. *)
Lemma updated_row (now u : Z) (id : string) (n : Z) (body : JS.object)
    (w w' : World) (resp : Response) (existing : Application) :
  route_put_one Date_parse is_url now u id body w = (inl resp, w') ->
  status resp = 200 ->
  JS.parseInt id = Some n ->
  find (owned_by n u) (applications (db w)) = Some existing ->
  primary_key (db w) ->
  exists row,
    Zod.issues (updateApplicationSchema is_url) body = [] /\
    In row (applications (db w')) /\
    application_row now existing
      (updateData Date_parse (validated (updateApplicationSchema is_url) body))
    = Some row /\
    (status_changed (validated (updateApplicationSchema is_url) body) existing
     = false ->
     statusHistory (db w') = statusHistory (db w)).
Proof.
  intros Hrun H200 Hid Hfind Hpk.
  apply route_put_one_cases in Hrun
    as [[H _] | (n' & existing' & inc & d1 & Hid' & Hnil & Hfind' & _ & Hupd
                 & Hcases)]; [contradiction |].
  assert (n' = n) by congruence. subst n'.
  assert (existing' = existing) by congruence. subst existing'.
  apply application_update_tables in Hupd
    as (Hsh & _ & _ & old & Hold & Hrow & Happs).
  apply find_some in Hfind as [Hin Hown].
  apply andb_true_iff in Hown as [Hn _]. apply Z.eqb_eq in Hn.
  apply find_some in Hold as [Hin' Hn']. apply Z.eqb_eq in Hn'.
  assert (old = existing)
    by (apply (same_key_same_row (db w)); congruence).
  subst old.
  assert (Hrows : In (the_application inc) (applications d1)).
  { rewrite Happs.
    apply (in_map (fun a => if app_id a =? n then the_application inc else a))
      in Hin.
    rewrite Hn, Z.eqb_refl in Hin. exact Hin. }
  exists (the_application inc).
  split; [exact Hnil |].
  destruct Hcases as [(_ & _ & ->) | [(Hch & r & Hhist & _) | (_ & -> & _)]];
    [| | discriminate].
  - repeat split; try assumption. intros _. exact Hsh.
  - apply history_row in Hhist as (_ & E & _).
    repeat split; try assumption; [rewrite E; exact Hrows | congruence].
Qed.

(** The members the update schema hands on of the body the edit form
    sends. *)
Lemma edit_form_body (trim : string -> string) (f : EditForm.ApplicationFormData) :
  let v :=
    JS.prop (validated (updateApplicationSchema is_url)
               (EditForm.updateData trim f)) in
  v "positionTitle" = JS.Str (trim (EditForm.positionTitle f)) /\
  v "employmentType" = EditForm.employmentType f /\
  v "location" = EditForm.or_null (trim (EditForm.location f)) /\
  v "workType" = EditForm.workType f /\
  v "salaryMin"
  = (if filled (EditForm.salaryMin f)
     then EditForm.number (EditForm.salaryMin f) else JS.Null) /\
  v "salaryMax"
  = (if filled (EditForm.salaryMax f)
     then EditForm.number (EditForm.salaryMax f) else JS.Null) /\
  v "status" = EditForm.status f /\
  v "priority" = EditForm.priority f /\
  v "applicationDate" = EditForm.or_null (EditForm.applicationDate f) /\
  v "source" = EditForm.or_null (trim (EditForm.source f)) /\
  v "notes" = EditForm.or_null (trim (EditForm.notes f)) /\
  v "companyId" = EditForm.number (EditForm.companyId f).
Proof. repeat split. Qed.

Lemma number_toString (n : Z) : EditForm.number (toString n) = JS.Int n.
Proof. unfold EditForm.number. rewrite parseInt_toString. reflexivity. Qed.

Lemma shown_number (column : option Z) :
  let s := or_else (option_map toString column) "" in
  nullable int column (if filled s then EditForm.number s else JS.Null)
  = Some column.
Proof.
  destruct column as [m |]; cbn [option_map or_else]; [| reflexivity].
  rewrite toString_filled, number_toString. reflexivity.
Qed.

Lemma text_or_null_column (dflt : option string) (t : string) :
  nullable text dflt (EditForm.or_null t)
  = Some (if filled t then Some t else None).
Proof. unfold EditForm.or_null. destruct (filled t); reflexivity. Qed.

(** X17. Saving the edit form as it was loaded is not a null operation, but
    it is a quiet one. When the form populated from a stored application is
    submitted unchanged and the update is answered 200, no history entry is
    appended, and the row keeps its status, its salary bounds and its
    company; it keeps its priority unless that was urgent, which the form
    shows and saves as medium; an employment type or work type of NULL
    becomes full_time or remote; the title and the three free texts are
    stored trimmed, an empty text as NULL; and the application date is
    replaced by what its day reads back as. *)
Theorem saving_the_form_as_loaded (iso_day : Z -> string)
    (trim : string -> string) (found : Included) (body : JS.object)
    (now u : Z) (id : string) (n : Z) (w w' : World) (resp : Response) :
  let a := the_application found in
  let trimmed (column : option string) :=
    let t := trim (or_else column "") in if filled t then Some t else None in
  EditForm.handleSubmit trim (EditForm.populated iso_day found) = inr body ->
  route_put_one Date_parse is_url now u id body w = (inl resp, w') ->
  status resp = 200 ->
  JS.parseInt id = Some n ->
  find (owned_by n u) (applications (db w)) = Some a ->
  primary_key (db w) ->
  statusHistory (db w') = statusHistory (db w) /\
  exists row,
    In row (applications (db w')) /\
    app_id row = n /\
    app_status row = app_status a /\
    app_priority row
    = (match app_priority a with urgent => medium | p => p end) /\
    app_employmentType row = Some (or_else (app_employmentType a) full_time) /\
    app_workType row = Some (or_else (app_workType a) remote) /\
    app_salaryMin row = app_salaryMin a /\
    app_salaryMax row = app_salaryMax a /\
    app_companyId row = app_companyId a /\
    app_positionTitle row = trim (app_positionTitle a) /\
    app_location row = trimmed (app_location a) /\
    app_source row = trimmed (app_source a) /\
    app_notes row = trimmed (app_notes a) /\
    (filled (iso_day (app_applicationDate a)) = true ->
     Date_parse (iso_day (app_applicationDate a))
     = Some (app_applicationDate row)).
Proof.
  intros a trimmed Hsubmit Hrun H200 Hid Hfind Hpk.
  unfold EditForm.handleSubmit in Hsubmit.
  destruct (filled (EditForm.positionTitle (EditForm.populated iso_day found)));
    [| discriminate].
  destruct (filled (trim (EditForm.positionTitle
                            (EditForm.populated iso_day found)))) eqn:Htitle;
    [| discriminate].
  destruct (filled (EditForm.companyId (EditForm.populated iso_day found)));
    [| discriminate].
  cbn [negb orb] in Hsubmit. injection Hsubmit as <-.
  destruct (updated_row _ _ _ _ _ _ _ _ _ Hrun H200 Hid Hfind Hpk)
    as (row & Hnil & Hin & Hrow & Hquiet).
  set (f := EditForm.populated iso_day found) in *.
  set (vd := validated (updateApplicationSchema is_url)
               (EditForm.updateData trim f)) in *.
  destruct (edit_form_body trim f)
    as (Vtitle & Vemp & Vloc & Vwork & Vmin & Vmax & Vstatus & Vprio & Vdate
        & Vsrc & Vnotes & Vcid).
  cbv zeta in Vtitle, Vemp, Vloc, Vwork, Vmin, Vmax, Vstatus, Vprio, Vdate,
    Vsrc, Vnotes, Vcid.
  fold vd in Vtitle, Vemp, Vloc, Vwork, Vmin, Vmax, Vstatus, Vprio, Vdate,
    Vsrc, Vnotes, Vcid.
  destruct (updateData_members vd)
    as (Dtitle & Dcid & Dprio & Ddate & Demp & Dwork & Dloc & Dmin & Dmax
        & Dsrc & Dnotes).
  cbv zeta in Dtitle, Dcid, Dprio, Ddate, Demp, Dwork, Dloc, Dmin, Dmax, Dsrc,
    Dnotes.
  pose proof (updateData_status Date_parse vd) as Dstatus.
  apply application_row_columns in Hrow
    as (Hkey & _ & _ & Htitle' & Hdate & Hstatus & _ & _
        & Hloc & _ & _ & _ & Hprio & Hnotes & Hemp & Hwork & Hmin
        & Hmax & Hsrc & _ & Hcid).
  rewrite Dtitle, Vtitle in Htitle'. rewrite Dcid, Vcid in Hcid.
  rewrite Dprio, Vprio in Hprio. rewrite Ddate, Vdate in Hdate.
  rewrite Demp, Vemp in Hemp. rewrite Dwork, Vwork in Hwork.
  rewrite Dloc, Vloc in Hloc. rewrite Dmin, Vmin in Hmin.
  rewrite Dmax, Vmax in Hmax. rewrite Dsrc, Vsrc in Hsrc.
  rewrite Dnotes, Vnotes in Hnotes. rewrite Dstatus, Vstatus in Hstatus.
  clear Dtitle Dcid Dprio Ddate Demp Dwork Dloc Dmin Dmax Dsrc Dnotes Dstatus.
  apply find_some in Hfind as [_ Hown].
  apply andb_true_iff in Hown as [Hn _]. apply Z.eqb_eq in Hn.
  assert (Hsame : status_changed vd a = false).
  { unfold status_changed. rewrite Vstatus. subst f.
    cbn [EditForm.populated EditForm.status]. fold a.
    destruct (app_status a); reflexivity. }
  clear Vtitle Vemp Vloc Vwork Vmin Vmax Vstatus Vprio Vdate Vsrc Vnotes Vcid.
  subst f.
  cbn [EditForm.populated EditForm.positionTitle EditForm.employmentType
       EditForm.location EditForm.workType EditForm.salaryMin
       EditForm.salaryMax EditForm.status EditForm.priority
       EditForm.applicationDate EditForm.source EditForm.notes
       EditForm.companyId] in *.
  fold a in Htitle, Htitle', Hdate, Hstatus, Hloc, Hprio, Hnotes, Hemp, Hwork,
    Hmin, Hmax, Hsrc, Hcid.
  split; [exact (Hquiet Hsame) |].
  exists row.
  split; [exact Hin |].
  split; [congruence |].
  split.
  { destruct (app_status a); cbn in Hstatus; congruence. }
  split.
  { destruct (app_priority a); cbn in Hprio; congruence. }
  split.
  { destruct (app_employmentType a) as [[] |]; cbn in Hemp |- *; congruence. }
  split.
  { destruct (app_workType a) as [[] |]; cbn in Hwork |- *; congruence. }
  split.
  { pose proof (shown_number (app_salaryMin a)) as H. cbv zeta in H.
    congruence. }
  split.
  { pose proof (shown_number (app_salaryMax a)) as H. cbv zeta in H.
    congruence. }
  split.
  { rewrite number_toString in Hcid.
    destruct (JS.truthy (JS.Int (app_companyId a))); cbn in Hcid; congruence. }
  split.
  { change (JS.truthy (JS.Str (trim (app_positionTitle a))))
      with (filled (trim (app_positionTitle a))) in Htitle'.
    rewrite Htitle in Htitle'. cbn in Htitle'. congruence. }
  unfold trimmed.
  rewrite text_or_null_column in Hloc, Hsrc, Hnotes.
  split; [congruence |]. split; [congruence |]. split; [congruence |].
  intros Hday. unfold EditForm.or_null in Hdate. rewrite Hday in Hdate.
  change (JS.truthy (JS.Str (iso_day (app_applicationDate a))))
    with (filled (iso_day (app_applicationDate a))) in Hdate.
  rewrite Hday in Hdate. cbn in Hdate.
  destruct (Date_parse (iso_day (app_applicationDate a))); congruence.
Qed.


(** ** The detail page *)

(** A body the update schema finds fault with is answered 400, and nothing
    is looked up or written. *)
Lemma put_invalid_body (now u : Z) (id : string) (n : Z) (body : JS.object)
    (w : World) (k : string) :
  JS.parseInt id = Some n ->
  In k (Zod.issues (updateApplicationSchema is_url) body) ->
  route_put_one Date_parse is_url now u id body w
  = (inl {| status := 400;
            payload := ValidationFailed
                         (Zod.issues (updateApplicationSchema is_url) body) |},
     w).
Proof.
  intros Hid Hk.
  unfold route_put_one, try_catch, bind, Zod.parse. rewrite Hid.
  destruct (Zod.issues (updateApplicationSchema is_url) body);
    [contradiction | reflexivity].
Qed.

(** X18. The detail page sends back what it was given, and the update schema
    does not take it. Its status change spreads the application it fetched
    into the body, so the body carries the stored labels of the enum
    columns and null for NULL: whenever the application is full_time or
    part_time or has no employment type, is on_site or has no work type, or
    has priority urgent, the request is answered 400 'Validation failed'
    and the status stays as it was. *)
Theorem detail_page_status_change_refused (toISOString : Z -> string)
    (found : Included) (newStatus : string) (body : JS.object)
    (now u : Z) (id : string) (n : Z) (w : World) :
  let a := the_application found in
  DetailPage.handleStatusUpdate toISOString (Some found) newStatus = Some body ->
  JS.parseInt id = Some n ->
  In (app_employmentType a) [Some full_time; Some part_time; None] \/
  In (app_workType a) [Some on_site; None] \/
  app_priority a = urgent ->
  exists errors,
    errors <> [] /\
    route_put_one Date_parse is_url now u id body w
    = (inl {| status := 400; payload := ValidationFailed errors |}, w).
Proof.
  intros a Hsent Hid Hcols.
  unfold DetailPage.handleStatusUpdate in Hsent.
  destruct (String.eqb newStatus _); [discriminate |].
  destruct (with_company found) as [company |]; [| discriminate].
  injection Hsent as Hbody.
  assert (Hmembers :
            JS.prop body "employmentType"
            = DetailPage.nullable_json
                (fun e => JS.Str (EmploymentType_label e))
                (app_employmentType a) /\
            JS.prop body "workType"
            = DetailPage.nullable_json
                (fun t => JS.Str (WorkType_label t)) (app_workType a) /\
            JS.prop body "priority" = JS.Str (Priority_label (app_priority a)))
    by (rewrite <- Hbody; repeat split).
  destruct Hmembers as (Eemp & Ework & Eprio).
  assert (Hk : exists k, In k (Zod.issues (updateApplicationSchema is_url) body)).
  { destruct Hcols as [He | [Hw | Hp]].
    - exists "employmentType". eapply issues_in.
      + cbn. do 4 right. left. reflexivity.
      + rewrite Eemp. destruct He as [<- | [<- | [<- | []]]]; reflexivity.
    - exists "workType". eapply issues_in.
      + cbn. do 5 right. left. reflexivity.
      + rewrite Ework. destruct Hw as [<- | [<- | []]]; reflexivity.
    - exists "priority". eapply issues_in.
      + cbn. do 10 right. left. reflexivity.
      + rewrite Eprio, Hp. reflexivity. }
  destruct Hk as [k Hk].
  exists (Zod.issues (updateApplicationSchema is_url) body).
  split; [intros E; rewrite E in Hk; contradiction |].
  exact (put_invalid_body now u id n body w k Hid Hk).
Qed.


(** ** The list page *)

(** An update that carries a status alone always finds a row to write. *)
Lemma status_update_succeeds (now n u : Z) (st : ApplicationStatus) (d : DB)
    (existing : Application) :
  find (owned_by n u) (applications d) = Some existing ->
  exists inc d1,
    application_update now n
      (updateData Date_parse
         (validated (updateApplicationSchema is_url)
            [("status", JS.Str (ApplicationStatus_label st))])) d
    = Some (inc, d1).
Proof.
  intros Hfind. apply find_some in Hfind as [Hin Hown].
  apply andb_true_iff in Hown as [Hn _].
  unfold application_update.
  destruct (find (fun a => app_id a =? n) (applications d)) as [old |] eqn:Hold.
  2:{ rewrite (proj1 (find_none_iff _ _) Hold existing Hin) in Hn.
      discriminate. }
  assert (Hrow : exists row,
             application_row now old
               (updateData Date_parse
                  (validated (updateApplicationSchema is_url)
                     [("status", JS.Str (ApplicationStatus_label st))]))
             = Some row /\ app_companyId row = app_companyId old).
  { destruct st; eexists; split; reflexivity. }
  destruct Hrow as (row & -> & ->). rewrite Z.eqb_refl. cbn [orb].
  eexists _, _. reflexivity.
Qed.

(** X19. What the list page offers goes through. The quick status change of
    a row sends the status alone, one of the seven values of the select;
    for an application of the caller, and while no call to the store
    fails, it is answered 200 with the row carrying the chosen status, and
    the trail grows by one entry for that status exactly when the status
    differs from the stored one. *)
Theorem list_page_status_change_goes_through (n u now : Z)
    (newStatus : string) (w : World) (existing : Application) :
  let request := ListPage.handleStatusUpdate n newStatus in
  In newStatus ListPage.status_options ->
  find (owned_by n u) (applications (db w)) = Some existing ->
  faults w = [] ->
  exists inc w',
    route_put_one Date_parse is_url now u (fst request) (snd request) w
    = (inl {| status := 200;
              payload := ApplicationSaved "Application updated successfully"
                           inc |}, w') /\
    app_id (the_application inc) = n /\
    ApplicationStatus_label (app_status (the_application inc)) = newStatus /\
    In (the_application inc) (applications (db w')) /\
    (newStatus = ApplicationStatus_label (app_status existing) ->
     statusHistory (db w') = statusHistory (db w)) /\
    (newStatus <> ApplicationStatus_label (app_status existing) ->
     exists row,
       statusHistory (db w') = statusHistory (db w) ++ [row] /\
       sh_applicationId row = n /\
       ApplicationStatus_label (sh_status row) = newStatus).
Proof.
  intros request Hoffered Hfind Hfaults.
  assert (Hst : exists st, newStatus = ApplicationStatus_label st).
  { destruct Hoffered as [<- | [<- | [<- | [<- | [<- | [<- | [<- | []]]]]]]];
      [exists applied | exists reviewing | exists interview_scheduled
      | exists interviewed | exists offer | exists rejected
      | exists withdrawn]; reflexivity. }
  destruct Hst as [st ->]. subst request.
  cbn [ListPage.handleStatusUpdate fst snd].
  set (body := [("status", JS.Str (ApplicationStatus_label st))]).
  assert (Hid : JS.parseInt (toString n) = Some n) by apply parseInt_toString.
  assert (Hnil : Zod.issues (updateApplicationSchema is_url) body = [])
    by (destruct st; reflexivity).
  assert (Hknown : company_known
                     (validated (updateApplicationSchema is_url) body) u (db w))
    by (intros H; discriminate H).
  destruct (status_update_succeeds now n u st (db w) existing Hfind)
    as (inc & d1 & Hupd). fold body in Hupd.
  destruct (put_fault_free _ _ _ _ _ _ _ _ _ Hid Hnil Hfind Hknown Hupd Hfaults)
    as [w' Hrun].
  exists inc, w'. split; [exact Hrun |].
  assert (Hsent : JS.prop (validated (updateApplicationSchema is_url) body)
                    "status" = JS.Str (ApplicationStatus_label st))
    by reflexivity.
  apply route_put_one_cases in Hrun
    as [[H _] | (n' & existing' & inc' & d1' & Hid' & _ & Hfind' & _ & Hupd'
                 & Hcases)]; [exfalso; apply H; reflexivity |].
  cbv zeta in Hupd', Hcases.
  assert (n' = n) by congruence. subst n'.
  assert (existing' = existing) by congruence. subst existing'.
  assert (inc' = inc /\ d1' = d1) as [-> ->]
    by (split; congruence).
  pose proof (status_changed_label _ existing st Hsent) as Hchanged.
  apply update_writes_status with (st := st) in Hupd
    as (Hstatus & Hkey & Hrows & Hsh); [| exact Hsent].
  split; [exact Hkey |]. split; [congruence |].
  destruct Hcases as [(Hch & _ & ->) | [(Hch & row & Hhist & _) | (_ & H & _)]];
    [| | discriminate H].
  - split; [exact Hrows |]. split; [intros _; exact Hsh |].
    intros Hne. exfalso.
    assert (st <> app_status existing) by congruence.
    apply Hchanged in H. congruence.
  - apply history_row in Hhist as (Hsh' & Happs' & Hrid & Hrst & _).
    split; [rewrite Happs'; exact Hrows |].
    split.
    + intros E. apply ApplicationStatus_label_inj in E.
      apply Hchanged in Hch. contradiction.
    + intros _. exists row. repeat split; congruence.
Qed.

End FurtherRoutes.

(** ** The further properties at work *)

Section FurtherWitnesses.
Import Schema Prisma Http Sample FormSample.

Lemma tracked_keys : primary_key (tracked applied).
Proof. repeat constructor. intros []. Defined.

Lemma tracked_well_formed : well_formed (tracked applied).
Proof.
  split.
  - intros a [<- | []]. reflexivity.
  - intros h [<- | []]. reflexivity.
Defined.

Lemma tracked_trail : trail_consistent (tracked applied).
Proof.
  intros a [<- | []]. exists (created applied). split; reflexivity.
Defined.

Lemma no_second_company (u : Z) : company_not_owned (tracked applied) 2 u.
Proof. intros c [<- | []] H. discriminate H. Defined.

Lemma acme_not_of_user_8 : company_not_owned fresh 1 8.
Proof. intros c [<- | []] _. discriminate. Defined.

Lemma update_touches_only_sent_members_witness :
  let run :=
    route_put_one no_date any_url 200 7 "1" retitle (world (tracked applied)) in
  exists row,
    applications (db (snd run)) = [row] /\
    app_updatedAt row = 200 /\
    app_status row = applied /\
    app_companyId row = 1.
Proof.
  intros run.
  destruct (update_touches_only_sent_members no_date any_url 200 7 "1" 1
              retitle (world (tracked applied)) (snd run) (answer run)
              (engineer applied) eq_refl eq_refl eq_refl eq_refl tracked_keys)
    as (row & Hrows & _ & _ & _ & Hupdated & _ & Hcompany & Hstatus & _).
  exists row. split; [exact Hrows |]. split; [exact Hupdated |].
  split; [exact (Hstatus eq_refl) | exact (Hcompany eq_refl)].
Defined.

Lemma created_application_belongs_to_caller_witness :
  let posted := route_post no_date any_url 100 7 new_application (world fresh) in
  (exists a c,
      applications (db (snd posted)) = applications fresh ++ [a] /\
      app_id a = 1 /\ app_userId a = 7 /\
      co_id c = app_companyId a /\ co_userId c = 7) /\
  fst (route_post no_date any_url 100 8 new_application (world fresh))
  = inl company_refused.
Proof.
  intros posted.
  destruct (created_application_belongs_to_caller no_date any_url)
    as (Hcreated & Hrefused).
  split.
  - destruct (Hcreated 100 7 new_application (world fresh) (snd posted)
                (answer posted) eq_refl eq_refl)
      as (a & c & Hrows & Hkey & Huser & _ & _ & Hc & Hcu).
    exists a, c. repeat split; assumption.
  - exact (proj1 (Hrefused 100 8 new_application (world fresh) 1 eq_refl
                    eq_refl acme_not_of_user_8 eq_refl)).
Defined.

Lemma creation_survives_failed_append_witness :
  exists a d1,
    route_post no_date any_url 100 7 new_application
      {| db := fresh; faults := [false; false; true] |}
    = (inl {| status := 500; payload := Message "Failed to create application" |},
       {| db := d1; faults := [] |}) /\
    applications d1 = [a] /\
    statusHistory d1 = [].
Proof.
  destruct (creation_survives_failed_append no_date any_url 100 7
              new_application fresh
              (snd (route_post no_date any_url 100 7 new_application
                      (world fresh)))
              (answer (route_post no_date any_url 100 7 new_application
                         (world fresh)))
              eq_refl eq_refl)
    as (a & d1 & Hrun & Hrows & Hhistory & _).
  exists a, d1. split; [exact Hrun |]. split; assumption.
Defined.

Lemma update_company_refused_witness :
  let run :=
    route_put_one no_date any_url 200 7 "1" [("companyId", JS.Int 2)]
      (world (tracked applied)) in
  fst run = inl company_refused /\ db (snd run) = tracked applied.
Proof.
  exact (update_company_refused no_date any_url 200 7 "1" 1 2
           [("companyId", JS.Int 2)] (world (tracked applied))
           (engineer applied) eq_refl eq_refl eq_refl eq_refl
           (no_second_company 7) eq_refl eq_refl).
Defined.

Lemma delete_keeps_other_rows_witness :
  let run := route_delete_one 7 "1" (world (tracked applied)) in
  companies (db (snd run)) = [acme] /\
  (forall a, In a (applications (db (snd run))) <->
             In a [engineer applied] /\ app_id a <> 1).
Proof.
  intros run.
  destruct (delete_keeps_other_rows 7 "1" 1 (world (tracked applied))
              (snd run) (answer run) eq_refl eq_refl eq_refl)
    as (Hcompanies & _ & _ & Hrows & _).
  split; [exact Hcompanies | exact Hrows].
Defined.

Lemma fetch_shows_own_application_witness :
  let run := route_get_one 7 "1" (world (tracked applied)) in
  exists inc,
    payload (answer run) = ApplicationFound inc /\
    app_id (the_application inc) = 1 /\
    app_userId (the_application inc) = 7 /\
    db (snd run) = tracked applied.
Proof.
  intros run.
  destruct (fetch_shows_own_application 7 "1" (world (tracked applied))
              (snd run) (answer run) eq_refl eq_refl)
    as (n & inc & Hid & Hpayload & _ & Hkey & Huser & _ & _ & _ & _ & Hdb).
  exists inc. injection Hid as <-. repeat split; assumption.
Defined.

Lemma rejected_requests_write_nothing_witness :
  db (snd (router no_date any_url (request PUT "/1" to_offer 8 300)
             (world (tracked applied))))
  = tracked applied.
Proof.
  exact (rejected_requests_write_nothing no_date any_url
           (request PUT "/1" to_offer 8 300) (world (tracked applied))
           (snd (router no_date any_url (request PUT "/1" to_offer 8 300)
                   (world (tracked applied))))
           not_found eq_refl (or_intror (or_introl eq_refl))).
Defined.


Lemma update_schema_is_create_schema_made_optional_witness :
  Zod.issues (updateApplicationSchema any_url) [] = [] /\
  In "companyId" (Zod.issues (createApplicationSchema any_url) []).
Proof.
  destruct (update_schema_is_create_schema_made_optional any_url [])
    as (_ & Hempty & Hcompany & _).
  split; [exact (Hempty (fun k _ => eq_refl)) | exact (Hcompany eq_refl)].
Defined.

Lemma validated_members_map_to_labels_witness :
  exists e,
    FieldMapper.mapEmploymentType "part-time" = JS.Str (EmploymentType_label e).
Proof.
  destruct (validated_members_map_to_labels any_url
              [("employmentType", JS.Str "part-time")] (or_introl eq_refl))
    as (Hemployment & _).
  destruct (Hemployment "part-time" eq_refl) as (e & _ & He).
  exists e. exact He.
Defined.

Lemma company_delete_spares_applications_witness :
  let run := company_route_delete 7 "1" (world (tracked applied)) in
  applications (db (snd run)) = [engineer applied] /\
  exists count,
    0 < count /\
    answer run = {| status := 400; payload := CompanyHasApplications count |}.
Proof.
  intros run.
  destruct (company_delete_spares_applications 7 "1" (world (tracked applied))
              (snd run) (answer run) eq_refl)
    as (Hrows & _ & _ & _ & _ & _ & _ & Hrefused).
  split; [exact Hrows |].
  refine (Hrefused 1 acme eq_refl eq_refl eq_refl _).
  exists (engineer applied). split; [left |]; reflexivity.
Defined.

Lemma keys_are_invariant_witness :
  let w :=
    snd (router no_date any_url (request POST "/" new_application 7 100)
           (world fresh)) in
  well_formed (db w) /\ primary_key (db w).
Proof.
  exact (keys_are_invariant no_date any_url _
           (reach_step no_date any_url _ _
              (reach_start no_date any_url (world fresh) eq_refl eq_refl)
              (step_applications no_date any_url
                 (request POST "/" new_application 7 100) (world fresh)))).
Defined.

Lemma trail_stays_consistent_witness :
  trail_consistent
    (db (snd (router no_date any_url (request PUT "/1" to_offer 7 200)
                (world (tracked applied))))).
Proof.
  exact (trail_stays_consistent no_date any_url
           (request PUT "/1" to_offer 7 200) (world (tracked applied))
           eq_refl tracked_well_formed tracked_keys tracked_trail).
Defined.

Lemma prior_status_is_in_previous_entry_witness :
  let run :=
    route_put_one no_date any_url 200 7 "1" to_offer (world (tracked applied)) in
  exists previous row,
    newest_entry (tracked applied) 1 = Some previous /\
    sh_status previous = applied /\
    entries (db (snd run)) 1 = entries (tracked applied) 1 ++ [row] /\
    ApplicationStatus_label (sh_status row) = "offer".
Proof.
  intros run.
  refine (prior_status_is_in_previous_entry no_date any_url 200 7 "1" 1
            to_offer (world (tracked applied)) (snd run) (answer run)
            (engineer applied) "offer" eq_refl eq_refl eq_refl eq_refl eq_refl
            _ tracked_trail).
  discriminate.
Defined.

Lemma creation_fills_defaults_witness :
  let posted := route_post no_date any_url 100 7 new_application (world fresh) in
  exists a,
    applications (db (snd posted)) = applications fresh ++ [a] /\
    app_status a = applied /\
    app_priority a = medium /\
    app_employmentType a = Some full_time /\
    app_applicationDate a = 100 /\
    app_location a = None.
Proof.
  intros posted.
  destruct (creation_fills_defaults no_date any_url 100 7 new_application
              (world fresh) (snd posted) (answer posted) eq_refl eq_refl)
    as (a & Hrows & Hstatus & Hpriority & Hemployment & _ & Hdate & _ & _ & _
        & _ & Hlocation & _).
  exists a. split; [exact Hrows |].
  split; [exact (Hstatus eq_refl) |]. split; [exact (Hpriority eq_refl) |].
  split; [exact (Hemployment eq_refl) |].
  split; [exact (Hdate eq_refl) | exact (Hlocation eq_refl)].
Defined.

Lemma add_form_leaves_columns_to_defaults_witness :
  let body := AddPage.applicationData as_typed (JS.Int 1) add_form in
  let posted := route_post no_date any_url 100 7 body (world fresh) in
  exists a,
    applications (db (snd posted)) = applications fresh ++ [a] /\
    app_positionTitle a = "Engineer" /\
    Priority_label (app_priority a) = "high" /\
    app_employmentType a = Some full_time /\
    app_workType a = Some remote.
Proof.
  intros body posted.
  destruct (add_form_leaves_columns_to_defaults no_date any_url as_typed
              (JS.Int 1) add_form body 100 7 (world fresh) (snd posted)
              (answer posted) eq_refl eq_refl eq_refl)
    as (a & Hrows & Htitle & _ & _ & Hpriority & Hemployment & Hwork & _).
  exists a. repeat split; assumption.
Defined.

Lemma saving_the_form_as_loaded_witness :
  let body :=
    EditForm.updateData as_typed (EditForm.populated first_day (opened applied)) in
  let run := route_put_one epoch any_url 200 7 "1" body (world (tracked applied)) in
  statusHistory (db (snd run)) = [created applied] /\
  exists row,
    In row (applications (db (snd run))) /\
    app_status row = applied /\
    app_employmentType row = Some full_time /\
    app_salaryMin row = None /\
    app_companyId row = 1 /\
    app_applicationDate row = 0.
Proof.
  intros body run.
  destruct (saving_the_form_as_loaded epoch any_url first_day as_typed
              (opened applied) body 200 7 "1" 1 (world (tracked applied))
              (snd run) (answer run) eq_refl eq_refl eq_refl eq_refl eq_refl
              tracked_keys)
    as (Hhistory & row & Hin & _ & Hstatus & _ & Hemployment & _ & Hmin & _
        & Hcompany & _ & _ & _ & _ & Hdate).
  split; [exact Hhistory |].
  exists row. repeat split; try assumption.
  specialize (Hdate eq_refl). injection Hdate as <-. reflexivity.
Defined.

Lemma detail_page_status_change_refused_witness :
  let body :=
    [ ("status", JS.Str "offer"); ("companyId", JS.Int 1) ]
    ++ DetailPage.application_json first_day (opened applied) in
  exists errors,
    errors <> [] /\
    route_put_one no_date any_url 200 7 "1" body (world (tracked applied))
    = (inl {| status := 400; payload := ValidationFailed errors |},
       world (tracked applied)).
Proof.
  intros body.
  exact (detail_page_status_change_refused no_date any_url first_day
           (opened applied) "offer" body 200 7 "1" 1 (world (tracked applied))
           eq_refl eq_refl (or_introl (or_introl eq_refl))).
Defined.

Lemma list_page_status_change_goes_through_witness :
  exists inc w',
    route_put_one no_date any_url 200 7 "1" to_offer (world (tracked applied))
    = (inl {| status := 200;
              payload := ApplicationSaved "Application updated successfully"
                           inc |}, w') /\
    app_status (the_application inc) = offer /\
    exists row,
      statusHistory (db w') = [created applied; row] /\
      sh_status row = offer.
Proof.
  assert (Hoffered : In "offer" ListPage.status_options)
    by (cbn; tauto).
  destruct (list_page_status_change_goes_through no_date any_url 1 7 200
              "offer" (world (tracked applied)) (engineer applied) Hoffered
              eq_refl eq_refl)
    as (inc & w' & Hrun & _ & Hstatus & _ & _ & Hchanged).
  destruct (Hchanged ltac:(discriminate)) as (row & Hhistory & _ & Hrow).
  exists inc, w'. split; [exact Hrun |].
  split; [apply ApplicationStatus_label_inj; exact Hstatus |].
  exists row. split; [exact Hhistory |].
  apply ApplicationStatus_label_inj. exact Hrow.
Defined.

End FurtherWitnesses.
